(** * Framing layer of simplest_mediadata_raw.cpp

    A shallow embedding of the stream parsers and of the sample and
    pixel functions of [simplest_mediadata/simplest_mediadata_raw.cpp]:

    - [H264]: [FindStartCode2], [FindStartCode3], [GetAnnexbNALU] and the
      loop of [simplest_h264_parser];
    - [Aac]: [getADTSframe] and the loops of [simplest_aac_parser];
    - [Flv]: [reverse_bytes] and the tag loop of [simplest_flv_parser],
      with its AMF script tag reader;
    - [Rtp]: the body of the receive loop of [simplest_udp_parser];
    - [Pcm]: the functions on 16-bit PCM files, [simplest_pcm16le_split]
      to [simplest_pcm16le_to_wave];
    - [Pixel]: [YUV420PClockRot90], [YUV420PClockRot180], the loop of
      [simplest_yuv420_split] and the other functions on YUV420P and
      YUV444P files;
    - [Rgb]: [clip_value], the arithmetic of [RGB24_TO_YUV420] and
      [simplest_rgb24_split].

    Bytes are integers of [Z] in [0, 256).  A C [int] is a [Z]; counts and
    indices that the code keeps non-negative are [nat].  The C library's
    [FILE] is a record with the file's bytes, the position and the
    end-of-file indicator.  Loops that the C code runs until a condition
    holds take a fuel argument and answer [OutOfFuel] when it runs out.
    [Fault] is the answer where the C code stores past the end of a block
    or of an array, uses bytes that were never written, or adds two
    [int]s whose sum is not an [int]: the model follows the run no
    further. *)

From Stdlib Require Import ZArith List Bool Lia Ascii.
From Stdlib Require String.
Import String.StringSyntax.
Delimit Scope string_scope with string.
Bind Scope string_scope with String.string.
Import ListNotations.
Open Scope Z_scope.

(** ** Outcomes *)

Inductive result (A : Type) : Type :=
| Done (a : A)
| Fault
| OutOfFuel.

Arguments Done {A} a.
Arguments Fault {A}.
Arguments OutOfFuel {A}.

Definition bind {A B : Type} (r : result A) (k : A -> result B) : result B :=
  match r with
  | Done a => k a
  | Fault => Fault
  | OutOfFuel => OutOfFuel
  end.

Notation "x <- r ;; k" := (bind r (fun x => k))
  (at level 61, r at next level, right associativity).
Notation "' p <- r ;; k" := (bind r (fun p => k))
  (at level 61, p pattern, r at next level, right associativity).

(** ** Memory blocks

    A block is the list of its bytes that have been written; [memcpy_at]
    stores [src] from index [off] on and keeps the bytes around it. *)

Definition memcpy_at (mem : list Z) (off : nat) (src : list Z) : list Z :=
  firstn off mem ++ src ++ skipn (off + length src) mem.

(** ** The C library's stream *)

Record FILE : Type := mkFILE {
  f_data : list Z;   (* the bytes of the file *)
  f_pos  : nat;      (* the file position indicator *)
  f_eof  : bool      (* the end-of-file indicator *)
}.

Definition fopen (data : list Z) : FILE := mkFILE data 0 false.

Definition feof (f : FILE) : bool := f_eof f.

Definition ftell (f : FILE) : Z := Z.of_nat (f_pos f).

(** The bytes from the position to the end of the file. *)
Definition f_rest (f : FILE) : list Z := skipn (f_pos f) (f_data f).

(** [fread(ptr, 1, n, f)]: the bytes read (fewer than [n] only at the end
    of the file, which sets the indicator). *)
Definition fread (f : FILE) (n : nat) : list Z * FILE :=
  let got := firstn n (f_rest f) in
  (got,
   mkFILE (f_data f) (f_pos f + length got)
          (f_eof f || (length got <? n)%nat)).

(** [fgetc(f)]: the next byte, or [EOF] (-1) with the indicator set. *)
Definition fgetc (f : FILE) : Z * FILE :=
  match f_rest f with
  | c :: _ => (c, mkFILE (f_data f) (S (f_pos f)) (f_eof f))
  | [] => (-1, mkFILE (f_data f) (f_pos f) true)
  end.

(** [fseek(f, off, SEEK_CUR)]: fails on a negative position; a successful
    call clears the indicator.  A position past the end is allowed. *)
Definition fseek_cur (f : FILE) (off : Z) : FILE :=
  let p := Z.of_nat (f_pos f) + off in
  if p <? 0 then f else mkFILE (f_data f) (Z.to_nat p) false.

(** [fseek(f, off, SEEK_SET)]. *)
Definition fseek_set (f : FILE) (off : Z) : FILE :=
  if off <? 0 then f else mkFILE (f_data f) (Z.to_nat off) false.

(** Conversion of an [int] to [unsigned char]. *)
Definition to_uchar (c : Z) : Z := c mod 256.

(** The values a byte of a file or of a datagram takes. *)
Definition is_byte (b : Z) : Prop := 0 <= b < 256.

(** ** [sprintf] and [int]

    [sprintf(buf, ...)] stores the characters of the text and a zero byte
    after them: with [buf] an array of [size] bytes, a text of [size]
    characters or more is stored past the end of [buf]. *)
Definition sprintf (size : nat) (text : list Z) : result (list Z) :=
  if (length text <? size)%nat then Done text else Fault.

(** The characters of a string literal. *)
Fixpoint chars (s : String.string) : list Z :=
  match s with
  | String.EmptyString => []
  | String.String a s' => Z.of_N (N_of_ascii a) :: chars s'
  end.

(** The characters of [%d]: the decimal digits of the [int], after a
    minus sign where it is negative.  An [int] has at most ten digits. *)
Fixpoint decimal (fuel : nat) (n : Z) : list Z :=
  match fuel with
  | O => []
  | S fuel' =>
      (if n <? 10 then [] else decimal fuel' (n / 10)) ++ [48 + n mod 10]
  end.

Definition printf_d (n : Z) : list Z :=
  if n <? 0 then 45 :: decimal 10 (- n) else decimal 10 n.

Definition INT_MAX : Z := 2147483647.
Definition INT_MIN : Z := -2147483648.

(** [a + b] on two [int]s. *)
Definition int_add (a b : Z) : result Z :=
  if (INT_MIN <=? a + b) && (a + b <=? INT_MAX) then Done (a + b)
  else Fault.

(** ** AAC: ADTS frames *)

Module Aac.

(** The three returns of [getADTSframe]; [AdtsFrame] carries what the call
    stored through [data] and [data_size]. *)
Inductive adts_ret : Type :=
| AdtsShort                                  (* return -1 *)
| AdtsMore                                   (* return 1 *)
| AdtsFrame (data : list Z) (size : Z).      (* return 0 *)

Definition ret_code (r : adts_ret) : Z :=
  match r with
  | AdtsShort => -1
  | AdtsMore => 1
  | AdtsFrame _ _ => 0
  end.

(** The sync test: [buffer[0] == 0xff && (buffer[1] & 0xf0) == 0xf0]. *)
Definition sync_word (buffer : list Z) : bool :=
  (nth 0 buffer 0 =? 0xff) && (Z.land (nth 1 buffer 0) 0xf0 =? 0xf0).

(** The three [size |= ...] statements, from [size = 0]. *)
Definition frame_length (buffer : list Z) : Z :=
  let size := 0 in
  let size := Z.lor size (Z.shiftl (Z.land (nth 3 buffer 0) 0x03) 11) in
  let size := Z.lor size (Z.shiftl (nth 4 buffer 0) 3) in
  let size := Z.lor size (Z.shiftr (Z.land (nth 5 buffer 0) 0xe0) 5) in
  size.

(** [getADTSframe(buffer, buf_size, data, data_size)].  [buffer] is the
    memory from the pointer on, of which the caller promises [buf_size]
    bytes; the loop moves the pointer one byte per turn.  The pointers are
    never null in [simplest_aac_parser]. *)
Fixpoint getADTSframe (buffer : list Z) (buf_size : Z) : adts_ret :=
  if buf_size <? 7 then AdtsShort
  else
    match buffer with
    | [] => AdtsShort
    | _ :: buffer' =>
        if sync_word buffer then
          let size := frame_length buffer in
          if buf_size <? size then AdtsMore
          else AdtsFrame (firstn (Z.to_nat size) buffer) size
        else getADTSframe buffer' (buf_size - 1)
    end.

(** The sizes of the two blocks of [simplest_aac_parser]. *)
Definition AACFRAME_SIZE : Z := 1024 * 5.
Definition AACBUFFER_SIZE : Z := 1024 * 1024.

(** The header fields the parser reports, read from [aacframe]. *)
Definition adts_profile (aacframe : list Z) : Z :=
  Z.shiftr (Z.land (nth 2 aacframe 0) 0xC0) 6.

Definition adts_sampling_frequency_index (aacframe : list Z) : Z :=
  Z.shiftr (Z.land (nth 2 aacframe 0) 0x3C) 2.

(** [aacframe[2] & 0x01 << 2] parses as [aacframe[2] & (0x01 << 2)]. *)
Definition adts_channel_config_index (aacframe : list Z) : Z :=
  Z.lor (Z.land (nth 2 aacframe 0) (Z.shiftl 0x01 2))
        (Z.shiftr (Z.land (nth 3 aacframe 0) 0xC0) 6).

(** One line of the frame table, with the bytes of the frame. *)
Record adts_row : Type := mkRow {
  row_cnt : Z;
  row_profile : Z;
  row_frequency : Z;
  row_channels : Z;
  row_size : Z;
  row_frame : list Z      (* aacframe[0 .. size) *)
}.

(** How the inner [while(1)] is left. *)
Record inner_exit : Type := mkExit {
  x_rows : list adts_row;   (* the lines printed, in order *)
  x_aacframe : list Z;
  x_cnt : Z;
  x_aacbuffer : list Z;
  x_offset : Z
}.

(** The inner [while(1)] of [simplest_aac_parser].  [input_data] is the
    memory of [aacbuffer] from the pointer on.  A frame longer than
    [aacframe] makes [memcpy] store past its end.  On 1 the window is
    copied to the front of [aacbuffer]; where the two ranges overlap the
    copy is taken to run forward, as [memmove] would. *)
Fixpoint aac_inner (fuel : nat) (input_data : list Z) (data_size : Z)
    (aacframe : list Z) (cnt : Z) (aacbuffer : list Z) (offset : Z)
    : result inner_exit :=
  match fuel with
  | O => OutOfFuel
  | S fuel' =>
      match getADTSframe input_data data_size with
      | AdtsShort => Done (mkExit [] aacframe cnt aacbuffer offset)
      | AdtsMore =>
          Done (mkExit [] aacframe cnt
                  (memcpy_at aacbuffer 0
                     (firstn (Z.to_nat data_size) input_data))
                  data_size)
      | AdtsFrame data size =>
          if AACFRAME_SIZE <? size then Fault
          else
            let aacframe' := memcpy_at aacframe 0 data in
            let row := mkRow cnt (adts_profile aacframe')
                         (adts_sampling_frequency_index aacframe')
                         (adts_channel_config_index aacframe')
                         size (firstn (Z.to_nat size) aacframe') in
            x <- aac_inner fuel' (skipn (Z.to_nat size) input_data)
                   (data_size - size) aacframe' (cnt + 1) aacbuffer offset ;;
            Done (mkExit (row :: x_rows x) (x_aacframe x) (x_cnt x)
                    (x_aacbuffer x) (x_offset x))
      end
  end.

(** The outer [while(!feof(ifile))], for a buffer of [bufsize] bytes.
    Only the bytes of [aacbuffer] that were stored are kept; the window
    handed to [getADTSframe] never reaches past them. *)
Fixpoint aac_outer (fuel : nat) (bufsize : Z) (ifile : FILE)
    (aacframe : list Z) (cnt : Z) (aacbuffer : list Z) (offset : Z)
    : result (list adts_row) :=
  match fuel with
  | O => OutOfFuel
  | S fuel' =>
      if feof ifile then Done []
      else
        let '(got, ifile') := fread ifile (Z.to_nat (bufsize - offset)) in
        let data_size := Z.of_nat (length got) in
        let aacbuffer' := memcpy_at aacbuffer (Z.to_nat offset) got in
        x <- aac_inner (S (Z.to_nat data_size)) aacbuffer' data_size
               aacframe cnt aacbuffer' offset ;;
        rest <- aac_outer fuel' bufsize ifile' (x_aacframe x) (x_cnt x)
                  (x_aacbuffer x) (x_offset x) ;;
        Done (x_rows x ++ rest)
  end.

(** The parser with a buffer of [bufsize] bytes, on a file of bytes
    [stream]. *)
Definition aac_parser (bufsize : Z) (stream : list Z)
    : result (list adts_row) :=
  aac_outer (S (S (length stream))) bufsize (fopen stream) [] 0 [] 0.

(** [simplest_aac_parser]: the buffer has [1024*1024] bytes. *)
Definition simplest_aac_parser (stream : list Z) : result (list adts_row) :=
  aac_parser AACBUFFER_SIZE stream.

(** *** Streams used below *)

(** An ADTS frame of [n] bytes, [7 <= n < 8192], with a body of zeros. *)
Definition adts (n : Z) : list Z :=
  [0xff; 0xf1; 0; Z.shiftr n 11; Z.land (Z.shiftr n 3) 0xff;
   Z.shiftl (Z.land n 7) 5; 0] ++ repeat 0 (Z.to_nat (n - 7)).

(** 256 frames that fill the buffer up to its last three bytes, then a
    frame of seven bytes. *)
Definition stream_cut_header : list Z :=
  concat (repeat (adts 4096) 255) ++ adts 4093 ++ adts 7.

(** 257 frames, the last of which starts 2048 bytes before the end of the
    buffer. *)
Definition stream_cut_frame : list Z :=
  adts 2048 ++ concat (repeat (adts 4096) 256).

(** A buffer that holds either stream whole. *)
Definition WHOLE_SIZE : Z := 2 * 1024 * 1024.

(** The sizes of the frames of a run, in the order of the table. *)
Definition frame_sizes (r : result (list adts_row)) : result (list Z) :=
  rows <- r ;; Done (map row_size rows).

End Aac.

(** ** H.264: Annex-B NAL units *)

Module H264.

(** [NALU_t].  [buf] is a [char] block set to zero by [calloc]; the bytes
    past the end of the list are those zeros.  Masking a sign-extended
    [char] with [0x80], [0x60] or [0x1f] gives the same bits as masking the
    byte, so the bytes stay unsigned here. *)
Record NALU_t : Type := mkNALU {
  startcodeprefix_len : nat;
  len : nat;
  max_size : Z;
  forbidden_bit : Z;
  nal_reference_idc : Z;
  nal_unit_type : Z;
  buf : list Z
}.

(** [FindStartCode2(Buf)]: 1 on [00 00 01]. *)
Definition FindStartCode2 (Buf : list Z) : Z :=
  if negb (nth 0 Buf 0 =? 0) || negb (nth 1 Buf 0 =? 0)
     || negb (nth 2 Buf 0 =? 1)
  then 0 else 1.

(** [FindStartCode3(Buf)]: 1 on [00 00 00 01]. *)
Definition FindStartCode3 (Buf : list Z) : Z :=
  if negb (nth 0 Buf 0 =? 0) || negb (nth 1 Buf 0 =? 0)
     || negb (nth 2 Buf 0 =? 0) || negb (nth 3 Buf 0 =? 1)
  then 0 else 1.

(** How the [while(!StartCodeFound)] loop is left. *)
Inductive scan_exit : Type :=
| AtEof (Buf : list Z) (pos : nat) (f : FILE)
| Found (Buf : list Z) (pos : nat) (info3 : Z) (f : FILE).

(** The loop that looks for the next start code.  [Buf] holds the [pos]
    bytes stored so far; [Buf[pos++] = fgetc(...)] past [max_size] bytes
    stores outside the block. *)
Fixpoint scan_next (fuel : nat) (maxsz : Z) (Buf : list Z) (pos : nat)
    (info2 : Z) (f : FILE) : result scan_exit :=
  match fuel with
  | O => OutOfFuel
  | S fuel' =>
      if feof f then Done (AtEof Buf pos f)
      else
        let '(c, f1) := fgetc f in
        if maxsz <=? Z.of_nat pos then Fault
        else
          let Buf1 := Buf ++ [to_uchar c] in
          let pos1 := S pos in
          let info3 := FindStartCode3 (skipn (pos1 - 4) Buf1) in
          let info2' :=
            if negb (info3 =? 1) then FindStartCode2 (skipn (pos1 - 3) Buf1)
            else info2 in
          if (info2' =? 1) || (info3 =? 1) then Done (Found Buf1 pos1 info3 f1)
          else scan_next fuel' maxsz Buf1 pos1 info2' f1
  end.

(** The three assignments from [nalu->buf[0]], after the [memcpy] of [n]
    bytes from [&Buf[startcodeprefix_len]]. *)
Definition store_nalu (nalu : NALU_t) (prefix : nat) (Buf : list Z) (n : nat)
    : NALU_t :=
  let buf' := memcpy_at (buf nalu) 0 (firstn n (skipn prefix Buf)) in
  mkNALU prefix n (max_size nalu)
         (Z.land (nth 0 buf' 0) 0x80)
         (Z.land (nth 0 buf' 0) 0x60)
         (Z.land (nth 0 buf' 0) 0x1f)
         buf'.

(** The second half of [GetAnnexbNALU], from [StartCodeFound = 0] on.
    [nalu->len] is unsigned: a negative difference would wrap to a length
    that no block holds. *)
Definition next_start_code (nalu : NALU_t) (prefix : nat) (Buf : list Z)
    (f : FILE) : result (Z * NALU_t * FILE) :=
  x <- scan_next (S (S (length (f_rest f)))) (max_size nalu) Buf prefix 0 f ;;
  match x with
  | AtEof Buf' pos f' =>
      let n := (Z.of_nat pos - 1) - Z.of_nat prefix in
      if n <? 0 then Fault
      else Done (Z.of_nat pos - 1,
                 store_nalu nalu prefix Buf' (Z.to_nat n), f')
  | Found Buf' pos info3 f' =>
      let rewind := if info3 =? 1 then -4 else -3 in
      let f' := fseek_cur f' rewind in
      let n := (Z.of_nat pos + rewind) - Z.of_nat prefix in
      if n <? 0 then Fault
      else Done (Z.of_nat pos + rewind,
                 store_nalu nalu prefix Buf' (Z.to_nat n), f')
  end.

Definition set_prefix (nalu : NALU_t) (p : nat) : NALU_t :=
  mkNALU p (len nalu) (max_size nalu) (forbidden_bit nalu)
         (nal_reference_idc nalu) (nal_unit_type nalu) (buf nalu).

(** [GetAnnexbNALU(nalu)] on the stream [h264bitstream]: the value
    returned, the unit and the stream afterwards. *)
Definition GetAnnexbNALU (nalu : NALU_t) (h264bitstream : FILE)
    : result (Z * NALU_t * FILE) :=
  let nalu := set_prefix nalu 3 in
  let '(Buf, f) := fread h264bitstream 3 in
  if negb (length Buf =? 3)%nat then Done (0, nalu, f)
  else
    let info2 := FindStartCode2 Buf in
    if negb (info2 =? 1) then
      let '(b, f) := fread f 1 in
      if negb (length b =? 1)%nat then Done (0, nalu, f)
      else
        let Buf := Buf ++ b in
        let info3 := FindStartCode3 Buf in
        if negb (info3 =? 1) then Done (-1, nalu, f)
        else next_start_code (set_prefix nalu 4) 4 Buf f
    else next_start_code (set_prefix nalu 3) 3 Buf f.

(** One line of the NALU table, with the unit as the call left it. *)
Record nal_row : Type := mkNalRow {
  nal_num : Z;
  data_offset : Z;
  idc : Z;              (* n->nal_reference_idc >> 5, the priority shown *)
  unit : NALU_t
}.

(** The bytes of the unit: [buf[0 .. len)]. *)
Definition payload (n : NALU_t) : list Z := firstn (len n) (buf n).

(** The start code of [startcodeprefix_len] bytes. *)
Definition start_code (n : nat) : list Z := repeat 0 (n - 1) ++ [1].

(** The bytes of a unit: its start code and its payload. *)
Definition unit_bytes (n : NALU_t) : list Z :=
  start_code (startcodeprefix_len n) ++ payload n.

Definition nal_bytes (r : nal_row) : list Z := unit_bytes (unit r).

(** The [while(!feof(h264bitstream))] loop of [simplest_h264_parser]. *)
Fixpoint h264_loop (fuel : nat) (n : NALU_t) (f : FILE)
    (offset num : Z) : result (list nal_row) :=
  match fuel with
  | O => OutOfFuel
  | S fuel' =>
      if feof f then Done []
      else
        '(data_lenth, n', f') <- GetAnnexbNALU n f ;;
        let row := mkNalRow num offset (Z.shiftr (nal_reference_idc n') 5) n' in
        rest <- h264_loop fuel' n' f' (offset + data_lenth) (num + 1) ;;
        Done (row :: rest)
  end.

Definition BUFFERSIZE : Z := 100000.

(** The unit after [calloc]. *)
Definition nalu_init (maxsz : Z) : NALU_t := mkNALU 0 0 maxsz 0 0 0 [].

(** [simplest_h264_parser] on a file of bytes [stream], for a buffer of
    [maxsz] bytes. *)
Definition h264_parser (maxsz : Z) (stream : list Z)
    : result (list nal_row) :=
  h264_loop (S (S (length stream))) (nalu_init maxsz) (fopen stream) 0 0.

Definition simplest_h264_parser (stream : list Z) : result (list nal_row) :=
  h264_parser BUFFERSIZE stream.

(** A stream that begins with a start code of 3 or 4 bytes. *)
Definition valid_annexb (stream : list Z) : Prop :=
  (exists tl, stream = [0; 0; 1] ++ tl) \/
  (exists tl, stream = [0; 0; 0; 1] ++ tl).

(** The three fields are the three masks of [buf[0]]. *)
Definition decoded (n : NALU_t) : Prop :=
  forbidden_bit n = Z.land (nth 0 (buf n) 0) 0x80 /\
  nal_reference_idc n = Z.land (nth 0 (buf n) 0) 0x60 /\
  nal_unit_type n = Z.land (nth 0 (buf n) 0) 0x1f.

(** The stream [f] is [n] bytes further in the file of [f0]. *)
Definition ahead (f0 f : FILE) (n : nat) : Prop :=
  f_data f = f_data f0 /\ f_pos f = (f_pos f0 + n)%nat.

(** What a call that has read its start code at [f0] answers: an overrun
    of a scan buffer of [maxsz] bytes, or a unit that is the next bytes of
    the file, with the stream left at its end or at the next start
    code. *)
Definition unit_read (f0 : FILE) (maxsz : Z)
    (r : result (Z * NALU_t * FILE)) : Prop :=
  (r = Fault /\ maxsz <= Z.of_nat (length (f_rest f0)))
  \/
  (exists ret n' f',
     r = Done (ret, n', f') /\
     max_size n' = maxsz /\
     f_data f' = f_data f0 /\
     f_rest f0 = unit_bytes n' ++ f_rest f' /\
     (3 <= length (unit_bytes n'))%nat /\
     ((f_eof f' = true /\ f_rest f' = []) \/
      (f_eof f' = false /\ valid_annexb (f_rest f')))).

(** The line of the unit [67 42] at the start of a file. *)
Definition sps_row : nal_row :=
  mkNalRow 0 0 3 (mkNALU 3 2 BUFFERSIZE 0 96 7 [0x67; 0x42]).

(** A start code and a payload of as many bytes as the scan buffer. *)
Definition stream_long_unit : list Z :=
  [0; 0; 1] ++ repeat 0xAA (Z.to_nat BUFFERSIZE).

End H264.

(** ** FLV: tags and the AMF script tag *)

Module Flv.

Definition TAG_TYPE_SCRIPT : Z := 18.
Definition TAG_TYPE_AUDIO : Z := 8.
Definition TAG_TYPE_VIDEO : Z := 9.

(** With a [uint] of 4 bytes aligned on 4, both [FLV_HEADER] and
    [TAG_HEADER] take 12 bytes; [DataOffset] and [Reserved] sit at offset
    8, and [DataOffset] is read in the byte order of the host, the low
    byte first. *)
Definition SIZEOF_FLV_HEADER : nat := 12.
Definition SIZEOF_TAG_HEADER : nat := 12.

(** [reverse_bytes(p, c)]: [r |= p[i] << ((c-1)*8 - 8*i)] for [i < c]. *)
Fixpoint reverse_bytes_from (p : list Z) (c : nat) (i : nat) (n : nat) (r : Z)
    : Z :=
  match n with
  | O => r
  | S n' =>
      reverse_bytes_from p c (S i) n'
        (Z.lor r (Z.shiftl (nth i p 0)
                    ((Z.of_nat c - 1) * 8 - 8 * Z.of_nat i)))
  end.

Definition reverse_bytes (p : list Z) (c : nat) : Z :=
  reverse_bytes_from p c 0 c 0.

(** A [uint] stored in an [int]. *)
Definition to_int (v : Z) : Z :=
  let w := v mod 4294967296 in
  if w <? 2147483648 then w else w - 4294967296.

(** A little-endian [uint] in memory. *)
Definition uint_le (p : list Z) : Z :=
  nth 0 p 0 + 256 * nth 1 p 0 + 65536 * nth 2 p 0 + 16777216 * nth 3 p 0.

(** [n] calls of [fgetc], as in [for(...) fputc(fgetc(ifh), out)]. *)
Fixpoint fgetc_n (n : nat) (f : FILE) : list Z * FILE :=
  match n with
  | O => ([], f)
  | S n' =>
      let '(c, f1) := fgetc f in
      let '(cs, f2) := fgetc_n n' f1 in
      (to_uchar c :: cs, f2)
  end.

(** A two-byte array filled by [fread(tmp, 1, 2, ifh)] and read as
    [tmp[0] * 256 + tmp[1]]; a short read leaves bytes never written. *)
Definition read_len16 (ifh : FILE) : result (Z * FILE) :=
  let '(tmp, ifh) := fread ifh 2 in
  if (length tmp <? 2)%nat then Fault
  else Done (nth 0 tmp 0 * 256 + nth 1 tmp 0, ifh).

(** [strcmp] reads a [char] array up to its first zero byte. *)
Fixpoint cstring (s : list Z) : list Z :=
  match s with
  | [] => []
  | c :: s' => if c =? 0 then [] else c :: cstring s'
  end.

Fixpoint bytes_of (s : String.string) : list Z :=
  match s with
  | String.EmptyString => []
  | String.String a s' => Z.of_N (N_of_ascii a) :: bytes_of s'
  end.

Definition list_eqb (a b : list Z) : bool :=
  if list_eq_dec Z.eq_dec a b then true else false.

(** [!strcmp(KeyString, name)]. *)
Definition key_is (KeyString : list Z) (name : String.string) : bool :=
  list_eqb (cstring KeyString) (bytes_of name).

(** The keys of the long [if] of the ECMA array loop. *)
Definition known_keys : list String.string :=
  ["duration"; "width"; "height"; "videodatarate"; "framerate";
   "videocodecid"; "audiodatarate"; "audiosamplerate"; "audiosamplesize";
   "stereo"; "audiocodecid"; "filesize"]%string.

Definition known_key (KeyString : list Z) : bool :=
  existsb (key_is KeyString) known_keys.

(** The keys of the [if]/[else if] chain that prints a Number. *)
Definition number_keys : list String.string :=
  ["duration"; "width"; "height"; "videodatarate"; "framerate";
   "videocodecid"; "audiodatarate"; "audiosamplerate"; "audiosamplesize";
   "audiocodecid"; "filesize"]%string.

(** A line of metadata.  A Number is kept as the 64 bits put into
    [dataVal.value]. *)
Inductive meta : Type :=
| MetaNumber (key : list Z) (bits : Z)
| MetaStereo (b : bool).

Definition be64 (value : list Z) : Z :=
  fold_left (fun acc b => Z.lor (Z.shiftl acc 8) b) value 0.

(** The branch of a key of the list: reads the value's type and, for a
    Number or a Boolean, the value. *)
Definition read_known (KeyString : list Z) (ifh : FILE)
    : result (list meta * FILE) :=
  let '(c, ifh) := fgetc ifh in
  let value_type := to_uchar c in
  if value_type =? 0 then
    let '(got, ifh) := fread ifh 8 in
    let value := got ++ repeat 0 (8 - length got) in
    Done (if existsb (key_is KeyString) number_keys
          then [MetaNumber (cstring KeyString) (be64 value)] else [],
          ifh)
  else if value_type =? 1 then
    let '(c, ifh) := fgetc ifh in
    Done ([MetaStereo (negb (c =? 0))], ifh)
  else Done ([], ifh).

(** The [else] branch: a key outside the list, skipped by the type of its
    value. *)
Definition skip_value (ifh : FILE) : result FILE :=
  let '(c, ifh) := fgetc ifh in
  let value_type := to_uchar c in
  if value_type =? 0 then Done (fseek_cur ifh 8)
  else if value_type =? 1 then Done (fseek_cur ifh 1)
  else if value_type =? 2 then
    '(ValueLen, ifh) <- read_len16 ifh ;;
    Done (fseek_cur ifh ValueLen)
  else Done ifh.

(** One turn of [for(int i=0; i < num; i++)]. *)
Definition ecma_element (ifh : FILE) : result (list meta * FILE) :=
  '(KeyLen, ifh) <- read_len16 ifh ;;
  let '(got, ifh) := fread ifh (Z.to_nat KeyLen) in
  let KeyString := got in
  if known_key KeyString then read_known KeyString ifh
  else
    ifh <- skip_value ifh ;;
    Done ([], ifh).

Fixpoint ecma_array (num : nat) (ifh : FILE) : result (list meta * FILE) :=
  match num with
  | O => Done ([], ifh)
  | S num' =>
      '(m, ifh) <- ecma_element ifh ;;
      '(ms, ifh) <- ecma_array num' ifh ;;
      Done (m ++ ms, ifh)
  end.

(** The text that [sprintf] makes for [scripttag_str]: the length with
    [%d] and [Data] with [%s], up to its first zero byte. *)
Definition scripttag_text (ScriptDataLen : Z) (Data : list Z) : list Z :=
  chars "ScriptDataLen: " ++ printf_d ScriptDataLen
  ++ chars ",  ScriptDataValue: " ++ cstring Data.

(** [case TAG_TYPE_SCRIPT].  [Data] has [ScriptDataLen + 1] bytes, all zero
    before the [fread]; its text goes to [char scripttag_str[100]]. *)
Definition script_tag (tagheader_datasize : Z) (ifh : FILE)
    : result (list meta * FILE) :=
  let '(c, ifh) := fgetc ifh in
  ifh <-
    (if c =? 2 then
       '(ScriptDataLen, ifh) <- read_len16 ifh ;;
       let '(got, ifh) := fread ifh (Z.to_nat ScriptDataLen) in
       let Data :=
         got ++ repeat 0 (Z.to_nat ScriptDataLen + 1 - length got) in
       scripttag_str <- sprintf 100 (scripttag_text ScriptDataLen Data) ;;
       Done ifh
     else Done ifh) ;;
  let '(c, ifh) := fgetc ifh in
  '(ms, ifh) <-
    (if c =? 8 then
       let '(got, ifh) := fread ifh 4 in
       let num := to_int (reverse_bytes (got ++ repeat 0 (4 - length got)) 4) in
       ecma_array (Z.to_nat num) ifh
     else Done ([], ifh)) ;;
  let ifh :=
    if negb (ftell ifh =? tagheader_datasize + 9 + 4 + 11)
    then fseek_set ifh (tagheader_datasize + 24) else ifh in
  Done (ms, ifh).

(** The line [[type] datasize timestamp |] of a tag. *)
Record tag_row : Type := mkTag {
  TagType : Z;
  tag_datasize : Z;
  tag_timestamp : Z
}.

(** What the [switch] on the tag type does to the input stream, with
    [output_a] and [output_v] set as in the source.  The output files are
    taken to open; the bytes copied to them do not show in the tag lines
    and are left out. *)
Definition tag_data (TagType tagheader_datasize : Z) (ifh : FILE)
    : result (list meta * FILE) :=
  if TagType =? TAG_TYPE_AUDIO then
    let '(_, ifh) := fgetc ifh in
    let data_size := tagheader_datasize - 1 in
    let '(_, ifh) := fgetc_n (Z.to_nat data_size) ifh in
    Done ([], ifh)
  else if TagType =? TAG_TYPE_VIDEO then
    let '(_, ifh) := fgetc ifh in
    let ifh := fseek_cur ifh (-1) in
    let '(_, ifh) := fgetc_n (Z.to_nat tagheader_datasize) ifh in
    Done ([], ifh)
  else if TagType =? TAG_TYPE_SCRIPT then script_tag tagheader_datasize ifh
  else Done ([], ifh).

(** The [do { ... } while(!feof(ifh))] loop.  [tagheader] holds the bytes
    of the struct; a short [fread] leaves the bytes it did not reach. *)
Fixpoint tag_loop (fuel : nat) (tagheader : list Z) (ifh : FILE)
    : result (list tag_row * list meta) :=
  match fuel with
  | O => OutOfFuel
  | S fuel' =>
      let '(_, ifh) := fread ifh 4 in
      let '(got, ifh) := fread ifh SIZEOF_TAG_HEADER in
      let tagheader := memcpy_at tagheader 0 got in
      if (length tagheader <? SIZEOF_TAG_HEADER)%nat then Fault
      else
        let type := nth 0 tagheader 0 in
        let tagheader_datasize :=
          nth 1 tagheader 0 * 65536 + nth 2 tagheader 0 * 256
          + nth 3 tagheader 0 in
        let tagheader_timestamp :=
          nth 4 tagheader 0 * 65536 + nth 5 tagheader 0 * 256
          + nth 6 tagheader 0 in
        let ifh := fseek_cur ifh (11 - Z.of_nat SIZEOF_TAG_HEADER) in
        let row := mkTag type tagheader_datasize tagheader_timestamp in
        if feof ifh then Done ([row], [])
        else
          '(ms, ifh) <- tag_data type tagheader_datasize ifh ;;
          if negb (feof ifh) then
            '(rows, ms') <- tag_loop fuel' tagheader ifh ;;
            Done (row :: rows, ms ++ ms')
          else Done ([row], ms)
  end.

(** [simplest_flv_parser] on a file of bytes [stream]: the tag lines and
    the metadata lines. *)
Definition simplest_flv_parser (stream : list Z)
    : result (list tag_row * list meta) :=
  let '(flv, ifh) := fread (fopen stream) SIZEOF_FLV_HEADER in
  if (length flv <? SIZEOF_FLV_HEADER)%nat then Fault
  else
    let DataOffset := uint_le (skipn 8 flv) in
    tag_loop (S (S (length stream))) [] (fseek_set ifh DataOffset).

(** *** The encoding of AMF values, as the format lays them out *)

Inductive amf_value : Type :=
| AmfNumber (bits : list Z)        (* 8 bytes *)
| AmfBoolean (b : Z)               (* 1 byte *)
| AmfString (s : list Z).          (* at most 65535 bytes *)

Definition enc_len16 (n : nat) : list Z :=
  [Z.of_nat n / 256; Z.of_nat n mod 256].

Definition enc_value (v : amf_value) : list Z :=
  match v with
  | AmfNumber bits => 0 :: bits
  | AmfBoolean b => [1; b]
  | AmfString s => 2 :: enc_len16 (length s) ++ s
  end.

(** The number of bytes of the value after its type byte. *)
Definition encoded_length (v : amf_value) : nat :=
  match v with
  | AmfNumber _ => 8
  | AmfBoolean _ => 1
  | AmfString s => 2 + length s
  end.

Definition wf_value (v : amf_value) : Prop :=
  match v with
  | AmfNumber bits => length bits = 8%nat
  | AmfBoolean _ => True
  | AmfString s => Z.of_nat (length s) < 65536
  end.

Definition enc_pair (key : list Z) (v : amf_value) : list Z :=
  enc_len16 (length key) ++ key ++ enc_value v.

(** Two pairs of an ECMA array: a key outside the list with a String,
    then [width] with a Number. *)
Definition script_pairs : list Z :=
  enc_pair (bytes_of "encoder"%string) (AmfString (bytes_of "Lavf"%string))
  ++ enc_pair (bytes_of "width"%string)
       (AmfNumber [64; 148; 0; 0; 0; 0; 0; 0]).

(** A key of six bytes, [width] and a zero byte, with a String; then
    [height] with a Number. *)
Definition nul_key : list Z := bytes_of "width"%string ++ [0].

Definition nul_key_pairs : list Z :=
  enc_pair nul_key (AmfString (bytes_of "Lavf"%string))
  ++ enc_pair (bytes_of "height"%string)
       (AmfNumber [64; 126; 0; 0; 0; 0; 0; 0]).

(** *** The layout of an FLV file, as the format has it *)

Definition be24 (n : Z) : list Z := [n / 65536; (n / 256) mod 256; n mod 256].

Definition be32 (n : Z) : list Z :=
  [n / 16777216; (n / 65536) mod 256; (n / 256) mod 256; n mod 256].

(** A tag: its 11-byte header and its data. *)
Definition enc_tag (type timestamp : Z) (data : list Z) : list Z :=
  [type] ++ be24 (Z.of_nat (length data)) ++ be24 timestamp ++ [0; 0; 0; 0]
  ++ data.

(** The tags, each followed by the size of the tag before the next. *)
Definition enc_tags (tags : list (list Z)) : list Z :=
  concat (map (fun t => t ++ be32 (Z.of_nat (length t))) tags).

(** The 9-byte header with both flags, the first previous-tag size, then
    the tags. *)
Definition flv_file (tags : list (list Z)) : list Z :=
  bytes_of "FLV"%string ++ [1; 5] ++ be32 9 ++ be32 0 ++ enc_tags tags.

Definition audio_tag : list Z := enc_tag TAG_TYPE_AUDIO 0 [0xAF; 1].
Definition video_tag : list Z := enc_tag TAG_TYPE_VIDEO 40 [0x17; 1; 0].

End Flv.

(** ** RTP over UDP, with MPEG-TS packets *)

Module Rtp.

(** [char recvData[10000]]. *)
Definition RECVDATA_SIZE : nat := Z.to_nat 10000.

(** [sizeof(RTP_FIXED_HEADER)]. *)
Definition rtp_header_size : Z := 12.

(** [RTP_FIXED_HEADER] over the first bytes of [recvData], with the
    bit-fields of the [CPU_LITTLE_ENDIAN] branch: the first field named
    takes the low bits of its byte. *)
Record RTP_FIXED_HEADER : Type := mkRtp {
  csrc_len : Z;
  extension : Z;
  padding : Z;
  version : Z;
  payload : Z;
  marker : Z;
  seq_no : Z;        (* ntohs(rtp_header.seq_no) *)
  timestamp : Z;     (* ntohl(rtp_header.timestamp) *)
  ssrc : list Z
}.

Definition rtp_header_of (recvData : list Z) : RTP_FIXED_HEADER :=
  let b := fun i => nth i recvData 0 in
  mkRtp (Z.land (b 0%nat) 0x0f)
        (Z.land (Z.shiftr (b 0%nat) 4) 1)
        (Z.land (Z.shiftr (b 0%nat) 5) 1)
        (Z.land (Z.shiftr (b 0%nat) 6) 3)
        (Z.land (b 1%nat) 0x7f)
        (Z.land (Z.shiftr (b 1%nat) 7) 1)
        (b 2%nat * 256 + b 3%nat)
        (((b 4%nat * 256 + b 5%nat) * 256 + b 6%nat) * 256 + b 7%nat)
        (firstn 4 (skipn 8 recvData)).

(** [for(int i=0; i<rtp_data_size; i=i+188)]: the number of
    [[MPEGTS Pkt]] lines.  [i] grows on each turn, so [rtp_data_size]
    turns are more than the loop can take. *)
Fixpoint mpegts_loop (fuel : nat) (rtp_data : list Z) (rtp_data_size : Z)
    (i : Z) : nat :=
  match fuel with
  | O => 0%nat
  | S fuel' =>
      if i <? rtp_data_size then
        if negb (nth (Z.to_nat i) rtp_data 0 =? 0x47) then 0%nat
        else S (mpegts_loop fuel' rtp_data rtp_data_size (i + 188))
      else 0%nat
  end.

Definition mpegts_packets (rtp_data : list Z) (rtp_data_size : Z) : nat :=
  mpegts_loop (Z.to_nat rtp_data_size) rtp_data rtp_data_size 0.

(** The two formats of the [switch] on the payload type, with their
    [%s] filled in. *)
Definition with_channels (name media rate channels : String.string)
    : list Z :=
  chars "encoding name: " ++ chars name ++ chars ",media type: "
  ++ chars media ++ chars ",clock rate:" ++ chars rate
  ++ chars ",channels:" ++ chars channels.

Definition with_rate (name media rate : String.string) : list Z :=
  chars "encoding name: " ++ chars name ++ chars ",media type: "
  ++ chars media ++ chars ",clock rate:" ++ chars rate.

(** [switch(payload)]: the text that the case of the payload type gives
    to [sprintf]; [None] where the [switch] has no case. *)
Definition payload_text (payload : Z) : option (list Z) :=
  match payload with
  | 0 => Some (with_channels "PCMU" "Audio" "8khz" "1")
  | 1 | 2 => Some (chars "media type:" ++ chars "Audio")
  | 3 => Some (with_channels "GSM" "Audio" "8khz" "1")
  | 4 => Some (with_channels "G723" "Audio" "8khz" "1")
  | 5 => Some (with_channels "DVI4" "Audio" "8khz" "1")
  | 6 => Some (with_channels "DVI4" "Audio" "16khz" "1")
  | 7 => Some (with_channels "LPC" "Audio" "8khz" "1")
  | 8 => Some (with_channels "PCMA" "Audio" "8khz" "1")
  | 9 => Some (with_channels "G722" "Audio" "8khz" "1")
  | 10 => Some (with_channels "L16" "Audio" "44.1khz" "2")
  | 11 => Some (with_channels "L16" "Audio" "44.1khz" "1")
  | 12 => Some (with_channels "QCELP" "Audio" "8khz" "1")
  | 13 => Some (with_channels "CN" "Audio" "8khz" "1")
  | 14 => Some (with_channels "MPA" "Audio" "90khz" "1")
  | 15 => Some (with_channels "G728" "Audio" "8khz" "1")
  | 16 => Some (with_channels "DVI4" "Audio" "11.025khz" "1")
  | 17 => Some (with_channels "DVI4" "Audio" "22.05khz" "1")
  | 18 => Some (with_channels "G729" "Audio" "8khz" "1")
  | 25 => Some (with_rate "CelB" "Vedio" "90khz")
  | 26 => Some (with_rate "JPEG" "Vedio" "90khz")
  | 31 => Some (with_rate "H261" "Vedio" "90khz")
  | 32 => Some (with_rate "MPV" "Vedio" "90khz")
  | 33 => Some (with_rate "MP2T" "AV" "90khz")
  | 34 => Some (with_rate "H263" "Vedio" "90khz")
  | 96 => Some (with_channels "PCMU" "Audio" "8khz" "2")
  | _ => None
  end.

(** [char payload_str[50] = {0}] after the [switch]. *)
Definition format_payload (payload : Z) : result (list Z) :=
  match payload_text payload with
  | Some text => sprintf 50 text
  | None => Done []
  end.

(** [fwrite(rtp_data, rtp_data_size, 1, fp1)]: one element of
    [rtp_data_size] bytes, the [int] taken as a [size_t] of 64 bits.  The
    bytes must be in the part of [recvData] that has been written. *)
Definition fwrite_rtp (rtp_data : list Z) (rtp_data_size : Z)
    : result (list Z) :=
  let size := rtp_data_size mod 2 ^ 64 in
  if size <=? Z.of_nat (length rtp_data)
  then Done (firstn (Z.to_nat size) rtp_data)
  else Fault.

(** What one datagram makes the loop print and write. *)
Record rtp_event : Type := mkEvent {
  ev_cnt : Z;
  ev_header : RTP_FIXED_HEADER;      (* the fields of [rtp_header] *)
  ev_payload_str : list Z;           (* the text of the [RTP Pkt] line *)
  ev_pktsize : Z;
  ev_dump : list Z;                  (* the bytes written to the dump file *)
  ev_ts : nat                        (* the [MPEGTS Pkt] lines *)
}.

(** One turn of [while(1)] with [parse_rtp] and [parse_mpegts] set, on the
    datagram [dgram]: [recvfrom] keeps at most [sizeof(recvData)] bytes
    of it.  The state is [cnt] and [recvData], the bytes of the array
    that have been written.  The turn reads the payload type, the
    sequence number and the timestamp out of [rtp_header], bytes 1 to 7
    of [recvData].  The dump file is taken to be open. *)
Definition udp_step (recvData : list Z) (cnt : Z) (dgram : list Z)
    : result (list Z * Z * option rtp_event) :=
  let got := firstn RECVDATA_SIZE dgram in
  let pktsize := Z.of_nat (length got) in
  let recvData := memcpy_at recvData 0 got in
  if 0 <? pktsize then
    if (length recvData <? 8)%nat then Fault
    else
      let rtp_header := rtp_header_of recvData in
      payload_str <- format_payload (payload rtp_header) ;;
      let rtp_data := skipn (Z.to_nat rtp_header_size) recvData in
      let rtp_data_size := pktsize - rtp_header_size in
      dump <- fwrite_rtp rtp_data rtp_data_size ;;
      let ts :=
        if payload rtp_header =? 33
        then mpegts_packets rtp_data rtp_data_size else 0%nat in
      Done (recvData, cnt + 1,
            Some (mkEvent cnt rtp_header payload_str pktsize dump ts))
  else Done (recvData, cnt, None).

(** The consecutive chunks of 188 bytes of a payload; the last one may
    be shorter. *)
Fixpoint chunks188 (fuel : nat) (l : list Z) : list (list Z) :=
  match fuel with
  | O => []
  | S fuel' =>
      match l with
      | [] => []
      | _ => firstn 188 l :: chunks188 fuel' (skipn 188 l)
      end
  end.

Definition chunks (l : list Z) : list (list Z) := chunks188 (length l) l.

Definition ts_sync (chunk : list Z) : bool := nth 0 chunk 0 =? 0x47.

Fixpoint take_while {A : Type} (p : A -> bool) (l : list A) : list A :=
  match l with
  | [] => []
  | x :: l' => if p x then x :: take_while p l' else []
  end.

(** The chunks that start with the sync byte, up to the first one that
    does not. *)
Definition leading_ts (rtp_payload : list Z) : list (list Z) :=
  take_while ts_sync (chunks rtp_payload).

(** The same, stopping at a chunk that is not complete as well. *)
Definition leading_complete_ts (rtp_payload : list Z) : list (list Z) :=
  take_while (fun c => ts_sync c && (length c =? 188)%nat)
             (chunks rtp_payload).

(** A header of version 2 with payload type 33. *)
Definition mp2t_header : list Z := [0x80; 33; 0; 1; 0; 0; 0; 2; 0; 0; 0; 3].

(** A datagram of 200 bytes: the header and one MPEG-TS packet. *)
Definition one_packet : list Z := mp2t_header ++ (0x47 :: repeat 0 187).

(** A datagram of two bytes, with payload type 1. *)
Definition two_bytes : list Z := [0x80; 1].

(** A header with payload type 1 and three bytes; a header with the
    marker and payload type 8 and one byte. *)
Definition audio_datagram : list Z :=
  [0x80; 1; 0; 1; 0; 0; 0; 2; 0; 0; 0; 3; 7; 8; 9].

Definition pcma_datagram : list Z :=
  [0x80; 0x88; 0; 1; 0; 0; 0; 2; 0; 0; 0; 3; 0xd5].

End Rtp.

(** ** ADTS streams, as the format lays them out *)

Module AacFrames.
Import Aac.

(** No sync word at any of the first [k] positions of the window. *)
Definition no_sync_before (buffer : list Z) (k : nat) : Prop :=
  forall j, (j < k)%nat -> sync_word (skipn j buffer) = false.

(** A frame whose length field is its length, with at least a header and
    at most the bytes [aacframe] holds. *)
Definition adts_frame (fr : list Z) : Prop :=
  sync_word fr = true /\
  frame_length fr = Z.of_nat (length fr) /\
  7 <= Z.of_nat (length fr) <= AACFRAME_SIZE.

(** The line the parser prints for the frame [fr] as frame number [cnt]. *)
Definition adts_row_of (cnt : Z) (fr : list Z) : adts_row :=
  mkRow cnt (adts_profile fr) (adts_sampling_frequency_index fr)
        (adts_channel_config_index fr) (Z.of_nat (length fr)) fr.

(** The lines of consecutive frames, numbered from [cnt]. *)
Fixpoint adts_rows_of (cnt : Z) (frames : list (list Z)) : list adts_row :=
  match frames with
  | [] => []
  | fr :: frames' => adts_row_of cnt fr :: adts_rows_of (cnt + 1) frames'
  end.

End AacFrames.

(** ** NAL units in the file *)

Module H264Units.
Import H264.

(** No start code [00 00 01] among the bytes of [l]; the code of four
    bytes ends with it. *)
Definition code_free (l : list Z) : Prop :=
  forall i : nat, firstn 3 (skipn i l) <> [0; 0; 1].

(** No start code that ends after the first [p0] bytes and within the
    first [lim] bytes. *)
Definition no_code_between (p0 lim : nat) (Buf : list Z) : Prop :=
  forall i : nat, (p0 < i + 3)%nat -> (i + 3 <= lim)%nat ->
    firstn 3 (skipn i Buf) <> [0; 0; 1].

(** The lines are numbered from [num], and each one's offset is [off]
    plus the bytes of the units before it, start codes included. *)
Fixpoint laid_out (off num : Z) (rows : list nal_row) : Prop :=
  match rows with
  | [] => True
  | r :: rows' =>
      nal_num r = num /\ data_offset r = off /\
      length (payload (unit r)) = len (unit r) /\
      laid_out (off + Z.of_nat (length (nal_bytes r))) (num + 1) rows'
  end.

(** Four bytes that are not a start code, nor begin with one. *)
Definition not_a_code (g : list Z) : Prop :=
  length g = 4%nat /\ FindStartCode2 g <> 1 /\ FindStartCode3 g <> 1.

(** The lines printed while no unit has been read: the unit is as
    [calloc] left it, and each return of -1 lowers the offset by one. *)
Fixpoint stale_rows (maxsz : Z) (num : Z) (m : nat) : list nal_row :=
  mkNalRow num (- num) 0 (set_prefix (nalu_init maxsz) 3) ::
  match m with
  | O => []
  | S m' => stale_rows maxsz (num + 1) m'
  end.

End H264Units.

(** ** FLV files of audio and video tags *)

Module FlvFiles.
Import Flv.

(** An audio or video tag: its type, its timestamp and its data. *)
Record av_tag : Type := mkAv {
  av_type : Z;
  av_timestamp : Z;
  av_data : list Z
}.

(** The fields fit their three bytes, and the data has at least the
    parameter byte and one byte more. *)
Definition wf_av (t : av_tag) : Prop :=
  (av_type t = TAG_TYPE_AUDIO \/ av_type t = TAG_TYPE_VIDEO) /\
  0 <= av_timestamp t < 16777216 /\
  (2 <= length (av_data t))%nat /\
  Z.of_nat (length (av_data t)) < 16777216.

Definition enc_av (t : av_tag) : list Z :=
  enc_tag (av_type t) (av_timestamp t) (av_data t).

(** The line of the tag table for the tag. *)
Definition tag_row_of (t : av_tag) : tag_row :=
  mkTag (av_type t) (Z.of_nat (length (av_data t))) (av_timestamp t).

(** The twelve bytes the loop reads over [tagheader]: the header of the
    tag and the first byte of its data. *)
Definition header12 (t : av_tag) : list Z := firstn 12 (enc_av t).

(** The file with these tags. *)
Definition flv_of (tags : list av_tag) : list Z :=
  flv_file (map enc_av tags).

(** The number that the bytes spell, the first byte the most
    significant. *)
Definition be_value (p : list Z) : Z :=
  fold_left (fun acc b => acc * 256 + b) p 0.

(** A key of the long [if], as the bytes of its name. *)
Definition listed_key (key : list Z) : Prop :=
  exists name, In name known_keys /\ key = bytes_of name.

(** A key of the chain that prints a Number. *)
Definition listed_number_key (key : list Z) : Prop :=
  exists name, In name number_keys /\ key = bytes_of name.

End FlvFiles.

(** ** RTP packets, as RFC 3550 lays them out *)

Module RtpPackets.
Import Rtp.

(** Every field fits its bits. *)
Definition wf_header (h : RTP_FIXED_HEADER) : Prop :=
  0 <= csrc_len h < 16 /\ 0 <= extension h < 2 /\ 0 <= padding h < 2 /\
  0 <= version h < 4 /\ 0 <= payload h < 128 /\ 0 <= marker h < 2 /\
  0 <= seq_no h < 65536 /\ 0 <= timestamp h < 4294967296 /\
  length (ssrc h) = 4%nat.

(** The twelve bytes of the header on the wire: the version in the two
    high bits of the first byte, the marker in the high bit of the
    second, the sequence number and the timestamp in network order. *)
Definition enc_header (h : RTP_FIXED_HEADER) : list Z :=
  [version h * 64 + padding h * 32 + extension h * 16 + csrc_len h;
   marker h * 128 + payload h;
   seq_no h / 256; seq_no h mod 256;
   timestamp h / 16777216; (timestamp h / 65536) mod 256;
   (timestamp h / 256) mod 256; timestamp h mod 256]
  ++ ssrc h.

(** The payload types for which the line names the encoding. *)
Definition long_text_types : list Z :=
  [0; 3; 4; 5; 6; 7; 8; 9; 10; 11; 12; 13; 14; 15; 16; 17; 18;
   25; 26; 31; 32; 33; 34; 96].

(** The text of the line for the other payload types. *)
Definition short_text (payload : Z) : list Z :=
  if (payload =? 1) || (payload =? 2) then chars "media type:Audio" else [].

End RtpPackets.

(** ** PCM samples

    The functions that work on files of 16-bit little-endian PCM samples.
    [sample] is a block from [malloc], whose bytes before the first read
    are a parameter of the model.  A [short] is read from two bytes in
    the order of the host, the low byte first. *)

Module Pcm.

(** [*(short * )p] for the bytes [lo] and [hi] at [p]. *)
Definition to_short (lo hi : Z) : Z :=
  let v := lo + 256 * hi in
  if v <? 32768 then v else v - 65536.

(** The two bytes of a [short] in memory. *)
Definition short_bytes (v : Z) : list Z := [v mod 256; (v / 256) mod 256].

(** Conversion of an [int] to [char]. *)
Definition to_char (x : Z) : Z := (x + 128) mod 256 - 128.

(** The two bytes of the left and of the right channel of [sample]. *)
Definition left_channel (sample : list Z) : list Z := firstn 2 sample.
Definition right_channel (sample : list Z) : list Z := firstn 2 (skipn 2 sample).

(** The loop of [simplest_pcm16le_split]: the bytes written to
    [output_l.pcm] and to [output_r.pcm]. *)
Fixpoint pcm16le_split_loop (fuel : nat) (fp : FILE) (sample : list Z)
    (fp1 fp2 : list Z) : result (list Z * list Z) :=
  match fuel with
  | O => OutOfFuel
  | S fuel' =>
      if feof fp then Done (fp1, fp2)
      else
        let '(got, fp) := fread fp 4 in
        let sample := memcpy_at sample 0 got in
        pcm16le_split_loop fuel' fp sample
          (fp1 ++ left_channel sample) (fp2 ++ right_channel sample)
  end.

Definition simplest_pcm16le_split (stream sample0 : list Z)
    : result (list Z * list Z) :=
  pcm16le_split_loop (S (S (length stream))) (fopen stream) sample0 [] [].

(** [*samplenum = *samplenum/2] on the first two bytes of [sample]; the
    division of C rounds towards zero. *)
Definition halve_left (sample : list Z) : list Z :=
  let samplenum := to_short (nth 0 sample 0) (nth 1 sample 0) in
  memcpy_at sample 0 (short_bytes (Z.quot samplenum 2)).

(** The loop of [simplest_pcm16le_halfvolumeleft]: the bytes written
    and the count printed. *)
Fixpoint pcm16le_halfvolumeleft_loop (fuel : nat) (fp : FILE)
    (sample : list Z) (fp1 : list Z) (cnt : Z) : result (list Z * Z) :=
  match fuel with
  | O => OutOfFuel
  | S fuel' =>
      if feof fp then Done (fp1, cnt)
      else
        let '(got, fp) := fread fp 4 in
        let sample := memcpy_at sample 0 got in
        let sample := halve_left sample in
        pcm16le_halfvolumeleft_loop fuel' fp sample
          (fp1 ++ left_channel sample ++ right_channel sample) (cnt + 1)
  end.

Definition simplest_pcm16le_halfvolumeleft (stream sample0 : list Z)
    : result (list Z * Z) :=
  pcm16le_halfvolumeleft_loop (S (S (length stream))) (fopen stream)
    sample0 [] 0.

(** The loop of [simplest_pcm16le_doublespeed]. *)
Fixpoint pcm16le_doublespeed_loop (fuel : nat) (fp : FILE)
    (sample : list Z) (fp1 : list Z) (cnt : Z) : result (list Z * Z) :=
  match fuel with
  | O => OutOfFuel
  | S fuel' =>
      if feof fp then Done (fp1, cnt)
      else
        let '(got, fp) := fread fp 4 in
        let sample := memcpy_at sample 0 got in
        let fp1 :=
          if negb (Z.rem cnt 2 =? 0)
          then fp1 ++ left_channel sample ++ right_channel sample else fp1 in
        pcm16le_doublespeed_loop fuel' fp sample fp1 (cnt + 1)
  end.

Definition simplest_pcm16le_doublespeed (stream sample0 : list Z)
    : result (list Z * Z) :=
  pcm16le_doublespeed_loop (S (S (length stream))) (fopen stream)
    sample0 [] 0.

(** [samplenum8 = *samplenum16 >> 8; samplenum8_u = samplenum8 + 128]
    for the [short] of the bytes [lo] and [hi]. *)
Definition pcm8_of (lo hi : Z) : Z :=
  let samplenum8 := to_char (Z.shiftr (to_short lo hi) 8) in
  to_uchar (samplenum8 + 128).

(** The two bytes written for [sample]. *)
Definition pcm8_pair (sample : list Z) : list Z :=
  [pcm8_of (nth 0 sample 0) (nth 1 sample 0);
   pcm8_of (nth 2 sample 0) (nth 3 sample 0)].

(** The loop of [simplest_pcm16le_to_pcm8]. *)
Fixpoint pcm16le_to_pcm8_loop (fuel : nat) (fp : FILE) (sample : list Z)
    (fp1 : list Z) (cnt : Z) : result (list Z * Z) :=
  match fuel with
  | O => OutOfFuel
  | S fuel' =>
      if feof fp then Done (fp1, cnt)
      else
        let '(got, fp) := fread fp 4 in
        let sample := memcpy_at sample 0 got in
        pcm16le_to_pcm8_loop fuel' fp sample (fp1 ++ pcm8_pair sample)
          (cnt + 1)
  end.

Definition simplest_pcm16le_to_pcm8 (stream sample0 : list Z)
    : result (list Z * Z) :=
  pcm16le_to_pcm8_loop (S (S (length stream))) (fopen stream) sample0 [] 0.

(** [cnt>start_num && cnt<=(start_num + dur_num)]: the sum of the two
    [int]s is taken only where the first test holds. *)
Definition in_cut (start_num dur_num cnt : Z) : result bool :=
  if start_num <? cnt then
    last <- int_add start_num dur_num ;;
    Done (cnt <=? last)
  else Done false.

(** The loop of [simplest_pcm16le_cut_singlechannel], with a [sample] of
    two bytes: the bytes written to [output_cut.pcm].  The text file of
    the values is left out. *)
Fixpoint pcm16le_cut_loop (fuel : nat) (fp : FILE) (sample : list Z)
    (start_num dur_num : Z) (fp1 : list Z) (cnt : Z) : result (list Z) :=
  match fuel with
  | O => OutOfFuel
  | S fuel' =>
      if feof fp then Done fp1
      else
        let '(got, fp) := fread fp 2 in
        let sample := memcpy_at sample 0 got in
        cut <- in_cut start_num dur_num cnt ;;
        let fp1 := if cut then fp1 ++ firstn 2 sample else fp1 in
        pcm16le_cut_loop fuel' fp sample start_num dur_num fp1 (cnt + 1)
  end.

Definition simplest_pcm16le_cut_singlechannel (stream sample0 : list Z)
    (start_num dur_num : Z) : result (list Z) :=
  pcm16le_cut_loop (S (S (length stream))) (fopen stream) sample0
    start_num dur_num [] 0.

(** *** The WAVE file *)

(** A stream open for writing: its bytes and its position.  A write past
    the end fills the gap with zeros. *)
Record ostream : Type := mkOut {
  o_data : list Z;
  o_pos : nat
}.

Definition o_write (o : ostream) (bytes : list Z) : ostream :=
  let data := o_data o ++ repeat 0 (o_pos o - length (o_data o)) in
  mkOut (firstn (o_pos o) data ++ bytes
         ++ skipn (o_pos o + length bytes) data)
        (o_pos o + length bytes).

Definition o_seek_set (o : ostream) (off : Z) : ostream :=
  if off <? 0 then o else mkOut (o_data o) (Z.to_nat off).

Definition o_seek_cur (o : ostream) (off : Z) : ostream :=
  let p := Z.of_nat (o_pos o) + off in
  if p <? 0 then o else mkOut (o_data o) (Z.to_nat p).

(** An [unsigned int] and an [unsigned short] in memory. *)
Definition le32 (v : Z) : list Z :=
  [v mod 256; (v / 256) mod 256; (v / 65536) mod 256;
   (v / 16777216) mod 256].

Definition le16 (v : Z) : list Z := [v mod 256; (v / 256) mod 256].

Definition to_uint (v : Z) : Z := v mod 4294967296.
Definition to_ushort (v : Z) : Z := v mod 65536.

(** The three structs, without padding: 12, 24 and 8 bytes. *)
Definition WAVE_HEADER (ChunkSize : Z) : list Z :=
  Flv.bytes_of "RIFF"%string ++ le32 ChunkSize ++ Flv.bytes_of "WAVE"%string.

Definition WAVE_FMT (Subchunk1Size AudioFormat NumChannels SampleRate
    ByteRate BlockAlign BitsPerSample : Z) : list Z :=
  Flv.bytes_of "fmt "%string ++ le32 Subchunk1Size ++ le16 AudioFormat
  ++ le16 NumChannels ++ le32 SampleRate ++ le32 ByteRate
  ++ le16 BlockAlign ++ le16 BitsPerSample.

Definition WAVE_DATA (Subchunk2Size : Z) : list Z :=
  Flv.bytes_of "data"%string ++ le32 Subchunk2Size.

Definition SIZEOF_WAVE_HEADER : Z := 12.
Definition SIZEOF_WAVE_FMT : Z := 24.
Definition SIZEOF_WAVE_DATA : Z := 8.

(** The [while(!feof(fp))] loop that copies the samples. *)
Fixpoint wave_copy (fuel : nat) (fp : FILE) (m_pcmData : list Z)
    (Subchunk2Size : Z) (fpout : ostream) : result (Z * ostream) :=
  match fuel with
  | O => OutOfFuel
  | S fuel' =>
      if feof fp then Done (Subchunk2Size, fpout)
      else
        let Subchunk2Size := to_uint (Subchunk2Size + 2) in
        let fpout := o_write fpout (firstn 2 m_pcmData) in
        let '(got, fp) := fread fp 2 in
        let m_pcmData := memcpy_at m_pcmData 0 got in
        wave_copy fuel' fp m_pcmData Subchunk2Size fpout
  end.

(** [simplest_pcm16le_to_wave] on a PCM file of bytes [stream]: the
    bytes of the WAVE file.  [m0] is [m_pcmData] before the first
    read. *)
Definition simplest_pcm16le_to_wave (stream : list Z)
    (channels sample_rate : Z) (m0 : list Z) : result (list Z) :=
  let '(channels, sample_rate) :=
    if (channels =? 0) || (sample_rate =? 0) then (2, 44100)
    else (channels, sample_rate) in
  let bits := 16 in
  let fp := fopen stream in
  let fpout := mkOut [] 0 in
  let fpout := o_seek_set fpout SIZEOF_WAVE_HEADER in
  let SampleRate := to_uint sample_rate in
  let NumChannels := to_ushort channels in
  let BitsPerSample := to_ushort bits in
  let ByteRate :=
    to_uint (to_uint (SampleRate * NumChannels) * BitsPerSample) / 8 in
  let Subchunk1Size := 16 in
  let BlockAlign := to_ushort (NumChannels * BitsPerSample / 8) in
  let AudioFormat := 1 in
  let fpout :=
    o_write fpout
      (WAVE_FMT Subchunk1Size AudioFormat NumChannels SampleRate ByteRate
         BlockAlign BitsPerSample) in
  let fpout := o_seek_cur fpout SIZEOF_WAVE_DATA in
  let '(got, fp) := fread fp 2 in
  let m_pcmData := memcpy_at m0 0 got in
  '(Subchunk2Size, fpout) <-
    wave_copy (S (S (length stream))) fp m_pcmData 0 fpout ;;
  let ChunkSize := to_uint (36 + Subchunk2Size) in
  let fpout := o_seek_set fpout 0 in
  let fpout := o_write fpout (WAVE_HEADER ChunkSize) in
  let fpout := o_seek_cur fpout SIZEOF_WAVE_FMT in
  let fpout := o_write fpout (WAVE_DATA Subchunk2Size) in
  Done (o_data fpout).

End Pcm.

(** ** PCM files, sample by sample *)

Module PcmSamples.

(** The elements of [l] at every other place, from the first one on if
    [take] is set and from the second one on if not. *)
Fixpoint every_other {A : Type} (take : bool) (l : list A) : list A :=
  match l with
  | [] => []
  | x :: l' => (if take then [x] else []) ++ every_other (negb take) l'
  end.

(** What the last turn of a [while(!feof(fp))] loop finds in [sample]:
    the bytes left in the file over the sample before, or over the block
    as [malloc] gave it. *)
Definition last_read (samples : list (list Z)) (tail sample0 : list Z)
    : list Z :=
  memcpy_at (last samples sample0) 0 tail.

(** The 44 bytes before the samples of a WAVE file of 16-bit PCM. *)
Definition wave_header44 (channels sample_rate data_size : Z) : list Z :=
  Pcm.WAVE_HEADER (36 + data_size)
  ++ Pcm.WAVE_FMT 16 1 channels sample_rate (sample_rate * channels * 2)
       (channels * 2) 16
  ++ Pcm.WAVE_DATA data_size.

End PcmSamples.

(** ** YUV pictures

    A block from [malloc] is the list of its bytes; what it holds before
    the first store is a parameter of the model.  A load or a store
    outside the block is a [Fault].  The [int] arithmetic is that of
    [Z]: the products of the sizes are taken to fit an [int].  The
    division of C is [Z.quot]. *)

Module Pixel.

Definition in_block (mem : list Z) (i : Z) : bool :=
  (0 <=? i) && (i <? Z.of_nat (length mem)).

(** [mem[i]]. *)
Definition load (mem : list Z) (i : Z) : result Z :=
  if in_block mem i then Done (nth (Z.to_nat i) mem 0) else Fault.

(** [mem[i] = v]. *)
Definition store (mem : list Z) (i : Z) (v : Z) : result (list Z) :=
  if in_block mem i
  then Done (firstn (Z.to_nat i) mem ++ v :: skipn (S (Z.to_nat i)) mem)
  else Fault.

(** [fwrite(mem + off, 1, n, fp)]: the bytes written. *)
Definition fwrite_block (mem : list Z) (off n : Z) : result (list Z) :=
  if (0 <=? off) && (0 <=? n) && (off + n <=? Z.of_nat (length mem))
  then Done (firstn (Z.to_nat n) (skipn (Z.to_nat off) mem))
  else Fault.

(** [memset(mem + off, v, n)]. *)
Definition memset (mem : list Z) (off v n : Z) : result (list Z) :=
  if (0 <=? off) && (0 <=? n) && (off + n <=? Z.of_nat (length mem))
  then Done (firstn (Z.to_nat off) mem ++ repeat v (Z.to_nat n)
             ++ skipn (Z.to_nat (off + n)) mem)
  else Fault.

(** *** [YUV420PClockRot180] *)

(** [n] turns of [*(dest + k--) = *(src + i)] with [i++]. *)
Fixpoint rev_copy (n : nat) (dest src : list Z) (k i : Z)
    : result (list Z) :=
  match n with
  | O => Done dest
  | S n' =>
      v <- load src i ;;
      dest <- store dest k v ;;
      rev_copy n' dest src (k - 1) (i + 1)
  end.

(** The three [fwrite] calls that end both rotations. *)
Definition fwrite_planes (dest : list Z) (w h : Z) : result (list Z) :=
  y <- fwrite_block dest 0 (w * h) ;;
  u <- fwrite_block dest (w * h) (Z.quot (w * h) 4) ;;
  v <- fwrite_block dest (Z.quot (w * h * 5) 4) (Z.quot (w * h) 4) ;;
  Done (y ++ u ++ v).

(** [YUV420PClockRot180(dest, src, w, h, fp)]: the block [dest]
    afterwards and the bytes written to [fp]. *)
Definition YUV420PClockRot180 (dest src : list Z) (w h : Z)
    : result (list Z * list Z) :=
  dest <- rev_copy (Z.to_nat (w * h - 0)) dest src (w * h - 1) 0 ;;
  dest <- rev_copy (Z.to_nat (Z.quot (w * h * 5) 4 - w * h)) dest src
            (Z.quot (w * h * 5) 4 - 1) (w * h) ;;
  dest <- rev_copy (Z.to_nat (Z.quot (w * h * 3) 2 - Z.quot (w * h * 5) 4))
            dest src (Z.quot (w * h * 3) 2 - 1) (Z.quot (w * h * 5) 4) ;;
  out <- fwrite_planes dest w h ;;
  Done (dest, out).

(** *** [YUV420PClockRot90] *)

(** [for(j = n-1; j >= 0; j--) dest[k++] = src[idx j]]. *)
Fixpoint rot90_column (n : nat) (dest src : list Z) (k : Z)
    (idx : Z -> Z) : result (list Z * Z) :=
  match n with
  | O => Done (dest, k)
  | S n' =>
      v <- load src (idx (Z.of_nat n')) ;;
      dest <- store dest k v ;;
      rot90_column n' dest src (k + 1) idx
  end.

(** [cols] turns of the loop over [i], each with the loop over [j] that
    runs from [rows - 1] down. *)
Fixpoint rot90_plane (cols rows : nat) (dest src : list Z) (k i : Z)
    (idx : Z -> Z -> Z) : result (list Z * Z) :=
  match cols with
  | O => Done (dest, k)
  | S cols' =>
      '(dest, k) <- rot90_column rows dest src k (fun j => idx j i) ;;
      rot90_plane cols' rows dest src k (i + 1) idx
  end.

(** [YUV420PClockRot90(dest, src, w, h, fp)].  [j*w/2] is [(j*w)/2]. *)
Definition YUV420PClockRot90 (dest src : list Z) (w h : Z)
    : result (list Z * list Z) :=
  '(dest, k) <-
    rot90_plane (Z.to_nat w) (Z.to_nat h) dest src 0 0
      (fun j i => j * w + i) ;;
  let nPos := w * h in
  '(dest, k) <-
    rot90_plane (Z.to_nat (Z.quot w 2)) (Z.to_nat (Z.quot h 2)) dest src k 0
      (fun j i => nPos + Z.quot (j * w) 2 + i) ;;
  let nPos := Z.quot (w * h * 5) 4 in
  '(dest, k) <-
    rot90_plane (Z.to_nat (Z.quot w 2)) (Z.to_nat (Z.quot h 2)) dest src k 0
      (fun j i => nPos + Z.quot (j * w) 2 + i) ;;
  out <- fwrite_planes dest w h ;;
  Done (dest, out).

(** *** The loop of [simplest_yuv420_split] *)

(** The bytes written to the files of the planes, of the picture put
    together again and of the two rotations. *)
Record split_out : Type := mkSplit {
  out_y : list Z;
  out_u : list Z;
  out_v : list Z;
  out_yuv : list Z;
  out_rot90 : list Z;
  out_rot180 : list Z
}.


(** *** [simplest_yuv444_split] *)

Fixpoint yuv444_split_loop (num : nat) (w h : Z) (fp : FILE)
    (pic : list Z) (o : split_out) : result split_out :=
  match num with
  | O => Done o
  | S num' =>
      let '(got, fp) := fread fp (Z.to_nat (w * h * 3)) in
      let pic := memcpy_at pic 0 got in
      y <- fwrite_block pic 0 (w * h) ;;
      u <- fwrite_block pic (w * h) (w * h) ;;
      v <- fwrite_block pic (w * h * 2) (w * h) ;;
      yuv444_split_loop num' w h fp pic
        (mkSplit (out_y o ++ y) (out_u o ++ u) (out_v o ++ v)
           (out_yuv o ++ y ++ u ++ v) [] [])
  end.

(** The name of the file put together again, for [char yuv444p[40]]. *)
Definition yuv444p_name (w h : Z) : list Z :=
  chars "out/yuv444p/output_" ++ printf_d w ++ chars "x" ++ printf_d h
  ++ chars "_yuv444p.yuv".

(** [simplest_yuv444_split] on a file of bytes [stream], with the block
    as [malloc] left it. *)
Definition simplest_yuv444_split (stream : list Z) (w h num : Z)
    (pic : list Z) : result split_out :=
  yuv444p <- sprintf 40 (yuv444p_name w h) ;;
  yuv444_split_loop (Z.to_nat num) w h (fopen stream) pic
    (mkSplit [] [] [] [] [] []).

(** *** [simplest_yuv420_gray] *)

Fixpoint yuv420_gray_loop (num : nat) (w h : Z) (fp : FILE)
    (pic : list Z) (fp1 : list Z) : result (list Z) :=
  match num with
  | O => Done fp1
  | S num' =>
      let '(got, fp) := fread fp (Z.to_nat (Z.quot (w * h * 3) 2)) in
      let pic := memcpy_at pic 0 got in
      pic <- memset pic (w * h) 128 (Z.quot (w * h) 2) ;;
      out <- fwrite_block pic 0 (Z.quot (w * h * 3) 2) ;;
      yuv420_gray_loop num' w h fp pic (fp1 ++ out)
  end.

Definition simplest_yuv420_gray (stream : list Z) (w h num : Z)
    (pic : list Z) : result (list Z) :=
  yuv420_gray_loop (Z.to_nat num) w h (fopen stream) pic [].

(** *** [simplest_yuv420_halfy] *)

(** [n] turns of [pic[j] = pic[j]/2] with [j++]. *)
Fixpoint halve_luma (n : nat) (pic : list Z) (j : Z) : result (list Z) :=
  match n with
  | O => Done pic
  | S n' =>
      v <- load pic j ;;
      pic <- store pic j (to_uchar (Z.quot v 2)) ;;
      halve_luma n' pic (j + 1)
  end.

Fixpoint yuv420_halfy_loop (num : nat) (w h : Z) (fp : FILE)
    (pic : list Z) (fp1 : list Z) : result (list Z) :=
  match num with
  | O => Done fp1
  | S num' =>
      let '(got, fp) := fread fp (Z.to_nat (Z.quot (w * h * 3) 2)) in
      let pic := memcpy_at pic 0 got in
      pic <- halve_luma (Z.to_nat (w * h)) pic 0 ;;
      out <- fwrite_block pic 0 (Z.quot (w * h * 3) 2) ;;
      yuv420_halfy_loop num' w h fp pic (fp1 ++ out)
  end.

Definition simplest_yuv420_halfy (stream : list Z) (w h num : Z)
    (pic : list Z) : result (list Z) :=
  yuv420_halfy_loop (Z.to_nat num) w h (fopen stream) pic [].

(** *** [simplest_yuv420_border] *)






End Pixel.

(** ** The planes of a YUV420P picture *)

Module PixelFrames.

(** The Y, U and V planes of a picture of [n] pixels, [n] a multiple of
    4: [n], [n/4] and [n/4] bytes. *)
Definition plane_y (n : nat) (f : list Z) : list Z := firstn n f.
Definition plane_u (n : nat) (f : list Z) : list Z :=
  firstn (n / 4) (skipn n f).
Definition plane_v (n : nat) (f : list Z) : list Z :=
  firstn (n / 4) (skipn (n + n / 4) f).

(** Each plane of the picture, its bytes in reverse order. *)
Definition rot180_frame (n : nat) (f : list Z) : list Z :=
  rev (plane_y n f) ++ rev (plane_u n f) ++ rev (plane_v n f).

(** The pixels [src[idx j i]] column by column, [i] from [i0] on, each
    column from its last line [j = rows - 1] up to its first. *)
Fixpoint column_of (rows : nat) (src : list Z) (idx : Z -> Z) : list Z :=
  match rows with
  | O => []
  | S rows' =>
      nth (Z.to_nat (idx (Z.of_nat rows'))) src 0 :: column_of rows' src idx
  end.

Fixpoint plane_of (cols rows : nat) (src : list Z) (i : Z)
    (idx : Z -> Z -> Z) : list Z :=
  match cols with
  | O => []
  | S cols' =>
      column_of rows src (fun j => idx j i)
      ++ plane_of cols' rows src (i + 1) idx
  end.

(** The picture turned by a quarter, plane by plane: a picture of
    [w] columns and [h] lines gives one of [h] columns and [w] lines. *)
Definition rot90_frame (w h : Z) (src : list Z) : list Z :=
  plane_of (Z.to_nat w) (Z.to_nat h) src 0 (fun j i => j * w + i)
  ++ plane_of (Z.to_nat (Z.quot w 2)) (Z.to_nat (Z.quot h 2)) src 0
       (fun j i => w * h + Z.quot (j * w) 2 + i)
  ++ plane_of (Z.to_nat (Z.quot w 2)) (Z.to_nat (Z.quot h 2)) src 0
       (fun j i => Z.quot (w * h * 5) 4 + Z.quot (j * w) 2 + i).


End PixelFrames.

(** ** RGB pictures *)

Module Rgb.
Import Pixel.

(** [clip_value(x, min_val, max_val)] on [unsigned char]. *)
Definition clip_value (x min_val max_val : Z) : Z :=
  if max_val <? x then max_val
  else if x <? min_val then min_val
  else x.

(** The three assignments of [RGB24_TO_YUV420] for a pixel [r], [g],
    [b]: the cast to [unsigned char] is applied to the shifted sum, and
    the sum with 16 or 128 is stored in an [unsigned char].  The shift of
    a negative [int] keeps the sign. *)
Definition rgb_y (r g b : Z) : Z :=
  to_uchar (to_uchar (Z.shiftr (66 * r + 129 * g + 25 * b + 128) 8) + 16).

Definition rgb_u (r g b : Z) : Z :=
  to_uchar (to_uchar (Z.shiftr (-38 * r - 74 * g + 112 * b + 128) 8) + 128).

Definition rgb_v (r g b : Z) : Z :=
  to_uchar (to_uchar (Z.shiftr (112 * r - 94 * g - 18 * b + 128) 8) + 128).

(** The bytes stored for the pixel: [clip_value(y, 0, 255)] and so on. *)
Definition yuv_of_pixel (r g b : Z) : Z * Z * Z :=
  (clip_value (rgb_y r g b) 0 255,
   clip_value (rgb_u r g b) 0 255,
   clip_value (rgb_v r g b) 0 255).

(** *** [simplest_rgb24_split] *)

(** [n] turns of the loop over [j], which grows by 3: one byte to each
    of the three files. *)
Fixpoint rgb24_split_pixels (n : nat) (pic : list Z) (j : Z)
    (fp1 fp2 fp3 : list Z) : result (list Z * list Z * list Z) :=
  match n with
  | O => Done (fp1, fp2, fp3)
  | S n' =>
      r <- fwrite_block pic j 1 ;;
      g <- fwrite_block pic (j + 1) 1 ;;
      b <- fwrite_block pic (j + 2) 1 ;;
      rgb24_split_pixels n' pic (j + 3) (fp1 ++ r) (fp2 ++ g) (fp3 ++ b)
  end.

Fixpoint rgb24_split_loop (num : nat) (w h : Z) (fp : FILE) (pic : list Z)
    (fp1 fp2 fp3 : list Z) : result (list Z * list Z * list Z) :=
  match num with
  | O => Done (fp1, fp2, fp3)
  | S num' =>
      let '(got, fp) := fread fp (Z.to_nat (w * h * 3)) in
      let pic := memcpy_at pic 0 got in
      '(fp1, fp2, fp3) <-
        rgb24_split_pixels (Z.to_nat ((w * h * 3 + 2) / 3)) pic 0
          fp1 fp2 fp3 ;;
      rgb24_split_loop num' w h fp pic fp1 fp2 fp3
  end.

(** [simplest_rgb24_split]: the bytes of the files of R, G and B. *)
Definition simplest_rgb24_split (stream : list Z) (w h num : Z)
    (pic : list Z) : result (list Z * list Z * list Z) :=
  rgb24_split_loop (Z.to_nat num) w h (fopen stream) pic [] [] [].

(** The three bytes of each pixel, one pixel after the other. *)
Definition interleave (pixels : list (Z * Z * Z)) : list Z :=
  flat_map (fun p => [fst (fst p); snd (fst p); snd p]) pixels.

End Rgb.

(** * Properties *)

(** ** Streams *)

Lemma f_rest_fopen (data : list Z) : f_rest (fopen data) = data.
Proof. reflexivity. Qed.

Lemma f_rest_advance (f : FILE) (n : nat) (e : bool) :
  f_rest (mkFILE (f_data f) (f_pos f + n) e) = skipn n (f_rest f).
Proof.
  unfold f_rest; cbn [f_data f_pos].
  now rewrite skipn_skipn, Nat.add_comm.
Qed.

Lemma firstn_app_exact (a b : list Z) : firstn (length a) (a ++ b) = a.
Proof.
  rewrite firstn_app, firstn_all, Nat.sub_diag. cbn [firstn].
  apply app_nil_r.
Qed.

Lemma skipn_app_exact (a b : list Z) : skipn (length a) (a ++ b) = b.
Proof. rewrite skipn_app, skipn_all, Nat.sub_diag. reflexivity. Qed.

Lemma fread_app (f : FILE) (a b : list Z) :
  f_rest f = a ++ b ->
  fread f (length a)
  = (a, mkFILE (f_data f) (f_pos f + length a) (f_eof f)).
Proof.
  intros H. unfold fread. rewrite H, firstn_app_exact.
  rewrite Nat.ltb_irrefl, orb_false_r. reflexivity.
Qed.

Lemma f_rest_after (f : FILE) (a b : list Z) (e : bool) :
  f_rest f = a ++ b ->
  f_rest (mkFILE (f_data f) (f_pos f + length a) e) = b.
Proof.
  intros H. rewrite f_rest_advance, H. apply skipn_app_exact.
Qed.

Lemma fgetc_cons (f : FILE) (c : Z) (r : list Z) :
  f_rest f = c :: r ->
  fgetc f = (c, mkFILE (f_data f) (S (f_pos f)) (f_eof f)).
Proof. intros H. unfold fgetc. now rewrite H. Qed.

Lemma fgetc_nil (f : FILE) :
  f_rest f = [] -> fgetc f = (-1, mkFILE (f_data f) (f_pos f) true).
Proof. intros H. unfold fgetc. now rewrite H. Qed.

Lemma f_rest_next (f : FILE) (c : Z) (r : list Z) (e : bool) :
  f_rest f = c :: r -> f_rest (mkFILE (f_data f) (S (f_pos f)) e) = r.
Proof.
  intros H. replace (S (f_pos f)) with (f_pos f + 1)%nat by lia.
  now rewrite f_rest_advance, H.
Qed.

Lemma to_uchar_byte (b : Z) : is_byte b -> to_uchar b = b.
Proof. unfold is_byte, to_uchar. intros H. now apply Z.mod_small. Qed.

Lemma nth_is_byte (l : list Z) (i : nat) :
  Forall is_byte l -> is_byte (nth i l 0).
Proof.
  intros H. destruct (Nat.lt_ge_cases i (length l)) as [Hi|Hi].
  - eapply Forall_forall; [exact H|]. now apply nth_In.
  - rewrite nth_overflow by exact Hi. unfold is_byte; lia.
Qed.

Lemma Forall_skipn (P : Z -> Prop) (k : nat) (l : list Z) :
  Forall P l -> Forall P (skipn k l).
Proof.
  intros H. apply Forall_forall. intros x Hx.
  eapply Forall_forall; [exact H|].
  rewrite <- (firstn_skipn k l). apply in_or_app. now right.
Qed.

(** ** ADTS frames *)

Module AacFacts.
Import Aac.

(** A call that returns 0 found the sync word [k] bytes into the window,
    with the whole header and the whole frame inside the window, and
    copied from there. *)
Lemma getADTSframe_frame : forall buffer buf_size data size,
  getADTSframe buffer buf_size = AdtsFrame data size ->
  exists k : nat,
    7 <= buf_size - Z.of_nat k /\
    sync_word (skipn k buffer) = true /\
    size = frame_length (skipn k buffer) /\
    size <= buf_size - Z.of_nat k /\
    data = firstn (Z.to_nat size) (skipn k buffer).
Proof.
  induction buffer as [|b buffer IH]; intros buf_size data size H.
  - cbn [getADTSframe] in H. destruct (buf_size <? 7); discriminate.
  - cbn [getADTSframe] in H.
    destruct (buf_size <? 7) eqn:E7; [discriminate|].
    apply Z.ltb_ge in E7.
    destruct (sync_word (b :: buffer)) eqn:Es.
    + destruct (buf_size <? frame_length (b :: buffer)) eqn:El;
        [discriminate|].
      apply Z.ltb_ge in El. injection H as <- <-.
      exists 0%nat. cbn [skipn]. repeat split; auto; lia.
    + apply IH in H. destruct H as (k & H7 & Hs & Hz & Hl & Hd).
      exists (S k). cbn [skipn]. repeat split; auto; lia.
Qed.

(** A window of fewer than 7 bytes gives -1, and no frame is stored. *)
Lemma getADTSframe_short (buffer : list Z) (buf_size : Z) :
  buf_size < 7 ->
  getADTSframe buffer buf_size = AdtsShort /\
  ret_code (getADTSframe buffer buf_size) = -1.
Proof.
  intros H. apply Z.ltb_lt in H.
  destruct buffer; cbn [getADTSframe]; rewrite H; split; reflexivity.
Qed.

(** A sync word at the start of a window that is shorter than the frame
    gives 1, and no frame is stored. *)
Lemma getADTSframe_more (buffer : list Z) (buf_size : Z) :
  7 <= buf_size -> sync_word buffer = true ->
  buf_size < frame_length buffer ->
  getADTSframe buffer buf_size = AdtsMore /\
  ret_code (getADTSframe buffer buf_size) = 1.
Proof.
  intros H7 Hs Hl. apply Z.ltb_ge in H7. apply Z.ltb_lt in Hl.
  destruct buffer as [|b buffer].
  - discriminate Hs.
  - cbn [getADTSframe]. rewrite H7, Hs, Hl. split; reflexivity.
Qed.

Lemma frame_length_nonneg (buffer : list Z) :
  0 <= nth 4 buffer 0 -> 0 <= frame_length buffer.
Proof.
  intros H. unfold frame_length.
  repeat (apply Z.lor_nonneg; split); try lia.
  - apply Z.shiftl_nonneg, Z.land_nonneg. right; lia.
  - now apply Z.shiftl_nonneg.
  - apply Z.shiftr_nonneg, Z.land_nonneg. right; lia.
Qed.

(** The frame stored has the length decoded from the header at the sync
    position, and starts there: from two bytes on it begins with the
    sync word. *)
Lemma emitted_frame_shape (buffer : list Z) (buf_size : Z)
    (data : list Z) (size : Z) :
  Forall is_byte buffer ->
  buf_size <= Z.of_nat (length buffer) ->
  getADTSframe buffer buf_size = AdtsFrame data size ->
  Z.of_nat (length data) = size /\
  0 <= size /\
  (2 <= size ->
   exists b1 tl, data = 0xff :: b1 :: tl /\ Z.land b1 0xf0 = 0xf0).
Proof.
  intros Hb Hlen H.
  apply getADTSframe_frame in H.
  destruct H as (k & H7 & Hs & Hz & Hl & Hd).
  assert (Hnn : 0 <= size).
  { subst size. apply frame_length_nonneg.
    apply (nth_is_byte (skipn k buffer) 4). now apply Forall_skipn. }
  assert (Hk : Z.of_nat (length (skipn k buffer)) >= size).
  { rewrite length_skipn. lia. }
  split; [|split]; auto.
  - subst data. rewrite length_firstn. lia.
  - intros H2. unfold sync_word in Hs.
    apply andb_prop in Hs. destruct Hs as [H0 H1].
    apply Z.eqb_eq in H0, H1.
    destruct (skipn k buffer) as [|b0 [|b1 tl]] eqn:E.
    + cbn [length] in Hk. lia.
    + cbn [length] in Hk. lia.
    + cbn [nth] in H0, H1. subst b0.
      exists b1, (firstn (Z.to_nat size - 2) tl). split; auto.
      subst data. replace (Z.to_nat size) with (S (S (Z.to_nat size - 2)))
        by lia.
      cbn [firstn]. do 2 f_equal. f_equal. lia.
Qed.

(** How the inner loop is left on -1: nothing is kept, [aacbuffer] and
    [offset] are as before. *)
Lemma aac_inner_short (fuel : nat) (input_data : list Z) (data_size : Z)
    (aacframe : list Z) (cnt : Z) (aacbuffer : list Z) (offset : Z) :
  getADTSframe input_data data_size = AdtsShort ->
  aac_inner (S fuel) input_data data_size aacframe cnt aacbuffer offset
  = Done (mkExit [] aacframe cnt aacbuffer offset).
Proof. intros H. cbn [aac_inner]. now rewrite H. Qed.

(** How it is left on 1: the window is moved to the front of [aacbuffer]
    and [offset] is its length. *)
Lemma aac_inner_more (fuel : nat) (input_data : list Z) (data_size : Z)
    (aacframe : list Z) (cnt : Z) (aacbuffer : list Z) (offset : Z) :
  getADTSframe input_data data_size = AdtsMore ->
  aac_inner (S fuel) input_data data_size aacframe cnt aacbuffer offset
  = Done (mkExit [] aacframe cnt
            (memcpy_at aacbuffer 0 (firstn (Z.to_nat data_size) input_data))
            data_size).
Proof. intros H. cbn [aac_inner]. now rewrite H. Qed.

Lemma aac_outer_eq (fuel : nat) (bufsize : Z) (ifile : FILE)
    (aacframe : list Z) (cnt : Z) (aacbuffer : list Z) (offset : Z) :
  aac_outer (S fuel) bufsize ifile aacframe cnt aacbuffer offset
  = if feof ifile then Done []
    else
      let '(got, ifile') := fread ifile (Z.to_nat (bufsize - offset)) in
      let data_size := Z.of_nat (length got) in
      let aacbuffer' := memcpy_at aacbuffer (Z.to_nat offset) got in
      x <- aac_inner (S (Z.to_nat data_size)) aacbuffer' data_size
             aacframe cnt aacbuffer' offset ;;
      rest <- aac_outer fuel bufsize ifile' (x_aacframe x) (x_cnt x)
                (x_aacbuffer x) (x_offset x) ;;
      Done (x_rows x ++ rest).
Proof. reflexivity. Qed.

(** A stream shorter than the buffer is read by one [fread]: the table
    is that of the inner loop on the whole stream, whatever the size of
    the buffer. *)
Lemma aac_parser_one_read (bufsize : Z) (stream : list Z) :
  Z.of_nat (length stream) < bufsize ->
  aac_parser bufsize stream
  = (x <- aac_inner (S (length stream)) stream (Z.of_nat (length stream))
            [] 0 stream 0 ;;
     Done (x_rows x)).
Proof.
  intros H. unfold aac_parser. rewrite aac_outer_eq.
  change (feof (fopen stream)) with false. cbv iota.
  assert (Hr : fread (fopen stream) (Z.to_nat (bufsize - 0))
               = (stream, mkFILE stream (length stream) true)).
  { unfold fread. rewrite f_rest_fopen, firstn_all2 by lia.
    cbn [fopen f_data f_pos f_eof orb Nat.add].
    replace (length stream <? Z.to_nat (bufsize - 0))%nat with true
      by (symmetry; apply Nat.ltb_lt; lia).
    reflexivity. }
  rewrite Hr. cbv zeta.
  assert (Hm : memcpy_at [] (Z.to_nat 0) stream = stream).
  { unfold memcpy_at. cbn [Z.to_nat firstn app Nat.add].
    rewrite skipn_nil. apply app_nil_r. }
  rewrite Hm, Nat2Z.id.
  destruct (aac_inner _ _ _ _ _ _ _) as [x | |]; cbn [bind]; auto.
  rewrite aac_outer_eq. cbn [feof f_eof bind]. now rewrite app_nil_r.
Qed.

(** So the size of the buffer does not show on a stream that fits. *)
Lemma aac_parser_buffer_size (bufsize bufsize' : Z) (stream : list Z) :
  Z.of_nat (length stream) < bufsize ->
  Z.of_nat (length stream) < bufsize' ->
  aac_parser bufsize stream = aac_parser bufsize' stream.
Proof.
  intros H H'. now rewrite !aac_parser_one_read.
Qed.

(** On a window that holds a header whose length field is 0 the inner
    loop takes an empty frame, does not move, and goes round again. *)
Lemma aac_inner_zero_length : forall fuel aacframe cnt aacbuffer offset,
  aac_inner fuel [0xff; 0xf0; 0; 0; 0; 0; 0] 7 aacframe cnt aacbuffer offset
  = OutOfFuel.
Proof.
  induction fuel as [|fuel IH]; intros aacframe cnt aacbuffer offset.
  - reflexivity.
  - cbn [aac_inner].
    change (getADTSframe [0xff; 0xf0; 0; 0; 0; 0; 0] 7)
      with (AdtsFrame [] 0).
    change (AACFRAME_SIZE <? 0) with false. cbv iota.
    change (Z.to_nat 0) with 0%nat. cbn [skipn].
    change (7 - 0) with 7. rewrite IH. reflexivity.
Qed.

(** C4, the code on the header [FF F0 00 00 00 00 00]: the length decoded
    is 0, below the 7 bytes that a frame length has to include;
    [getADTSframe] returns 0 with a frame of no bytes, and the loop of the
    parser then never ends. *)
Theorem frame_length_below_header :
  frame_length [0xff; 0xf0; 0; 0; 0; 0; 0] = 0 /\
  getADTSframe [0xff; 0xf0; 0; 0; 0; 0; 0] 7 = AdtsFrame [] 0 /\
  forall fuel aacframe cnt aacbuffer offset,
    aac_inner fuel [0xff; 0xf0; 0; 0; 0; 0; 0] 7 aacframe cnt aacbuffer
      offset = OutOfFuel.
Proof.
  split; [reflexivity|]. split; [reflexivity|].
  exact aac_inner_zero_length.
Qed.

(** C10, the code on the header [FF F0 00 00 00 20 00]: the length decoded
    is 1, the parser ends with one frame, and that frame is the single
    byte [FF]: it has no second byte to carry the rest of the sync word. *)
Theorem frame_of_one_byte :
  exists row,
    simplest_aac_parser [0xff; 0xf0; 0; 0; 0; 0x20; 0] = Done [row] /\
    row_size row = 1 /\
    row_frame row = [0xff] /\
    nth_error (row_frame row) 1 = None.
Proof.
  eexists. split; [vm_compute; reflexivity|].
  repeat split.
Qed.

(** C1, the code on [stream_cut_header]: the first [fread] fills the
    buffer, 256 frames are found and three bytes of the next header are
    left; [getADTSframe] returns -1 and the loop is left without keeping
    them.  The last frame is never found, although a buffer that holds
    the stream whole gives all 257 frames. *)
Theorem header_bytes_dropped :
  frame_sizes (simplest_aac_parser stream_cut_header)
  = Done (repeat 4096 255 ++ [4093]) /\
  frame_sizes (aac_parser WHOLE_SIZE stream_cut_header)
  = Done (repeat 4096 255 ++ [4093; 7]).
Proof. split; vm_compute; reflexivity. Qed.

(** C5, the code on [stream_cut_frame]: read through the buffer of
    [1024*1024] bytes the stream gives 256 frames, read whole it gives
    257: the frame cut by the end of the first [fread] is lost. *)
Theorem chunked_run_loses_frame :
  frame_sizes (simplest_aac_parser stream_cut_frame)
  = Done (2048 :: repeat 4096 255) /\
  frame_sizes (aac_parser WHOLE_SIZE stream_cut_frame)
  = Done (2048 :: repeat 4096 256).
Proof. split; vm_compute; reflexivity. Qed.

End AacFacts.

(** ** NAL units *)

Module H264Facts.
Import H264.

Lemma start_code_3 : start_code 3 = [0; 0; 1].
Proof. reflexivity. Qed.

Lemma start_code_4 : start_code 4 = [0; 0; 0; 1].
Proof. reflexivity. Qed.

Lemma FindStartCode3_bit (l : list Z) :
  FindStartCode3 l = 0 \/ FindStartCode3 l = 1.
Proof. unfold FindStartCode3. destruct (_ || _); auto. Qed.

Lemma FindStartCode2_bit (l : list Z) :
  FindStartCode2 l = 0 \/ FindStartCode2 l = 1.
Proof. unfold FindStartCode2. destruct (_ || _); auto. Qed.

Lemma FindStartCode3_found (l : list Z) :
  FindStartCode3 l = 1 ->
  nth 0 l 0 = 0 /\ nth 1 l 0 = 0 /\ nth 2 l 0 = 0 /\ nth 3 l 0 = 1.
Proof.
  unfold FindStartCode3.
  destruct (nth 0 l 0 =? 0) eqn:E0, (nth 1 l 0 =? 0) eqn:E1,
           (nth 2 l 0 =? 0) eqn:E2, (nth 3 l 0 =? 1) eqn:E3;
    cbn; try discriminate.
  apply Z.eqb_eq in E0, E1, E2, E3. auto.
Qed.

Lemma FindStartCode2_found (l : list Z) :
  FindStartCode2 l = 1 ->
  nth 0 l 0 = 0 /\ nth 1 l 0 = 0 /\ nth 2 l 0 = 1.
Proof.
  unfold FindStartCode2.
  destruct (nth 0 l 0 =? 0) eqn:E0, (nth 1 l 0 =? 0) eqn:E1,
           (nth 2 l 0 =? 1) eqn:E2;
    cbn; try discriminate.
  apply Z.eqb_eq in E0, E1, E2. auto.
Qed.

(** A byte other than 1 does not end a start code. *)
Lemma FindStartCode3_last (l : list Z) :
  nth 3 l 0 <> 1 -> FindStartCode3 l = 0.
Proof.
  intros H. destruct (FindStartCode3_bit l) as [E|E]; auto.
  apply FindStartCode3_found in E. tauto.
Qed.

Lemma FindStartCode2_last (l : list Z) :
  nth 2 l 0 <> 1 -> FindStartCode2 l = 0.
Proof.
  intros H. destruct (FindStartCode2_bit l) as [E|E]; auto.
  apply FindStartCode2_found in E. tauto.
Qed.

Lemma list4_nth (l : list Z) :
  length l = 4%nat -> l = [nth 0 l 0; nth 1 l 0; nth 2 l 0; nth 3 l 0].
Proof.
  destruct l as [|a [|b [|c [|d [|e l]]]]]; try discriminate. reflexivity.
Qed.

Lemma list3_nth (l : list Z) :
  length l = 3%nat -> l = [nth 0 l 0; nth 1 l 0; nth 2 l 0].
Proof.
  destruct l as [|a [|b [|c [|d l]]]]; try discriminate. reflexivity.
Qed.

(** The last [k] bytes of [Buf], as the tests read them. *)
Lemma tail4_found (Buf : list Z) :
  (4 <= length Buf)%nat ->
  FindStartCode3 (skipn (length Buf - 4) Buf) = 1 ->
  skipn (length Buf - 4) Buf = start_code 4.
Proof.
  intros Hl H. apply FindStartCode3_found in H.
  destruct H as (H0 & H1 & H2 & H3).
  rewrite (list4_nth (skipn (length Buf - 4) Buf)).
  - now rewrite H0, H1, H2, H3.
  - rewrite length_skipn. lia.
Qed.

Lemma tail3_found (Buf : list Z) :
  (3 <= length Buf)%nat ->
  FindStartCode2 (skipn (length Buf - 3) Buf) = 1 ->
  skipn (length Buf - 3) Buf = start_code 3.
Proof.
  intros Hl H. apply FindStartCode2_found in H.
  destruct H as (H0 & H1 & H2).
  rewrite (list3_nth (skipn (length Buf - 3) Buf)).
  - now rewrite H0, H1, H2.
  - rewrite length_skipn. lia.
Qed.

(** A start code found by the loop lies after the one that opens the
    unit. *)
Lemma codes_apart (Buf : list Z) (prefix k : nat) :
  prefix = 3%nat \/ prefix = 4%nat ->
  k = 3%nat \/ k = 4%nat ->
  firstn prefix Buf = start_code prefix ->
  (S prefix <= length Buf)%nat ->
  skipn (length Buf - k) Buf = start_code k ->
  (prefix + k <= length Buf)%nat.
Proof.
  intros Hp Hk Hfirst Hlen Hlast.
  destruct (Nat.le_gt_cases (prefix + k) (length Buf)) as [|Hlt]; auto.
  exfalso.
  assert (H1 : nth (prefix - 1) Buf 0 = 1).
  { assert (E : nth (prefix - 1) (firstn prefix Buf) 0
                = nth (prefix - 1) (start_code prefix) 0)
      by now rewrite Hfirst.
    rewrite nth_firstn in E.
    replace (prefix - 1 <? prefix)%nat with true in E
      by (symmetry; apply Nat.ltb_lt; lia).
    rewrite E. destruct Hp as [-> | ->]; reflexivity. }
  assert (H0 : nth (prefix - 1) Buf 0
               = nth (prefix - 1 - (length Buf - k)) (start_code k) 0).
  { rewrite <- Hlast, nth_skipn. f_equal. lia. }
  rewrite H1 in H0.
  assert (Hj : (prefix - 1 - (length Buf - k) <= k - 2)%nat) by lia.
  destruct Hk as [-> | ->];
    destruct (prefix - 1 - (length Buf - _))%nat as [|[|[|j]]];
    cbn in H0; try discriminate; lia.
Qed.

Lemma ahead_rest (f0 f : FILE) (n : nat) :
  ahead f0 f n -> f_rest f = skipn n (f_rest f0).
Proof.
  intros [Hd Hp]. unfold f_rest. rewrite Hd, Hp, skipn_skipn.
  f_equal. lia.
Qed.

Lemma firstn_snoc (l : list Z) (n : nat) (c : Z) (r : list Z) :
  skipn n l = c :: r -> firstn (S n) l = firstn n l ++ [c].
Proof.
  revert l. induction n as [|n IH]; intros l H.
  - cbn in H. subst l. reflexivity.
  - destruct l as [|x l]; [discriminate|].
    cbn [skipn] in H.
    change (firstn (S (S n)) (x :: l)) with (x :: firstn (S n) l).
    change (firstn (S n) (x :: l)) with (x :: firstn n l).
    rewrite (IH l H). reflexivity.
Qed.

Lemma skipn_next (l : list Z) (n : nat) (c : Z) (r : list Z) :
  skipn n l = c :: r -> skipn (S n) l = r.
Proof.
  intros H. replace (S n) with (1 + n)%nat by lia.
  now rewrite <- skipn_skipn, H.
Qed.

Lemma skipn_nil_length (l : list Z) (n : nat) :
  (n <= length l)%nat -> skipn n l = [] -> n = length l.
Proof.
  intros Hle H. apply (f_equal (@length Z)) in H.
  rewrite length_skipn in H. cbn in H. lia.
Qed.

(** The loop of [GetAnnexbNALU], entered with [Buf] holding the first
    bytes of the unit [U]: it overruns [Buf], or it reaches the end of
    the file with all of [U] and one more byte in [Buf], or it stops on
    a start code that lies after the opening one. *)
Lemma scan_next_spec (maxsz : Z) (prefix : nat) (f0 : FILE) :
  prefix = 3%nat \/ prefix = 4%nat ->
  Forall is_byte (f_rest f0) ->
  forall fuel Buf f,
    (length (f_rest f) + 2 <= fuel)%nat ->
    f_eof f = false ->
    ahead f0 f (length Buf) ->
    Buf = firstn (length Buf) (f_rest f0) ->
    (prefix <= length Buf)%nat ->
    firstn prefix Buf = start_code prefix ->
    (scan_next fuel maxsz Buf (length Buf) 0 f = Fault /\
     maxsz <= Z.of_nat (length (f_rest f0)))
    \/
    (exists f',
       scan_next fuel maxsz Buf (length Buf) 0 f
       = Done (AtEof (f_rest f0 ++ [255]) (S (length (f_rest f0))) f') /\
       f_eof f' = true /\ ahead f0 f' (length (f_rest f0)))
    \/
    (exists Buf' info3 f',
       scan_next fuel maxsz Buf (length Buf) 0 f
       = Done (Found Buf' (length Buf') info3 f') /\
       f_eof f' = false /\ ahead f0 f' (length Buf') /\
       Buf' = firstn (length Buf') (f_rest f0) /\
       (length Buf' <= length (f_rest f0))%nat /\
       let k := if info3 =? 1 then 4%nat else 3%nat in
       (prefix + k <= length Buf')%nat /\
       skipn (length Buf' - k) Buf' = start_code k).
Proof.
  intros Hp Hbytes.
  induction fuel as [|fuel IH]; intros Buf f Hfuel Heof Hahead HBuf Hpre Hfirst.
  - lia.
  - pose proof (ahead_rest _ _ _ Hahead) as Hrest.
    assert (HlenBuf : (length Buf <= length (f_rest f0))%nat).
    { rewrite HBuf, length_firstn. lia. }
    cbn [scan_next]. unfold feof. rewrite Heof.
    destruct (f_rest f) as [|c r] eqn:Er.
    + (* the end of the file *)
      rewrite (fgetc_nil f Er).
      assert (Hall : length Buf = length (f_rest f0)).
      { symmetry in Hrest. now apply skipn_nil_length. }
      assert (HU : Buf = f_rest f0).
      { rewrite HBuf, Hall. apply firstn_all. }
      destruct (maxsz <=? Z.of_nat (length Buf)) eqn:Emax.
      * left. split; auto. apply Z.leb_le in Emax. lia.
      * right. left.
        change (to_uchar (-1)) with 255.
        rewrite FindStartCode3_last.
        2:{ rewrite nth_skipn.
            replace (S (length Buf) - 4 + 3)%nat with (length Buf) by lia.
            rewrite app_nth2, Nat.sub_diag by lia. cbn. lia. }
        cbn [Z.eqb negb].
        rewrite FindStartCode2_last.
        2:{ rewrite nth_skipn.
            replace (S (length Buf) - 3 + 2)%nat with (length Buf) by lia.
            rewrite app_nth2, Nat.sub_diag by lia. cbn. lia. }
        cbn [Z.eqb orb].
        destruct fuel as [|fuel]; [cbn in Hfuel; lia|].
        cbn [scan_next feof f_eof].
        eexists. rewrite HU at 1. rewrite Hall. split; [reflexivity|].
        split; [reflexivity|].
        destruct Hahead as [Hd Hpos]. split; cbn [f_data f_pos]; auto.
        now rewrite <- Hall.
    + (* one more byte *)
      rewrite (fgetc_cons f c r Er).
      assert (Hc : is_byte c).
      { eapply Forall_forall; [exact Hbytes|].
        rewrite <- (firstn_skipn (length Buf) (f_rest f0)), <- Hrest.
        apply in_or_app. right. now left. }
      rewrite (to_uchar_byte c Hc).
      assert (HBuf1 : Buf ++ [c] = firstn (S (length Buf)) (f_rest f0)).
      { rewrite (firstn_snoc _ _ c r) by now rewrite <- Hrest.
        now rewrite <- HBuf. }
      assert (Hlen1 : length (Buf ++ [c]) = S (length Buf)).
      { rewrite length_app. cbn. lia. }
      assert (Hle1 : (S (length Buf) <= length (f_rest f0))%nat).
      { assert (E : length (skipn (length Buf) (f_rest f0)) = S (length r))
          by now rewrite <- Hrest.
        rewrite length_skipn in E. lia. }
      assert (Hahead1 :
                ahead f0 (mkFILE (f_data f) (S (f_pos f)) (f_eof f))
                  (length (Buf ++ [c]))).
      { destruct Hahead as [Hd Hpos]. split; cbn [f_data f_pos]; auto.
        rewrite Hlen1. lia. }
      assert (Hfirst1 : firstn prefix (Buf ++ [c]) = start_code prefix).
      { rewrite firstn_app.
        replace (prefix - length Buf)%nat with 0%nat by lia.
        cbn [firstn]. now rewrite app_nil_r. }
      destruct (maxsz <=? Z.of_nat (length Buf)) eqn:Emax.
      * left. split; auto. apply Z.leb_le in Emax. lia.
      * rewrite <- Hlen1.
        destruct (FindStartCode3_bit
                    (skipn (length (Buf ++ [c]) - 4) (Buf ++ [c])))
          as [E3|E3]; rewrite E3; cbn [Z.eqb negb].
        -- destruct (FindStartCode2_bit
                       (skipn (length (Buf ++ [c]) - 3) (Buf ++ [c])))
             as [E2|E2]; rewrite E2; cbn [Z.eqb orb].
           ++ (* no start code yet *)
              apply IH; auto.
              ** assert (E : f_rest (mkFILE (f_data f) (S (f_pos f))
                                       (f_eof f)) = r)
                   by now apply (f_rest_next f c r).
                 rewrite E. cbn in Hfuel. lia.
              ** now rewrite Hlen1.
              ** rewrite Hlen1. lia.
           ++ (* 00 00 01 *)
              right. right. exists (Buf ++ [c]), 0, (mkFILE (f_data f) (S (f_pos f)) (f_eof f)).
              split; [reflexivity|].
              split; [exact Heof|]. split; [exact Hahead1|].
              split; [now rewrite Hlen1|]. split; [lia|].
              cbn [Z.eqb].
              assert (Ht : skipn (length (Buf ++ [c]) - 3) (Buf ++ [c])
                           = start_code 3)
                by (apply tail3_found; [lia | exact E2]).
              split; auto.
              apply codes_apart; auto; lia.
        -- (* 00 00 00 01 *)
           cbn [Z.eqb orb]. rewrite orb_true_r.
           right. right. exists (Buf ++ [c]), 1, (mkFILE (f_data f) (S (f_pos f)) (f_eof f)).
           split; [reflexivity|].
           split; [exact Heof|]. split; [exact Hahead1|].
           split; [now rewrite Hlen1|]. split; [lia|].
           cbn [Z.eqb].
           assert (Ht : skipn (length (Buf ++ [c]) - 4) (Buf ++ [c])
                        = start_code 4)
             by (apply tail4_found; [lia | exact E3]).
           split; auto.
           apply codes_apart; auto; lia.
Qed.

Lemma firstn_then_skipn (l : list Z) (a b : nat) :
  firstn a l ++ firstn b (skipn a l) = firstn (a + b) l.
Proof.
  revert l. induction a as [|a IH]; intros l; [reflexivity|].
  destruct l as [|x l].
  - now rewrite skipn_nil, !firstn_nil.
  - change (x :: firstn a l ++ firstn b (skipn a l)
            = x :: firstn (a + b) l).
    now rewrite IH.
Qed.

Lemma payload_store (nalu : NALU_t) (prefix n : nat) (Buf : list Z) :
  (prefix + n <= length Buf)%nat ->
  payload (store_nalu nalu prefix Buf n) = firstn n (skipn prefix Buf).
Proof.
  intros H. unfold payload, store_nalu; cbn [len buf].
  unfold memcpy_at. cbn [firstn app].
  assert (E : length (firstn n (skipn prefix Buf)) = n)
    by (rewrite length_firstn, length_skipn; lia).
  set (src := firstn n (skipn prefix Buf)) in *.
  rewrite <- E at 1. apply firstn_app_exact.
Qed.

Lemma unit_bytes_store (nalu : NALU_t) (prefix n : nat) (Buf : list Z) :
  firstn prefix Buf = start_code prefix ->
  (prefix + n <= length Buf)%nat ->
  unit_bytes (store_nalu nalu prefix Buf n) = firstn (prefix + n) Buf.
Proof.
  intros Hf Hl. unfold unit_bytes. rewrite payload_store by exact Hl.
  cbn [store_nalu startcodeprefix_len]. rewrite <- Hf.
  apply firstn_then_skipn.
Qed.

Lemma length_start_code (k : nat) :
  k = 3%nat \/ k = 4%nat -> length (start_code k) = k.
Proof. intros [-> | ->]; reflexivity. Qed.

Lemma valid_start_code (k : nat) (tl : list Z) :
  k = 3%nat \/ k = 4%nat -> valid_annexb (start_code k ++ tl).
Proof.
  intros [-> | ->]; [left | right]; exists tl; reflexivity.
Qed.

Lemma next_start_code_spec (nalu : NALU_t) (prefix : nat) (f0 f : FILE) :
  prefix = 3%nat \/ prefix = 4%nat ->
  Forall is_byte (f_rest f0) ->
  f_eof f = false ->
  ahead f0 f prefix ->
  firstn prefix (f_rest f0) = start_code prefix ->
  (prefix <= length (f_rest f0))%nat ->
  unit_read f0 (max_size nalu)
    (next_start_code nalu prefix (start_code prefix) f).
Proof.
  intros Hp Hbytes Heof Hahead Hfirst Hlen.
  pose proof (length_start_code prefix Hp) as Hsc.
  unfold next_start_code.
  assert (Hself : firstn prefix (start_code prefix) = start_code prefix)
    by (destruct Hp as [-> | ->]; reflexivity).
  pose proof (scan_next_spec (max_size nalu) prefix f0 Hp Hbytes
                (S (S (length (f_rest f)))) (start_code prefix) f) as Hscan.
  rewrite Hsc in Hscan.
  specialize (Hscan ltac:(lia) Heof Hahead (eq_sym Hfirst) ltac:(lia) Hself).
  destruct Hscan as [[E Hmax] | [(f' & E & Heof' & Hahead') |
                     (Buf' & info3 & f' & E & Heof' & Hahead' & HBuf' & Hle'
                      & Hk)]].
  - (* the buffer overrun *)
    left. rewrite E. split; auto.
  - (* the end of the file *)
    right. rewrite E. cbn [bind].
    set (U := f_rest f0) in *.
    replace (Z.of_nat (S (length U)) - 1 - Z.of_nat prefix <? 0) with false
      by (symmetry; apply Z.ltb_ge; lia).
    replace (Z.to_nat (Z.of_nat (S (length U)) - 1 - Z.of_nat prefix))
      with (S (length U) - 1 - prefix)%nat by lia.
    assert (HfU : firstn prefix (U ++ [255]) = start_code prefix).
    { rewrite firstn_app.
      replace (prefix - length U)%nat with 0%nat by lia.
      cbn [firstn]. now rewrite app_nil_r. }
    assert (Hub : unit_bytes
                    (store_nalu nalu prefix (U ++ [255])
                       (S (length U) - 1 - prefix)) = U).
    { rewrite unit_bytes_store; auto.
      - replace (prefix + (S (length U) - 1 - prefix))%nat
          with (length U) by lia.
        apply firstn_app_exact.
      - rewrite length_app. cbn. lia. }
    do 3 eexists. split; [reflexivity|].
    split; [reflexivity|].
    split; [apply Hahead'|].
    assert (Hr : f_rest f' = []).
    { rewrite (ahead_rest _ _ _ Hahead'). apply skipn_all. }
    split; [now rewrite Hub, Hr, app_nil_r|].
    split; [rewrite Hub; fold U in Hlen; lia|].
    left. auto.
  - (* the next start code *)
    right. rewrite E. cbn [bind].
    set (U := f_rest f0) in *.
    set (k := if info3 =? 1 then 4%nat else 3%nat) in *.
    assert (Hkk : k = 3%nat \/ k = 4%nat)
      by (subst k; destruct (info3 =? 1); auto).
    destruct Hk as [Hgap Htail].
    replace (if info3 =? 1 then -4 else -3) with (- Z.of_nat k)
      by (subst k; destruct (info3 =? 1); reflexivity).
    cbv zeta.
    replace (Z.of_nat (length Buf') + - Z.of_nat k - Z.of_nat prefix <? 0)
      with false by (symmetry; apply Z.ltb_ge; lia).
    replace (Z.to_nat (Z.of_nat (length Buf') + - Z.of_nat k
                       - Z.of_nat prefix))
      with (length Buf' - k - prefix)%nat by lia.
    assert (HfB : firstn prefix Buf' = start_code prefix).
    { rewrite HBuf', firstn_firstn.
      replace (Nat.min prefix (length Buf')) with prefix by lia.
      exact Hfirst. }
    assert (Hub : unit_bytes
                    (store_nalu nalu prefix Buf'
                       (length Buf' - k - prefix))
                  = firstn (length Buf' - k) U).
    { rewrite unit_bytes_store; auto; try lia.
      replace (prefix + (length Buf' - k - prefix))%nat
        with (length Buf' - k)%nat by lia.
      rewrite HBuf' at 2. rewrite firstn_firstn.
      f_equal. lia. }
    assert (Hseek : ahead f0 (fseek_cur f' (- Z.of_nat k))
                      (length Buf' - k)).
    { destruct Hahead' as [Hd Hpos]. unfold fseek_cur.
      replace (Z.of_nat (f_pos f') + - Z.of_nat k <? 0) with false
        by (symmetry; apply Z.ltb_ge; lia).
      split; cbn [f_data f_pos]; auto. lia. }
    assert (Hr : f_rest (fseek_cur f' (- Z.of_nat k))
                 = start_code k ++ skipn (length Buf') U).
    { rewrite (ahead_rest _ _ _ Hseek). fold U.
      rewrite <- (firstn_skipn (length Buf') U) at 1.
      rewrite <- HBuf', skipn_app, Htail.
      replace (length Buf' - k - length Buf')%nat with 0%nat by lia.
      reflexivity. }
    do 3 eexists. split; [reflexivity|].
    split; [reflexivity|].
    split; [apply Hseek|].
    split.
    { rewrite Hub, (ahead_rest _ _ _ Hseek). fold U. symmetry.
      apply firstn_skipn. }
    split.
    { rewrite Hub, length_firstn. lia. }
    right. split.
    + unfold fseek_cur. destruct (_ <? 0); auto.
    + rewrite Hr. now apply valid_start_code.
Qed.

(** A call on a stream that stands at a start code. *)
Lemma GetAnnexbNALU_valid (n : NALU_t) (f : FILE) :
  f_eof f = false ->
  valid_annexb (f_rest f) ->
  Forall is_byte (f_rest f) ->
  unit_read f (max_size n) (GetAnnexbNALU n f).
Proof.
  intros Heof [[tl H] | [tl H]] Hbytes; unfold GetAnnexbNALU.
  - (* 00 00 01 *)
    change 3%nat with (length [0; 0; 1]) at 1.
    rewrite (fread_app f [0; 0; 1] tl H).
    cbn [length Nat.eqb negb FindStartCode2 nth Z.eqb orb].
    change (next_start_code (set_prefix (set_prefix n 3) 3) 3 [0; 0; 1])
      with (next_start_code (set_prefix (set_prefix n 3) 3) 3
              (start_code 3)).
    change (max_size n) with (max_size (set_prefix (set_prefix n 3) 3)).
    apply next_start_code_spec.
    + now left.
    + exact Hbytes.
    + exact Heof.
    + unfold ahead. split; reflexivity.
    + now rewrite H.
    + rewrite H. cbn. lia.
  - (* 00 00 00 01 *)
    change 3%nat with (length [0; 0; 0]) at 1.
    rewrite (fread_app f [0; 0; 0] (1 :: tl) H).
    cbn [length Nat.eqb negb FindStartCode2 nth Z.eqb orb].
    pose (f1 := mkFILE (f_data f) (f_pos f + 3) (f_eof f)).
    assert (H1 : f_rest f1 = [1] ++ tl)
      by (apply (f_rest_after f [0; 0; 0] (1 :: tl)); exact H).
    fold f1. change 1%nat with (length [1]) at 1.
    rewrite (fread_app f1 [1] tl H1).
    cbn [length Nat.eqb negb app FindStartCode3 nth Z.eqb orb f_data f_pos
         f_eof f1].
    change (next_start_code (set_prefix (set_prefix n 3) 4) 4 [0; 0; 0; 1])
      with (next_start_code (set_prefix (set_prefix n 3) 4) 4
              (start_code 4)).
    change (max_size n) with (max_size (set_prefix (set_prefix n 3) 4)).
    apply next_start_code_spec.
    + now right.
    + exact Hbytes.
    + exact Heof.
    + unfold ahead. split; cbn [f_data f_pos]; auto. lia.
    + now rewrite H.
    + rewrite H. cbn. lia.
Qed.

Lemma Forall_app_r (P : Z -> Prop) (a b : list Z) :
  Forall P (a ++ b) -> Forall P b.
Proof. intros H. apply Forall_app in H. tauto. Qed.

(** The loop of the parser from a start code on: it overruns the scan
    buffer, or it ends and its units, start codes included, are the rest
    of the file. *)
Lemma h264_loop_units : forall fuel n f offset num,
  (length (f_rest f) < fuel)%nat ->
  f_eof f = false ->
  valid_annexb (f_rest f) ->
  Forall is_byte (f_rest f) ->
  (h264_loop fuel n f offset num = Fault /\
   max_size n <= Z.of_nat (length (f_rest f)))
  \/
  (exists rows,
     h264_loop fuel n f offset num = Done rows /\
     concat (map nal_bytes rows) = f_rest f).
Proof.
  induction fuel as [|fuel IH]; intros n f offset num Hfuel Heof Hv Hb.
  - lia.
  - cbn [h264_loop]. unfold feof. rewrite Heof.
    destruct (GetAnnexbNALU_valid n f Heof Hv Hb)
      as [[E Hmax] | (ret & n' & f' & E & Hmax & Hd & Hsplit & H3 & Hend)];
      rewrite E; cbn [bind].
    + left. auto.
    + assert (Hlen : length (f_rest f)
                     = (length (unit_bytes n') + length (f_rest f'))%nat)
        by now rewrite Hsplit, length_app.
      destruct Hend as [[Heof' Hnil] | [Heof' Hv']].
      * (* the last unit *)
        right. destruct fuel as [|fuel]; [lia|].
        cbn [h264_loop]. unfold feof. rewrite Heof'. cbn [bind].
        eexists. split; [reflexivity|].
        cbn [map concat]. rewrite app_nil_r.
        rewrite Hsplit, Hnil, app_nil_r. reflexivity.
      * assert (Hb' : Forall is_byte (f_rest f'))
          by (rewrite Hsplit in Hb; now apply Forall_app_r in Hb).
        assert (Hfuel' : (length (f_rest f') < fuel)%nat) by lia.
        destruct (IH n' f' (offset + ret) (num + 1)
                    Hfuel' Heof' Hv' Hb')
          as [[E' Hmax'] | (rows & E' & Hrows)]; rewrite E'; cbn [bind].
        -- left. split; auto. lia.
        -- right. eexists. split; [reflexivity|].
           cbn [map concat]. rewrite Hrows, Hsplit. reflexivity.
Qed.

(** A byte other than 1 never ends the loop: a run of such bytes that
    does not fit in [Buf] overruns it. *)
Lemma scan_next_overrun (maxsz c : Z) :
  is_byte c -> c <> 1 ->
  forall n fuel Buf f,
    (n < fuel)%nat ->
    (3 <= length Buf)%nat ->
    f_eof f = false ->
    f_rest f = repeat c n ->
    maxsz <= Z.of_nat (length Buf + n) ->
    scan_next fuel maxsz Buf (length Buf) 0 f = Fault.
Proof.
  intros Hc Hc1.
  induction n as [|n IH]; intros fuel Buf f Hfuel H3 Heof Hrest Hmax;
    (destruct fuel as [|fuel]; [lia|]);
    cbn [scan_next]; unfold feof; rewrite Heof.
  - rewrite (fgetc_nil f Hrest).
    replace (maxsz <=? Z.of_nat (length Buf)) with true
      by (symmetry; apply Z.leb_le; lia).
    reflexivity.
  - cbn [repeat] in Hrest. rewrite (fgetc_cons f c (repeat c n) Hrest).
    destruct (maxsz <=? Z.of_nat (length Buf)); [reflexivity|].
    rewrite (to_uchar_byte c Hc).
    assert (Hlen1 : length (Buf ++ [c]) = S (length Buf))
      by (rewrite length_app; cbn; lia).
    rewrite FindStartCode3_last.
    2:{ rewrite nth_skipn.
        replace (S (length Buf) - 4 + 3)%nat with (length Buf) by lia.
        rewrite app_nth2, Nat.sub_diag by lia. exact Hc1. }
    cbn [Z.eqb negb].
    rewrite FindStartCode2_last.
    2:{ rewrite nth_skipn.
        replace (S (length Buf) - 3 + 2)%nat with (length Buf) by lia.
        rewrite app_nth2, Nat.sub_diag by lia. exact Hc1. }
    cbn [Z.eqb orb]. rewrite <- Hlen1.
    apply IH; try lia.
    + exact Heof.
    + now apply (f_rest_next f c (repeat c n)).
Qed.

(** A unit of as many bytes as the scan buffer overruns it. *)
Lemma long_unit_faults (maxsz : Z) :
  h264_parser maxsz ([0; 0; 1] ++ repeat 0xAA (Z.to_nat maxsz)) = Fault.
Proof.
  unfold h264_parser.
  set (stream := [0; 0; 1] ++ repeat 0xAA (Z.to_nat maxsz)).
  cbn [h264_loop feof fopen f_eof]. unfold GetAnnexbNALU.
  assert (H : f_rest (fopen stream) = [0; 0; 1] ++ repeat 0xAA (Z.to_nat maxsz))
    by reflexivity.
  change 3%nat with (length [0; 0; 1]) at 1.
  rewrite (fread_app (fopen stream) [0; 0; 1] _ H).
  cbn [length Nat.eqb negb FindStartCode2 nth Z.eqb orb].
  unfold next_start_code.
  set (f1 := mkFILE _ _ _).
  assert (H1 : f_rest f1 = repeat 0xAA (Z.to_nat maxsz))
    by (apply (f_rest_after (fopen stream) [0; 0; 1] _ _ H)).
  change 3%nat with (length [0; 0; 1]) at 1.
  rewrite (scan_next_overrun _ 0xAA) with (n := Z.to_nat maxsz).
  - reflexivity.
  - unfold is_byte. lia.
  - lia.
  - rewrite H1, repeat_length. lia.
  - cbn. lia.
  - reflexivity.
  - exact H1.
  - cbn [length max_size set_prefix nalu_init]. lia.
Qed.

Lemma decoded_init (maxsz : Z) : decoded (nalu_init maxsz).
Proof. unfold decoded. cbn. auto. Qed.

Lemma decoded_store (nalu : NALU_t) (prefix : nat) (Buf : list Z) (n : nat) :
  decoded (store_nalu nalu prefix Buf n).
Proof. unfold decoded, store_nalu. cbn. auto. Qed.

Lemma next_start_code_decoded (nalu : NALU_t) (prefix : nat) (Buf : list Z)
    (f : FILE) (ret : Z) (n' : NALU_t) (f' : FILE) :
  next_start_code nalu prefix Buf f = Done (ret, n', f') -> decoded n'.
Proof.
  unfold next_start_code.
  destruct (scan_next _ _ _ _ _ _) as [[B p g | B p i g] | |];
    cbn [bind]; try discriminate; cbv zeta;
    destruct (_ <? 0); try discriminate;
    intros H; injection H as _ <- _; apply decoded_store.
Qed.

(** The three fields always are the three masks of [buf[0]], after any
    return of [GetAnnexbNALU]. *)
Lemma GetAnnexbNALU_decoded (n : NALU_t) (f : FILE) (ret : Z)
    (n' : NALU_t) (f' : FILE) :
  decoded n -> GetAnnexbNALU n f = Done (ret, n', f') -> decoded n'.
Proof.
  intros Hn. unfold GetAnnexbNALU.
  destruct (fread f 3) as [Buf f1].
  destruct (negb (length Buf =? 3)%nat).
  - intros H. injection H as _ <- _. exact Hn.
  - destruct (negb (FindStartCode2 Buf =? 1)).
    + destruct (fread f1 1) as [b f2].
      destruct (negb (length b =? 1)%nat).
      * intros H. injection H as _ <- _. exact Hn.
      * destruct (negb (FindStartCode3 (Buf ++ b) =? 1)).
        -- intros H. injection H as _ <- _. exact Hn.
        -- apply next_start_code_decoded.
    + apply next_start_code_decoded.
Qed.

Lemma h264_loop_decoded : forall fuel n f offset num rows,
  decoded n ->
  h264_loop fuel n f offset num = Done rows ->
  Forall (fun r => decoded (unit r) /\
                   idc r = Z.shiftr (nal_reference_idc (unit r)) 5) rows.
Proof.
  induction fuel as [|fuel IH]; intros n f offset num rows Hn H.
  - discriminate.
  - cbn [h264_loop] in H. destruct (feof f).
    + injection H as <-. constructor.
    + destruct (GetAnnexbNALU n f) as [[[ret n'] f'] | |] eqn:E;
        cbn [bind] in H; try discriminate.
      pose proof (GetAnnexbNALU_decoded _ _ _ _ _ Hn E) as Hn'.
      destruct (h264_loop fuel n' f' (offset + ret) (num + 1))
        as [rest | |] eqn:E'; cbn [bind] in H; try discriminate.
      injection H as <-. constructor.
      * split; [exact Hn' | reflexivity].
      * eapply IH; eauto.
Qed.

Lemma payload_head (n : NALU_t) (b : Z) (tl : list Z) :
  payload n = b :: tl -> nth 0 (buf n) 0 = b.
Proof.
  unfold payload. destruct (len n), (buf n); cbn; try discriminate.
  intros H. now injection H.
Qed.

(** The loop of [GetAnnexbNALU] ends within the bytes left in the
    file. *)
Lemma scan_next_total (maxsz : Z) :
  forall fuel Buf pos info2 f,
    (length (f_rest f) + 2 <= fuel)%nat ->
    scan_next fuel maxsz Buf pos info2 f <> OutOfFuel.
Proof.
  induction fuel as [|fuel IH]; intros Buf pos info2 f Hfuel; [lia|].
  cbn [scan_next]. destruct (feof f); [discriminate|].
  destruct (f_rest f) as [|c r] eqn:Er.
  - rewrite (fgetc_nil f Er).
    destruct (maxsz <=? Z.of_nat pos); [discriminate|].
    destruct (_ || _); [discriminate|].
    destruct fuel as [|fuel]; [cbn in Hfuel; lia|].
    cbn [scan_next feof f_eof]. discriminate.
  - rewrite (fgetc_cons f c r Er).
    destruct (maxsz <=? Z.of_nat pos); [discriminate|].
    destruct (_ || _); [discriminate|].
    apply IH. rewrite (f_rest_next f c r _ Er). cbn in Hfuel. lia.
Qed.

Lemma next_start_code_total (nalu : NALU_t) (prefix : nat) (Buf : list Z)
    (f : FILE) :
  next_start_code nalu prefix Buf f <> OutOfFuel.
Proof.
  unfold next_start_code.
  pose proof (scan_next_total (max_size nalu) (S (S (length (f_rest f))))
                Buf prefix 0 f ltac:(lia)) as H.
  destruct (scan_next _ _ _ _ _ _) as [[B p g | B p i g] | |];
    cbn [bind]; cbv zeta; try contradiction; try discriminate;
    destruct (_ <? 0); discriminate.
Qed.

Lemma valid_of_code3 (a b c : Z) (tl : list Z) :
  FindStartCode2 [a; b; c] = 1 -> valid_annexb ([a; b; c] ++ tl).
Proof.
  intros H. apply FindStartCode2_found in H. cbn [nth] in H.
  destruct H as (-> & -> & ->). left. now exists tl.
Qed.

Lemma valid_of_code4 (a b c d : Z) (tl : list Z) :
  FindStartCode3 [a; b; c; d] = 1 -> valid_annexb ([a; b; c; d] ++ tl).
Proof.
  intros H. apply FindStartCode3_found in H. cbn [nth] in H.
  destruct H as (-> & -> & -> & ->). right. now exists tl.
Qed.

(** Every call on a stream of bytes that is not at its end overruns the
    scan buffer, or returns with the end-of-file indicator set, or
    returns further in the file. *)
Lemma GetAnnexbNALU_progress (n : NALU_t) (f : FILE) :
  f_eof f = false ->
  Forall is_byte (f_rest f) ->
  GetAnnexbNALU n f = Fault \/
  exists ret n' f',
    GetAnnexbNALU n f = Done (ret, n', f') /\
    f_data f' = f_data f /\
    (f_eof f' = true \/
     (f_eof f' = false /\ (length (f_rest f') < length (f_rest f))%nat)).
Proof.
  intros Heof Hb.
  assert (Hvalid : valid_annexb (f_rest f) ->
                   GetAnnexbNALU n f = Fault \/
                   exists ret n' f',
                     GetAnnexbNALU n f = Done (ret, n', f') /\
                     f_data f' = f_data f /\
                     (f_eof f' = true \/
                      (f_eof f' = false /\
                       (length (f_rest f') < length (f_rest f))%nat))).
  { intros Hv.
    destruct (GetAnnexbNALU_valid n f Heof Hv Hb)
      as [[E _] | (ret & n' & f' & E & _ & Hd & Hsplit & H3 & Hend)].
    - now left.
    - right. exists ret, n', f'. split; [exact E|]. split; [exact Hd|].
      destruct Hend as [[He _] | [He _]]; [now left | right].
      split; [exact He|]. rewrite Hsplit, length_app. lia. }
  destruct (f_rest f) as [|a [|b [|c tl]]] eqn:Er.
  1-3: right; unfold GetAnnexbNALU, fread; rewrite Er;
       cbn [firstn length Nat.eqb negb Nat.ltb Nat.leb];
       do 3 eexists; split; [reflexivity|];
       cbn [f_data f_eof]; split; [reflexivity|]; left;
       apply orb_true_r.
  destruct (FindStartCode2 [a; b; c] =? 1) eqn:E2.
  - apply Hvalid. apply Z.eqb_eq in E2.
    now apply (valid_of_code3 a b c tl).
  - destruct tl as [|d tl].
    + right. unfold GetAnnexbNALU.
      change 3%nat with (length [a; b; c]) at 1.
      rewrite (fread_app f [a; b; c] [] Er).
      cbn [length Nat.eqb negb]. rewrite E2. cbn [negb].
      unfold fread. rewrite (f_rest_after f [a; b; c] [] _ Er).
      cbn [firstn length Nat.eqb negb Nat.ltb Nat.leb].
      do 3 eexists. split; [reflexivity|].
      cbn [f_data f_eof]. split; [reflexivity|]. left. apply orb_true_r.
    + destruct (FindStartCode3 [a; b; c; d] =? 1) eqn:E3.
      * apply Hvalid. apply Z.eqb_eq in E3.
        now apply (valid_of_code4 a b c d tl).
      * right. unfold GetAnnexbNALU.
        change 3%nat with (length [a; b; c]) at 1.
        rewrite (fread_app f [a; b; c] (d :: tl) Er).
        cbn [length Nat.eqb negb]. rewrite E2. cbn [negb].
        set (f1 := mkFILE _ _ _).
        assert (H1 : f_rest f1 = [d] ++ tl)
          by (apply (f_rest_after f [a; b; c] (d :: tl)); exact Er).
        change 1%nat with (length [d]) at 1.
        rewrite (fread_app f1 [d] tl H1).
        cbn [length Nat.eqb negb app]. rewrite E3. cbn [negb].
        do 3 eexists. split; [reflexivity|].
        cbn [f_data f_eof f1]. split; [reflexivity|]. right.
        split; [exact Heof|].
        rewrite (f_rest_after f1 [d] tl _ H1). cbn [length]. lia.
Qed.

Lemma GetAnnexbNALU_total (n : NALU_t) (f : FILE) :
  GetAnnexbNALU n f <> OutOfFuel.
Proof.
  unfold GetAnnexbNALU.
  destruct (fread f 3) as [Buf f1].
  destruct (negb (length Buf =? 3)%nat); [discriminate|].
  destruct (negb (FindStartCode2 Buf =? 1)).
  - destruct (fread f1 1) as [b f2].
    destruct (negb (length b =? 1)%nat); [discriminate|].
    destruct (negb (FindStartCode3 (Buf ++ b) =? 1)); [discriminate|].
    apply next_start_code_total.
  - apply next_start_code_total.
Qed.

(** The loop of the parser ends on every file of bytes. *)
Lemma h264_loop_total : forall fuel n f offset num,
  Forall is_byte (f_data f) ->
  (length (f_rest f) + 1 < fuel)%nat \/ (f_eof f = true /\ (0 < fuel)%nat) ->
  h264_loop fuel n f offset num <> OutOfFuel.
Proof.
  induction fuel as [|fuel IH]; intros n f offset num Hb Hfuel; [lia|].
  cbn [h264_loop]. unfold feof.
  destruct (f_eof f) eqn:Heof; [discriminate|].
  destruct Hfuel as [Hfuel | [Habs _]]; [|discriminate].
  destruct (GetAnnexbNALU_progress n f Heof
              (Forall_skipn _ _ _ Hb))
    as [E | (ret & n' & f' & E & Hd & Hstep)]; rewrite E; cbn [bind].
  - discriminate.
  - assert (Hb' : Forall is_byte (f_data f')) by now rewrite Hd.
    assert (Hnext : h264_loop fuel n' f' (offset + ret) (num + 1)
                    <> OutOfFuel).
    { apply IH; auto. destruct Hstep as [He | [He Hlt]].
      - right. split; auto. lia.
      - left. lia. }
    destruct (h264_loop fuel n' f' (offset + ret) (num + 1));
      cbn [bind]; try discriminate. contradiction.
Qed.

Lemma h264_parser_total (maxsz : Z) (stream : list Z) :
  Forall is_byte stream -> h264_parser maxsz stream <> OutOfFuel.
Proof.
  intros Hb. unfold h264_parser. apply h264_loop_total.
  - exact Hb.
  - left. rewrite f_rest_fopen. lia.
Qed.

(** C2: a unit that does not fit in the scan buffer of 100000 bytes
    overruns it, and the parser gives no units for the stream. *)
Lemma long_unit_overruns :
  valid_annexb stream_long_unit /\
  Forall is_byte stream_long_unit /\
  simplest_h264_parser stream_long_unit = Fault /\
  ~ (exists rows,
       simplest_h264_parser stream_long_unit = Done rows /\
       concat (map nal_bytes rows) = stream_long_unit).
Proof.
  assert (E : simplest_h264_parser stream_long_unit = Fault)
    by apply long_unit_faults.
  split; [left; eexists; reflexivity|].
  split.
  { unfold stream_long_unit. apply Forall_app. split.
    - repeat constructor; unfold is_byte; lia.
    - apply Forall_forall. intros x Hx. apply repeat_spec in Hx.
      subst x. unfold is_byte. lia. }
  split; [exact E|].
  intros (rows & H & _). rewrite E in H. discriminate.
Qed.

(** C2 (amended): for every stream of bytes that begins with a start code
    of 3 or 4 bytes, unless a unit overruns the scan buffer the parser
    ends, and the start codes and payloads of its units, in order, make
    up the stream; no unit overruns the buffer when the stream is shorter
    than its 100000 bytes. *)
Theorem annexb_round_trip (stream : list Z) :
  valid_annexb stream ->
  Forall is_byte stream ->
  (simplest_h264_parser stream <> Fault ->
   exists rows,
     simplest_h264_parser stream = Done rows /\
     concat (map nal_bytes rows) = stream) /\
  (Z.of_nat (length stream) < BUFFERSIZE ->
   simplest_h264_parser stream <> Fault).
Proof.
  intros Hv Hb. unfold simplest_h264_parser, h264_parser.
  destruct (h264_loop_units (S (S (length stream))) (nalu_init BUFFERSIZE)
              (fopen stream) 0 0)
    as [[E Hmax] | (rows & E & Hrows)]; auto.
  - split.
    + intros Hne. contradiction.
    + cbn [max_size nalu_init] in Hmax. rewrite f_rest_fopen in Hmax. lia.
  - split.
    + intros _. exists rows. split; auto.
    + intros _. rewrite E. discriminate.
Qed.

Lemma annexb_round_trip_witness :
  valid_annexb [0; 0; 0; 1; 0x67; 0x42; 0; 0; 1; 0x68] /\
  Forall is_byte [0; 0; 0; 1; 0x67; 0x42; 0; 0; 1; 0x68] /\
  simplest_h264_parser [0; 0; 0; 1; 0x67; 0x42; 0; 0; 1; 0x68] <> Fault /\
  exists rows,
    simplest_h264_parser [0; 0; 0; 1; 0x67; 0x42; 0; 0; 1; 0x68] = Done rows /\
    concat (map nal_bytes rows) = [0; 0; 0; 1; 0x67; 0x42; 0; 0; 1; 0x68].
Proof.
  assert (Hv : valid_annexb [0; 0; 0; 1; 0x67; 0x42; 0; 0; 1; 0x68])
    by (right; eexists; reflexivity).
  assert (Hb : Forall is_byte [0; 0; 0; 1; 0x67; 0x42; 0; 0; 1; 0x68])
    by (repeat constructor; unfold is_byte; lia).
  assert (Hn : simplest_h264_parser [0; 0; 0; 1; 0x67; 0x42; 0; 0; 1; 0x68]
               <> Fault)
    by (vm_compute; discriminate).
  split; [exact Hv|]. split; [exact Hb|]. split; [exact Hn|].
  exact (proj1 (annexb_round_trip _ Hv Hb) Hn).
Defined.

(** C3: on the unit [67], the field [nal_reference_idc] is 96, the byte
    masked with [0x60]; shifted by 5 it would be 3. *)
Lemma reference_idc_not_shifted :
  exists row b tl,
    simplest_h264_parser [0; 0; 1; 0x67] = Done [row] /\
    payload (unit row) = b :: tl /\
    nal_reference_idc (unit row) = 96 /\
    Z.shiftr (Z.land b 0x60) 5 = 3 /\
    nal_reference_idc (unit row) <> Z.shiftr (Z.land b 0x60) 5.
Proof.
  do 3 eexists. split; [vm_compute; reflexivity|].
  split; [reflexivity|]. repeat split. discriminate.
Qed.

(** C3 (amended): on every file of bytes the parser ends, and for every
    unit of its table with a payload that is not empty and first byte
    [b]: [forbidden_bit] is [b & 0x80], so it is set exactly when that is
    not zero; [nal_reference_idc] is [b & 0x60], not shifted, and the
    priority shown by the parser is [nal_reference_idc >> 5], that is
    [(b & 0x60) >> 5]; [nal_unit_type] is [b & 0x1f]. *)
Theorem nal_header_fields (stream : list Z) :
  Forall is_byte stream ->
  simplest_h264_parser stream <> OutOfFuel /\
  forall (rows : list nal_row) (row : nal_row) (b : Z) (tl : list Z),
    simplest_h264_parser stream = Done rows ->
    In row rows ->
    payload (unit row) = b :: tl ->
    forbidden_bit (unit row) = Z.land b 0x80 /\
    (forbidden_bit (unit row) <> 0 <-> Z.land b 0x80 <> 0) /\
    nal_reference_idc (unit row) = Z.land b 0x60 /\
    idc row = Z.shiftr (Z.land b 0x60) 5 /\
    nal_unit_type (unit row) = Z.land b 0x1f.
Proof.
  intros Hb. split; [now apply h264_parser_total|].
  intros rows row b tl Hrun Hin Hpay.
  assert (Hall := h264_loop_decoded _ _ _ _ _ _
                    (decoded_init BUFFERSIZE) Hrun).
  rewrite Forall_forall in Hall. destruct (Hall row Hin) as [Hd Hidc].
  destruct Hd as (Hf & Hr & Ht).
  rewrite (payload_head _ _ _ Hpay) in Hf, Hr, Ht.
  rewrite Hidc, Hf, Hr, Ht. repeat split; auto.
Qed.

Lemma nal_header_fields_witness :
  Forall is_byte [0; 0; 1; 0x67; 0x42] /\
  simplest_h264_parser [0; 0; 1; 0x67; 0x42] = Done [sps_row] /\
  In sps_row [sps_row] /\
  payload (unit sps_row) = [0x67; 0x42] /\
  forbidden_bit (unit sps_row) = Z.land 0x67 0x80 /\
  (forbidden_bit (unit sps_row) <> 0 <-> Z.land 0x67 0x80 <> 0) /\
  nal_reference_idc (unit sps_row) = Z.land 0x67 0x60 /\
  idc sps_row = Z.shiftr (Z.land 0x67 0x60) 5 /\
  nal_unit_type (unit sps_row) = Z.land 0x67 0x1f.
Proof.
  assert (Hb : Forall is_byte [0; 0; 1; 0x67; 0x42])
    by (repeat constructor; unfold is_byte; lia).
  assert (Hrun : simplest_h264_parser [0; 0; 1; 0x67; 0x42] = Done [sps_row])
    by (vm_compute; reflexivity).
  assert (Hin : In sps_row [sps_row]) by (simpl; left; reflexivity).
  assert (Hp : payload (unit sps_row) = [0x67; 0x42]) by reflexivity.
  split; [exact Hb|]. split; [exact Hrun|]. split; [exact Hin|].
  split; [exact Hp|].
  exact (proj2 (nal_header_fields _ Hb) _ _ _ _ Hrun Hin Hp).
Defined.

End H264Facts.

(** ** RTP datagrams *)

Module RtpFacts.
Import Rtp.

Lemma memcpy_at_start (mem src : list Z) :
  memcpy_at mem 0 src = src ++ skipn (length src) mem.
Proof. reflexivity. Qed.

Lemma firstn_short (dgram : list Z) :
  (length dgram < 12)%nat -> firstn RECVDATA_SIZE dgram = dgram.
Proof. intros H. apply firstn_all2. unfold RECVDATA_SIZE. lia. Qed.

(** The loop over the payload counts the chunks that [leading_ts]
    keeps. *)
Lemma mpegts_loop_chunks (rtp_data : list Z) (size : Z) :
  0 <= size <= Z.of_nat (length rtp_data) ->
  forall fuel i,
    0 <= i ->
    mpegts_loop fuel rtp_data size i
    = length (take_while ts_sync
                (chunks188 fuel
                   (skipn (Z.to_nat i) (firstn (Z.to_nat size) rtp_data)))).
Proof.
  intros Hsize.
  set (P := firstn (Z.to_nat size) rtp_data).
  assert (HP : length P = Z.to_nat size)
    by (unfold P; rewrite length_firstn; lia).
  induction fuel as [|fuel IH]; intros i Hi; [reflexivity|].
  cbn [mpegts_loop chunks188].
  destruct (i <? size) eqn:Ei.
  - apply Z.ltb_lt in Ei.
    destruct (skipn (Z.to_nat i) P) as [|x l] eqn:E.
    + apply (f_equal (@length Z)) in E. rewrite length_skipn in E.
      cbn in E. lia.
    + assert (Hx : nth (Z.to_nat i) rtp_data 0 = x).
      { assert (E0 : nth 0 (skipn (Z.to_nat i) P) 0 = x) by now rewrite E.
        rewrite nth_skipn, Nat.add_0_r in E0. unfold P in E0.
        rewrite nth_firstn in E0.
        replace (Z.to_nat i <? Z.to_nat size)%nat with true in E0
          by (symmetry; apply Nat.ltb_lt; lia).
        exact E0. }
      rewrite Hx. cbn [take_while].
      assert (Hs : ts_sync (firstn 188 (x :: l)) = (x =? 0x47)).
      { unfold ts_sync. rewrite nth_firstn. reflexivity. }
      rewrite Hs. destruct (x =? 0x47); cbn [negb length]; auto.
      f_equal. rewrite IH by lia. do 3 f_equal.
      rewrite <- E, skipn_skipn. f_equal. lia.
  - apply Z.ltb_ge in Ei.
    rewrite skipn_all2 by lia. reflexivity.
Qed.

Lemma rtp_payload_bytes (got rest : list Z) :
  firstn (length got - 12) (skipn 12 (got ++ rest)) = skipn 12 got.
Proof.
  destruct (Nat.le_gt_cases 12 (length got)) as [H|H].
  - rewrite firstn_skipn_comm.
    replace (12 + (length got - 12))%nat with (length got) by lia.
    now rewrite firstn_app_exact.
  - replace (length got - 12)%nat with 0%nat by lia.
    rewrite (skipn_all2 got) by lia. reflexivity.
Qed.

Lemma mpegts_packets_payload (got rest : list Z) :
  mpegts_packets (skipn 12 (got ++ rest)) (Z.of_nat (length got) - 12)
  = length (leading_ts (skipn 12 got)).
Proof.
  unfold mpegts_packets.
  destruct (Nat.le_gt_cases 12 (length got)) as [H|H].
  - rewrite mpegts_loop_chunks; try lia.
    + change (Z.to_nat 0) with 0%nat. rewrite skipn_0.
      replace (Z.to_nat (Z.of_nat (length got) - 12))
        with (length got - 12)%nat by lia.
      rewrite rtp_payload_bytes.
      unfold leading_ts, chunks. now rewrite length_skipn.
    + rewrite length_skipn, length_app. lia.
  - replace (Z.to_nat (Z.of_nat (length got) - 12)) with 0%nat by lia.
    rewrite (skipn_all2 got) by lia. reflexivity.
Qed.

(** The loop counts a last chunk of fewer than 188 bytes that starts
    with the sync byte. *)
Lemma incomplete_chunk_in_loop :
  mpegts_packets [0x47] 1 = 1%nat /\ leading_complete_ts [0x47] = [].
Proof. split; reflexivity. Qed.

Lemma length_received (recvData got : list Z) :
  length (got ++ skipn (length got) recvData)
  = Nat.max (length got) (length recvData).
Proof. rewrite length_app, length_skipn. lia. Qed.

(** The payload type of a datagram of two bytes or more is that of its
    second byte. *)
Lemma payload_of_received (got rest : list Z) :
  (2 <= length got)%nat ->
  payload (rtp_header_of (got ++ rest)) = Z.land (nth 1 got 0) 0x7f.
Proof.
  intros H. unfold rtp_header_of. cbn [payload].
  now rewrite app_nth1 by lia.
Qed.

Lemma format_payload_in_time (p : Z) : format_payload p <> OutOfFuel.
Proof.
  unfold format_payload, sprintf.
  destruct (payload_text p) as [text|]; [|discriminate].
  destruct (length text <? 50)%nat; discriminate.
Qed.

(** A negative length, taken as a [size_t], is more than [recvData]
    holds. *)
Lemma fwrite_rtp_negative (rtp_data : list Z) (size : Z) :
  (length rtp_data <= RECVDATA_SIZE)%nat ->
  -12 <= size < 0 ->
  fwrite_rtp rtp_data size = Fault.
Proof.
  intros Hlen Hsize. unfold fwrite_rtp.
  change (2 ^ 64) with 18446744073709551616.
  assert (E : size mod 18446744073709551616 = size + 18446744073709551616).
  { symmetry. apply (Z.mod_unique_pos _ _ (-1)); lia. }
  rewrite E. unfold RECVDATA_SIZE in Hlen.
  destruct (Z.leb_spec (size + 18446744073709551616)
              (Z.of_nat (length rtp_data))); [lia | reflexivity].
Qed.

(** A text that does not fit [payload_str] ends the turn. *)
Lemma udp_step_long_text (recvData : list Z) (cnt : Z) (dgram : list Z) :
  (2 <= length dgram)%nat ->
  format_payload (Z.land (nth 1 dgram 0) 0x7f) = Fault ->
  udp_step recvData cnt dgram = Fault.
Proof.
  intros Hlen Htext. unfold udp_step. rewrite memcpy_at_start.
  set (got := firstn RECVDATA_SIZE dgram).
  assert (Hgot : (2 <= length got)%nat).
  { unfold got. rewrite length_firstn. unfold RECVDATA_SIZE. lia. }
  assert (Hnth : nth 1 got 0 = nth 1 dgram 0).
  { unfold got. rewrite nth_firstn.
    destruct (1 <? RECVDATA_SIZE)%nat eqn:E; [reflexivity|].
    apply Nat.ltb_ge in E. unfold RECVDATA_SIZE in E. lia. }
  destruct (Z.ltb_spec 0 (Z.of_nat (length got))); [|lia].
  destruct (length (got ++ skipn (length got) recvData) <? 8)%nat;
    [reflexivity|].
  cbv zeta. rewrite (payload_of_received got _ Hgot), Hnth, Htext.
  reflexivity.
Qed.

(** C6, the code on datagrams of fewer than 12 bytes: none is rejected
    with an error.  A receive of no bytes is passed over in silence.  A
    datagram of 1 to 11 bytes passes the only test, [pktsize > 0]: the
    turn goes on to the header and to [fwrite] with the negative length
    [pktsize - 12], and has no defined outcome. *)
Theorem short_datagram_undefined (recvData : list Z) (cnt : Z)
    (dgram : list Z) :
  (length recvData <= RECVDATA_SIZE)%nat ->
  (length dgram < 12)%nat ->
  (dgram = [] -> udp_step recvData cnt dgram = Done (recvData, cnt, None)) /\
  (dgram <> [] -> udp_step recvData cnt dgram = Fault).
Proof.
  intros Hmem Hlen. split.
  - intros ->. reflexivity.
  - intros Hne. unfold udp_step.
    rewrite (firstn_short dgram Hlen), memcpy_at_start.
    assert (Hpos : 0 < Z.of_nat (length dgram))
      by (destruct dgram; [contradiction | cbn [length]; lia]).
    destruct (Z.ltb_spec 0 (Z.of_nat (length dgram))); [|lia].
    set (mem := dgram ++ skipn (length dgram) recvData).
    destruct (length mem <? 8)%nat; [reflexivity|].
    cbv zeta.
    pose proof (format_payload_in_time (payload (rtp_header_of mem))) as Ht.
    destruct (format_payload (payload (rtp_header_of mem)));
      [|reflexivity | contradiction].
    cbn [bind]. rewrite fwrite_rtp_negative; [reflexivity | |].
    + rewrite length_skipn. unfold mem. rewrite length_received.
      unfold RECVDATA_SIZE in *. lia.
    + unfold rtp_header_size. lia.
Qed.

Lemma short_datagram_undefined_witness :
  (length (repeat 0 20) <= RECVDATA_SIZE)%nat /\
  (length two_bytes < 12)%nat /\
  two_bytes <> [] /\
  udp_step (repeat 0 20) 7 two_bytes = Fault.
Proof.
  assert (Hm : (length (repeat 0 20) <= RECVDATA_SIZE)%nat)
    by (unfold RECVDATA_SIZE; cbn [repeat length]; lia).
  assert (Hl : (length two_bytes < 12)%nat) by (cbn; lia).
  assert (Hn : two_bytes <> []) by discriminate.
  split; [exact Hm|]. split; [exact Hl|]. split; [exact Hn|].
  exact (proj2 (short_datagram_undefined (repeat 0 20) 7 two_bytes Hm Hl) Hn).
Defined.

(** C7, the code on datagrams with payload type 33: the text of the
    line for this type has 51 characters, and [sprintf] stores them and
    the zero byte after them into the 50 bytes of [payload_str].  The
    turn has no defined outcome, whatever the payload holds: the loop
    over the MPEG-TS packets comes after this store. *)
Theorem mpegts_text_overruns (recvData : list Z) (cnt : Z) (dgram : list Z) :
  (2 <= length dgram)%nat ->
  Z.land (nth 1 dgram 0) 0x7f = 33 ->
  payload_text 33 = Some (with_rate "MP2T" "AV" "90khz") /\
  length (with_rate "MP2T" "AV" "90khz") = 51%nat /\
  udp_step recvData cnt dgram = Fault.
Proof.
  intros Hlen Hpt. split; [reflexivity|]. split; [reflexivity|].
  apply udp_step_long_text; [exact Hlen|]. rewrite Hpt. reflexivity.
Qed.

Lemma mpegts_text_overruns_witness :
  (2 <= length one_packet)%nat /\
  Z.land (nth 1 one_packet 0) 0x7f = 33 /\
  length one_packet = 200%nat /\
  nth 12 one_packet 0 = 0x47 /\
  udp_step [] 0 one_packet = Fault.
Proof.
  assert (Hl : (2 <= length one_packet)%nat) by (cbn; lia).
  assert (Hp : Z.land (nth 1 one_packet 0) 0x7f = 33) by reflexivity.
  split; [exact Hl|]. split; [exact Hp|].
  split; [reflexivity|]. split; [reflexivity|].
  exact (proj2 (proj2 (mpegts_text_overruns [] 0 one_packet Hl Hp))).
Defined.

End RtpFacts.

(** ** FLV tags and the script tag *)

Module FlvFacts.
Import Flv.

Lemma fseek_cur_forward (f : FILE) (n : nat) :
  fseek_cur f (Z.of_nat n) = mkFILE (f_data f) (f_pos f + n) false.
Proof.
  unfold fseek_cur.
  replace (Z.of_nat (f_pos f) + Z.of_nat n <? 0) with false
    by (symmetry; apply Z.ltb_ge; lia).
  f_equal. lia.
Qed.

Lemma length_enc_len16 (n : nat) : length (enc_len16 n) = 2%nat.
Proof. reflexivity. Qed.

(** The two bytes of a length, read back. *)
Lemma read_len16_enc (f : FILE) (n : nat) (tl : list Z) :
  f_rest f = enc_len16 n ++ tl ->
  read_len16 f
  = Done (Z.of_nat n, mkFILE (f_data f) (f_pos f + 2) (f_eof f)).
Proof.
  intros H. unfold read_len16.
  change 2%nat with (length (enc_len16 n)) at 1.
  rewrite (fread_app f (enc_len16 n) tl H).
  cbn [length enc_len16 Nat.ltb Nat.leb nth].
  do 2 f_equal.
  pose proof (Z.div_mod (Z.of_nat n) 256). lia.
Qed.

(** The [else] branch, on a stream that stands at a value. *)
Lemma skip_value_enc (f : FILE) (v : amf_value) (tl : list Z) :
  f_rest f = enc_value v ++ tl ->
  wf_value v ->
  exists f',
    skip_value f = Done f' /\
    f_data f' = f_data f /\
    f_pos f' = (f_pos f + 1 + encoded_length v)%nat /\
    f_rest f' = tl.
Proof.
  intros H Hwf. unfold skip_value.
  destruct v as [bits | b | s]; cbn [enc_value encoded_length wf_value] in *.
  - (* Number *)
    rewrite (fgetc_cons f 0 (bits ++ tl) H).
    change (to_uchar 0 =? 0) with true. cbv iota.
    change 8 with (Z.of_nat 8). rewrite fseek_cur_forward.
    cbn [f_data f_pos]. eexists. split; [reflexivity|].
    cbn [f_data f_pos]. split; [reflexivity|]. split; [lia|].
    replace (S (f_pos f) + 8)%nat with (f_pos f + length (0%Z :: bits))%nat
      by (cbn [length]; lia).
    apply (f_rest_after f (0 :: bits) tl). exact H.
  - (* Boolean *)
    rewrite (fgetc_cons f 1 ([b] ++ tl) H).
    change (to_uchar 1 =? 0) with false.
    change (to_uchar 1 =? 1) with true. cbv iota.
    change 1 with (Z.of_nat 1). rewrite fseek_cur_forward.
    cbn [f_data f_pos]. eexists. split; [reflexivity|].
    cbn [f_data f_pos]. split; [reflexivity|]. split; [lia|].
    replace (S (f_pos f) + 1)%nat with (f_pos f + length [1%Z; b])%nat
      by (cbn [length]; lia).
    apply (f_rest_after f [1; b] tl). exact H.
  - (* String *)
    rewrite (fgetc_cons f 2 ((enc_len16 (length s) ++ s) ++ tl) H).
    change (to_uchar 2 =? 0) with false.
    change (to_uchar 2 =? 1) with false.
    change (to_uchar 2 =? 2) with true. cbv iota.
    set (f1 := mkFILE (f_data f) (S (f_pos f)) (f_eof f)).
    assert (H1 : f_rest f1 = enc_len16 (length s) ++ (s ++ tl)).
    { unfold f1.
      rewrite (f_rest_next f 2 ((enc_len16 (length s) ++ s) ++ tl) _ H).
      symmetry. apply app_assoc. }
    rewrite (read_len16_enc f1 (length s) (s ++ tl) H1). cbn [bind].
    rewrite fseek_cur_forward. cbn [f_data f_pos f1].
    eexists. split; [reflexivity|].
    cbn [f_data f_pos]. split; [reflexivity|]. split; [lia|].
    replace (S (f_pos f) + 2 + length s)%nat
      with (f_pos f + length (2%Z :: enc_len16 (length s) ++ s))%nat
      by (cbn [length]; rewrite length_app, length_enc_len16; lia).
    apply (f_rest_after f (2 :: enc_len16 (length s) ++ s) tl). exact H.
Qed.

(** One turn of the loop of the ECMA array on a key outside the list. *)
Lemma ecma_element_unknown (ifh : FILE) (key : list Z) (v : amf_value)
    (tl : list Z) :
  f_rest ifh = enc_pair key v ++ tl ->
  wf_value v ->
  known_key key = false ->
  exists ifh',
    ecma_element ifh = Done ([], ifh') /\
    f_pos ifh' = (f_pos ifh + 2 + length key + 1 + encoded_length v)%nat /\
    f_rest ifh' = tl.
Proof.
  intros H Hwf Hk. unfold ecma_element, enc_pair in *.
  rewrite <- !app_assoc in H.
  rewrite (read_len16_enc ifh (length key) _ H). cbn [bind].
  set (f1 := mkFILE (f_data ifh) (f_pos ifh + 2) (f_eof ifh)).
  assert (H1 : f_rest f1 = key ++ (enc_value v ++ tl)).
  { unfold f1. rewrite <- (length_enc_len16 (length key)).
    apply (f_rest_after ifh _ _ _ H). }
  rewrite Nat2Z.id, (fread_app f1 key _ H1), Hk.
  set (f2 := mkFILE (f_data f1) (f_pos f1 + length key) (f_eof f1)).
  assert (H2 : f_rest f2 = enc_value v ++ tl)
    by (apply (f_rest_after f1 _ _ _ H1)).
  destruct (skip_value_enc f2 v tl H2 Hwf) as (f' & E & Hd & Hp & Hr).
  rewrite E. cbn [bind]. exists f'. split; [reflexivity|].
  split; [|exact Hr].
  rewrite Hp. unfold f2, f1. cbn [f_pos]. lia.
Qed.

(** C9: the key of six bytes [width] and a zero byte is no name of the
    list, yet [strcmp] stops at the zero byte and takes it for [width].
    With a String as its value only the type byte is read: the stream is
    left at the length of the string, not at the next pair, and the
    Number of [height] after it is not reported. *)
Lemma nul_key_string_not_skipped :
  (forall name, In name known_keys -> nul_key <> bytes_of name) /\
  exists ifh',
    ecma_element (fopen nul_key_pairs) = Done ([], ifh') /\
    f_pos ifh' = 9%nat /\
    f_pos ifh'
    <> (2 + length nul_key + 1
        + encoded_length (AmfString (bytes_of "Lavf"%string)))%nat /\
    f_rest ifh'
    = enc_len16 4 ++ bytes_of "Lavf"%string
      ++ enc_pair (bytes_of "height"%string)
           (AmfNumber [64; 126; 0; 0; 0; 0; 0; 0]) /\
    exists ifh'', ecma_array 2 (fopen nul_key_pairs) = Done ([], ifh'').
Proof.
  split.
  - intros name Hin.
    repeat (destruct Hin as [<- | Hin]; [discriminate|]).
    destruct Hin.
  - eexists. split; [vm_compute; reflexivity|].
    split; [reflexivity|]. split; [cbn; lia|]. split; [reflexivity|].
    eexists. vm_compute. reflexivity.
Qed.

(** C9 (amended): in the loop of the ECMA array, a key that [strcmp]
    finds different from every name of the list, its bytes being compared
    up to the first zero byte, and whose value is a Number, a Boolean or
    a String is passed over by exactly the length of its encoding: the
    type byte and 8 bytes, 1 byte, or the 2-byte length and that many
    bytes.  No metadata line is printed, the stream is left at the next
    pair, and the rest of the array is read from there. *)
Theorem unknown_key_skipped (ifh : FILE) (key : list Z) (v : amf_value)
    (tl : list Z) :
  f_rest ifh = enc_pair key v ++ tl ->
  Z.of_nat (length key) < 65536 ->
  wf_value v ->
  known_key key = false ->
  exists ifh',
    ecma_element ifh = Done ([], ifh') /\
    f_pos ifh' = (f_pos ifh + 2 + length key + 1 + encoded_length v)%nat /\
    f_rest ifh' = tl /\
    forall num, ecma_array (S num) ifh = ecma_array num ifh'.
Proof.
  intros H _ Hwf Hk.
  destruct (ecma_element_unknown ifh key v tl H Hwf Hk)
    as (ifh' & E & Hp & Hr).
  exists ifh'. repeat split; auto.
  intros num. cbn [ecma_array]. rewrite E. cbn [bind].
  destruct (ecma_array num ifh') as [[ms f] | |]; reflexivity.
Qed.

Lemma unknown_key_skipped_witness :
  f_rest (fopen script_pairs)
  = enc_pair (bytes_of "encoder"%string) (AmfString (bytes_of "Lavf"%string))
    ++ enc_pair (bytes_of "width"%string) (AmfNumber [64; 148; 0; 0; 0; 0; 0; 0])
  /\
  exists ifh',
    ecma_element (fopen script_pairs) = Done ([], ifh') /\
    f_pos ifh' = (f_pos (fopen script_pairs) + 2
                  + length (bytes_of "encoder"%string) + 1
                  + encoded_length (AmfString (bytes_of "Lavf"%string)))%nat /\
    f_rest ifh'
    = enc_pair (bytes_of "width"%string)
        (AmfNumber [64; 148; 0; 0; 0; 0; 0; 0]) /\
    forall num,
      ecma_array (S num) (fopen script_pairs) = ecma_array num ifh'.
Proof.
  split; [reflexivity|].
  apply (unknown_key_skipped (fopen script_pairs)
           (bytes_of "encoder"%string) (AmfString (bytes_of "Lavf"%string))).
  - reflexivity.
  - simpl. lia.
  - simpl. lia.
  - reflexivity.
Defined.

Lemma fread_at_end (f : FILE) (n : nat) :
  f_rest f = [] ->
  fread f n = ([], mkFILE (f_data f) (f_pos f + 0) (f_eof f || (0 <? n)%nat)).
Proof. intros H. unfold fread. rewrite H, firstn_nil. reflexivity. Qed.

(** A turn of the tag loop that starts when the file has been read to
    its end still prints a line, from the header kept from the tag
    before. *)
Lemma tag_loop_at_end (fuel : nat) (tagheader : list Z) (ifh : FILE)
    (rows : list tag_row) (ms : list meta) :
  length tagheader = SIZEOF_TAG_HEADER ->
  f_rest ifh = [] ->
  tag_loop (S fuel) tagheader ifh = Done (rows, ms) ->
  exists rest,
    rows = mkTag (nth 0 tagheader 0)
             (nth 1 tagheader 0 * 65536 + nth 2 tagheader 0 * 256
              + nth 3 tagheader 0)
             (nth 4 tagheader 0 * 65536 + nth 5 tagheader 0 * 256
              + nth 6 tagheader 0) :: rest.
Proof.
  intros Hlen Hend. cbn [tag_loop].
  rewrite (fread_at_end ifh 4 Hend).
  set (f1 := mkFILE _ _ _).
  assert (H1 : f_rest f1 = []).
  { unfold f1, f_rest. cbn [f_data f_pos]. rewrite Nat.add_0_r. exact Hend. }
  rewrite (fread_at_end f1 SIZEOF_TAG_HEADER H1).
  change (memcpy_at tagheader 0 []) with tagheader.
  rewrite Hlen, Nat.ltb_irrefl.
  set (f2 := fseek_cur _ _). set (row := mkTag _ _ _).
  destruct (feof f2).
  - intros H. injection H as <- _. now exists [].
  - destruct (tag_data _ _ f2) as [[ms1 f3] | |]; cbn [bind];
      try discriminate.
    destruct (negb (feof f3)).
    + destruct (tag_loop fuel tagheader f3) as [[rows' ms'] | |];
        cbn [bind]; try discriminate.
      intros H. injection H as <- _. now exists rows'.
    + intros H. injection H as <- _. now exists [].
Qed.

(** C8, the code on a file of one audio tag, and on a file of a video
    tag and an audio tag: after the last tag the loop reads the last
    previous-tag size, finds no header, and prints the header it still
    holds once more before it tests the end of the file.  The table has
    one line more than the file has tags. *)
Theorem last_tag_printed_twice :
  simplest_flv_parser (flv_file [audio_tag])
  = Done ([mkTag 8 2 0; mkTag 8 2 0], []) /\
  simplest_flv_parser (flv_file [video_tag; audio_tag])
  = Done ([mkTag 9 3 40; mkTag 8 2 0; mkTag 8 2 0], []).
Proof. split; vm_compute; reflexivity. Qed.

End FlvFacts.
(** ** More on streams and lists *)

Lemma fread_exact (f : FILE) (a b : list Z) (n : nat) :
  f_rest f = a ++ b -> length a = n ->
  fread f n = (a, mkFILE (f_data f) (f_pos f + n) (f_eof f)).
Proof. intros H <-. exact (fread_app f a b H). Qed.

Lemma f_rest_exact (f : FILE) (a b : list Z) (n : nat) (e : bool) :
  f_rest f = a ++ b -> length a = n ->
  f_rest (mkFILE (f_data f) (f_pos f + n) e) = b.
Proof. intros H <-. exact (f_rest_after f a b e H). Qed.

(** A read of more bytes than the file has left gets them all and sets
    the end-of-file indicator. *)
Lemma fread_short (f : FILE) (n : nat) :
  (length (f_rest f) < n)%nat ->
  fread f n
  = (f_rest f, mkFILE (f_data f) (f_pos f + length (f_rest f)) true).
Proof.
  intros H. unfold fread. rewrite firstn_all2 by lia.
  replace (length (f_rest f) <? n)%nat with true
    by (symmetry; apply Nat.ltb_lt; exact H).
  now rewrite Bool.orb_true_r.
Qed.

Lemma fseek_cur_at (f : FILE) (off : Z) (p : nat) :
  Z.of_nat (f_pos f) + off = Z.of_nat p ->
  fseek_cur f off = mkFILE (f_data f) p false.
Proof.
  intros H. unfold fseek_cur. rewrite H.
  destruct (Z.ltb_spec (Z.of_nat p) 0); [lia|].
  now rewrite Nat2Z.id.
Qed.

Lemma last_default {A : Type} (l : list A) (x d d' : A) :
  last (x :: l) d = last (x :: l) d'.
Proof.
  revert x. induction l as [|y l IH]; intros x; [reflexivity|].
  change (last (x :: y :: l) d) with (last (y :: l) d).
  change (last (x :: y :: l) d') with (last (y :: l) d').
  apply IH.
Qed.

Lemma last_cons {A : Type} (l : list A) (x d : A) :
  last (x :: l) d = last l x.
Proof.
  destruct l as [|y l]; [reflexivity|].
  change (last (x :: y :: l) d) with (last (y :: l) d).
  apply last_default.
Qed.

Lemma memcpy_at_whole (mem src : list Z) :
  length src = length mem -> memcpy_at mem 0 src = src.
Proof.
  intros H. unfold memcpy_at. cbn [firstn app Nat.add].
  rewrite skipn_all2 by lia. apply app_nil_r.
Qed.

Lemma length_memcpy_at (mem src : list Z) :
  (length src <= length mem)%nat ->
  length (memcpy_at mem 0 src) = length mem.
Proof.
  intros H. unfold memcpy_at. cbn [firstn app Nat.add].
  rewrite length_app, length_skipn. lia.
Qed.

(** ** ADTS streams *)

Module AacStreamFacts.
Import Aac AacFrames.

Lemma no_sync_before_tail (b : Z) (buffer : list Z) (k : nat) :
  no_sync_before (b :: buffer) (S k) -> no_sync_before buffer k.
Proof.
  intros H j Hj. apply (H (S j)). lia.
Qed.

Lemma getADTSframe_skip : forall k buffer buf_size,
  no_sync_before buffer k ->
  (k <= length buffer)%nat ->
  getADTSframe buffer buf_size
  = getADTSframe (skipn k buffer) (buf_size - Z.of_nat k).
Proof.
  induction k as [|k IH]; intros buffer buf_size Hno Hk.
  - cbn [skipn Z.of_nat]. now rewrite Z.sub_0_r.
  - destruct buffer as [|b buffer]; [cbn [length] in Hk; lia|].
    cbn [length] in Hk.
    destruct (Z.ltb_spec buf_size 7) as [Hs | Hs].
    + destruct (AacFacts.getADTSframe_short (b :: buffer) buf_size Hs) as [-> _].
      destruct (AacFacts.getADTSframe_short (skipn (S k) (b :: buffer))
                  (buf_size - Z.of_nat (S k)) ltac:(lia)) as [-> _].
      reflexivity.
    + cbn [getADTSframe skipn].
      destruct (Z.ltb_spec buf_size 7); [lia|].
      pose proof (Hno 0%nat ltac:(lia)) as H0. cbn [skipn] in H0. rewrite H0.
      rewrite (IH buffer (buf_size - 1) (no_sync_before_tail _ _ _ Hno)
                 ltac:(lia)).
      f_equal. lia.
Qed.

Lemma getADTSframe_at_sync (buffer : list Z) (buf_size : Z) :
  7 <= buf_size -> buffer <> [] -> sync_word buffer = true ->
  getADTSframe buffer buf_size
  = if buf_size <? frame_length buffer then AdtsMore
    else AdtsFrame (firstn (Z.to_nat (frame_length buffer)) buffer)
                   (frame_length buffer).
Proof.
  intros Hs Hne Hsync. destruct buffer as [|b buffer]; [congruence|].
  cbn [getADTSframe]. destruct (Z.ltb_spec buf_size 7); [lia|].
  now rewrite Hsync.
Qed.

(** X1.  [getADTSframe] answers for the first sync word of the window: the
    bytes before it are passed over, and the frame's length field alone
    decides between a frame of that many bytes and the call for more
    data. *)
Theorem getADTSframe_first_sync (buffer : list Z) (buf_size : Z) (k : nat) :
  no_sync_before buffer k ->
  sync_word (skipn k buffer) = true ->
  (k < length buffer)%nat ->
  Z.of_nat k + 7 <= buf_size ->
  getADTSframe buffer buf_size
  = if buf_size - Z.of_nat k <? frame_length (skipn k buffer) then AdtsMore
    else AdtsFrame
           (firstn (Z.to_nat (frame_length (skipn k buffer))) (skipn k buffer))
           (frame_length (skipn k buffer)).
Proof.
  intros Hno Hsync Hk Hs.
  rewrite (getADTSframe_skip k buffer buf_size Hno ltac:(lia)).
  apply getADTSframe_at_sync; [lia | | exact Hsync].
  intros Hnil. apply (f_equal (@length Z)) in Hnil.
  rewrite length_skipn in Hnil. cbn [length] in Hnil. lia.
Qed.

Lemma getADTSframe_first_sync_witness :
  no_sync_before [1; 2; 0xff; 0xf1; 0; 0; 1; 0; 0; 9] 2 /\
  getADTSframe [1; 2; 0xff; 0xf1; 0; 0; 1; 0; 0; 9] 10
  = AdtsFrame [0xff; 0xf1; 0; 0; 1; 0; 0; 9] 8.
Proof.
  assert (Hno : no_sync_before [1; 2; 0xff; 0xf1; 0; 0; 1; 0; 0; 9] 2).
  { intros j Hj.
    destruct j as [|[|j]]; [reflexivity | reflexivity | lia]. }
  split; [exact Hno|].
  exact (getADTSframe_first_sync [1; 2; 0xff; 0xf1; 0; 0; 1; 0; 0; 9] 10 2
           Hno eq_refl ltac:(cbn; lia) ltac:(lia)).
Defined.

(** *** Frames laid end to end *)

Lemma nth_app_front (a b : list Z) (i : nat) :
  (i < length a)%nat -> nth i (a ++ b) 0 = nth i a 0.
Proof. intros H. now apply app_nth1. Qed.

Lemma sync_word_app (fr tl : list Z) :
  (2 <= length fr)%nat -> sync_word (fr ++ tl) = sync_word fr.
Proof.
  intros H. unfold sync_word. now rewrite !nth_app_front by lia.
Qed.

Lemma frame_length_app (fr tl : list Z) :
  (6 <= length fr)%nat -> frame_length (fr ++ tl) = frame_length fr.
Proof.
  intros H. unfold frame_length. now rewrite !nth_app_front by lia.
Qed.

Lemma getADTSframe_frame_first (fr tl : list Z) (buf_size : Z) :
  adts_frame fr ->
  Z.of_nat (length fr) <= buf_size ->
  getADTSframe (fr ++ tl) buf_size = AdtsFrame fr (Z.of_nat (length fr)).
Proof.
  intros (Hsync & Hlen & Hrange) Hsz.
  rewrite getADTSframe_at_sync.
  - rewrite frame_length_app, Hlen by lia.
    destruct (Z.ltb_spec buf_size (Z.of_nat (length fr))); [lia|].
    now rewrite Nat2Z.id, firstn_app_exact.
  - lia.
  - destruct fr; [cbn [length] in Hrange; lia | discriminate].
  - rewrite sync_word_app by lia. exact Hsync.
Qed.

Lemma memcpy_frame (aacframe fr : list Z) :
  firstn (length fr) (memcpy_at aacframe 0 fr) = fr.
Proof.
  unfold memcpy_at. cbn [firstn app]. apply firstn_app_exact.
Qed.

Lemma adts_fields_of_copy (aacframe fr : list Z) :
  (4 <= length fr)%nat ->
  adts_profile (memcpy_at aacframe 0 fr) = adts_profile fr /\
  adts_sampling_frequency_index (memcpy_at aacframe 0 fr)
  = adts_sampling_frequency_index fr /\
  adts_channel_config_index (memcpy_at aacframe 0 fr)
  = adts_channel_config_index fr.
Proof.
  intros H. unfold memcpy_at. cbn [firstn app].
  unfold adts_profile, adts_sampling_frequency_index,
    adts_channel_config_index.
  now rewrite !nth_app_front by lia.
Qed.

(** One turn of the inner loop on a window that starts with a frame. *)
Lemma aac_inner_frame (fuel : nat) (fr tl : list Z) (data_size : Z)
    (aacframe : list Z) (cnt : Z) (aacbuffer : list Z) (offset : Z)
    (input_data : list Z) :
  getADTSframe input_data data_size = AdtsFrame fr (Z.of_nat (length fr)) ->
  (4 <= length fr)%nat ->
  Z.of_nat (length fr) <= AACFRAME_SIZE ->
  aac_inner (S fuel) input_data data_size aacframe cnt aacbuffer offset
  = (x <- aac_inner fuel (skipn (length fr) input_data)
            (data_size - Z.of_nat (length fr)) (memcpy_at aacframe 0 fr)
            (cnt + 1) aacbuffer offset ;;
     Done (mkExit (adts_row_of cnt fr :: x_rows x) (x_aacframe x) (x_cnt x)
             (x_aacbuffer x) (x_offset x))).
Proof.
  intros Hget H4 Hmax. cbn [aac_inner]. rewrite Hget.
  destruct (Z.ltb_spec AACFRAME_SIZE (Z.of_nat (length fr))); [lia|].
  rewrite Nat2Z.id, memcpy_frame.
  destruct (adts_fields_of_copy aacframe fr H4) as (-> & -> & ->).
  reflexivity.
Qed.

Lemma aac_inner_frames : forall frames tail fuel aacframe cnt aacbuffer offset,
  Forall adts_frame frames ->
  (length tail < 7)%nat ->
  (length frames < fuel)%nat ->
  exists aacframe',
    aac_inner fuel (concat frames ++ tail)
      (Z.of_nat (length (concat frames ++ tail))) aacframe cnt aacbuffer offset
    = Done (mkExit (adts_rows_of cnt frames) aacframe'
              (cnt + Z.of_nat (length frames)) aacbuffer offset).
Proof.
  induction frames as [|fr frames IH];
    intros tail fuel aacframe cnt aacbuffer offset Hall Htail Hfuel.
  - exists aacframe. cbn [concat app length adts_rows_of Z.of_nat].
    destruct fuel as [|fuel]; [cbn [length] in Hfuel; lia|].
    rewrite AacFacts.aac_inner_short.
    + now rewrite Z.add_0_r.
    + apply AacFacts.getADTSframe_short. lia.
  - inversion Hall as [|? ? Hfr Hrest]; subst.
    destruct fuel as [|fuel]; [cbn [length] in Hfuel; lia|].
    cbn [length] in Hfuel.
    pose proof Hfr as (Hsync & Hlen & Hrange).
    cbn [concat]. rewrite <- app_assoc.
    rewrite (aac_inner_frame fuel fr (concat frames ++ tail)).
    + rewrite skipn_app_exact.
      replace (Z.of_nat (length (fr ++ concat frames ++ tail))
               - Z.of_nat (length fr))
        with (Z.of_nat (length (concat frames ++ tail)))
        by (rewrite (length_app fr); lia).
      destruct (IH tail fuel (memcpy_at aacframe 0 fr) (cnt + 1) aacbuffer
                  offset Hrest Htail ltac:(lia)) as (aacframe' & ->).
      exists aacframe'. cbn [bind x_rows x_aacframe x_cnt x_aacbuffer x_offset
                               adts_rows_of].
      do 2 f_equal. cbn [length]. lia.
    + apply getADTSframe_frame_first; [exact Hfr|].
      rewrite length_app. lia.
    + lia.
    + lia.
Qed.

Lemma adts_frame_length (fr : list Z) : adts_frame fr -> (1 <= length fr)%nat.
Proof. intros (_ & _ & H). lia. Qed.

Lemma length_concat_frames (frames : list (list Z)) :
  Forall adts_frame frames -> (length frames <= length (concat frames))%nat.
Proof.
  induction 1 as [|fr frames Hfr _ IH]; [cbn; lia|].
  cbn [concat length]. rewrite length_app.
  pose proof (adts_frame_length fr Hfr). lia.
Qed.

(** X2.  A file made of frames laid end to end, each with a length field
    equal to its length, followed by fewer than seven bytes, and shorter
    than the buffer: the parser prints one line per frame, in order,
    numbered from 0, with the frame's own bytes and length. *)
Theorem aac_parser_frames (bufsize : Z) (frames : list (list Z))
    (tail : list Z) :
  Forall adts_frame frames ->
  (length tail < 7)%nat ->
  Z.of_nat (length (concat frames ++ tail)) < bufsize ->
  aac_parser bufsize (concat frames ++ tail) = Done (adts_rows_of 0 frames).
Proof.
  intros Hall Htail Hsize.
  rewrite (AacFacts.aac_parser_one_read bufsize _ Hsize).
  set (stream := concat frames ++ tail).
  destruct (aac_inner_frames frames tail (S (length stream))
              [] 0 stream 0 Hall Htail) as (aacframe' & H).
  { unfold stream. rewrite length_app.
    pose proof (length_concat_frames frames Hall). lia. }
  fold stream in H. rewrite H. reflexivity.
Qed.

Lemma aac_parser_frames_witness :
  Forall adts_frame
    [[0xff; 0xf1; 0x50; 0x80; 1; 0; 0xfc; 9];
     [0xff; 0xf1; 0x50; 0x80; 0; 0xe0; 0xfc]] /\
  simplest_aac_parser
    ([0xff; 0xf1; 0x50; 0x80; 1; 0; 0xfc; 9] ++
     [0xff; 0xf1; 0x50; 0x80; 0; 0xe0; 0xfc] ++ [1; 2])
  = Done [adts_row_of 0 [0xff; 0xf1; 0x50; 0x80; 1; 0; 0xfc; 9];
          adts_row_of 1 [0xff; 0xf1; 0x50; 0x80; 0; 0xe0; 0xfc]].
Proof.
  assert (H : Forall adts_frame
                [[0xff; 0xf1; 0x50; 0x80; 1; 0; 0xfc; 9];
                 [0xff; 0xf1; 0x50; 0x80; 0; 0xe0; 0xfc]]).
  { repeat constructor; cbn; try reflexivity; unfold AACFRAME_SIZE; lia. }
  split; [exact H|].
  exact (aac_parser_frames AACBUFFER_SIZE _ [1; 2] H ltac:(cbn; lia)
           ltac:(cbn; unfold AACBUFFER_SIZE; lia)).
Defined.

(** *** Bytes before the first frame *)

Lemma no_sync_in_junk (junk tl : list Z) :
  Forall (fun b => b <> 0xff) junk ->
  no_sync_before (junk ++ tl) (length junk).
Proof.
  intros Hj j Hlt. unfold sync_word.
  replace (nth 0 (skipn j (junk ++ tl)) 0) with (nth j junk 0).
  - assert (Hn : nth j junk 0 <> 0xff).
    { rewrite Forall_forall in Hj. apply Hj. now apply nth_In. }
    apply Z.eqb_neq in Hn. now rewrite Hn.
  - rewrite nth_skipn, Nat.add_0_r. symmetry. now apply app_nth1.
Qed.

Lemma getADTSframe_no_sync : forall buffer buf_size,
  Forall (fun b => b <> 0xff) buffer ->
  getADTSframe buffer buf_size = AdtsShort.
Proof.
  induction buffer as [|b buffer IH]; intros buf_size H.
  - cbn. now destruct (buf_size <? 7).
  - cbn [getADTSframe]. destruct (buf_size <? 7); [reflexivity|].
    inversion H as [|? ? Hb Hrest]; subst.
    unfold sync_word. cbn [nth].
    apply Z.eqb_neq in Hb. rewrite Hb. cbn [andb].
    now apply IH.
Qed.

Lemma getADTSframe_after_junk (junk fr tl : list Z) (buf_size : Z) :
  Forall (fun b => b <> 0xff) junk ->
  adts_frame fr ->
  Z.of_nat (length junk + length fr) <= buf_size ->
  getADTSframe (junk ++ fr ++ tl) buf_size
  = AdtsFrame fr (Z.of_nat (length fr)).
Proof.
  intros Hj Hfr Hsz.
  rewrite (getADTSframe_skip (length junk)).
  - rewrite skipn_app_exact. apply getADTSframe_frame_first; [exact Hfr|lia].
  - now apply no_sync_in_junk.
  - rewrite length_app. lia.
Qed.

Lemma aac_inner_junk (fr : list Z) :
  adts_frame fr ->
  Forall (fun b => b <> 0xff) (tl fr) ->
  forall m junk fuel aacframe cnt aacbuffer offset,
    Forall (fun b => b <> 0xff) junk ->
    (m * length fr <= length junk < (m + 1) * length fr)%nat ->
    (m + 1 < fuel)%nat ->
    exists aacframe',
      aac_inner fuel (junk ++ fr) (Z.of_nat (length (junk ++ fr)))
        aacframe cnt aacbuffer offset
      = Done (mkExit (adts_rows_of cnt (repeat fr (S m))) aacframe'
                (cnt + Z.of_nat (S m)) aacbuffer offset).
Proof.
  intros Hfr Hbody.
  pose proof Hfr as (Hsync & Hlen & Hrange).
  induction m as [|m IH];
    intros junk fuel aacframe cnt aacbuffer offset Hj Hm Hfuel.
  - destruct fuel as [|[|fuel]]; [lia | lia |].
    rewrite (aac_inner_frame (S fuel) fr []).
    + rewrite AacFacts.aac_inner_short.
      * eexists. cbn [bind x_rows x_aacframe x_cnt x_aacbuffer x_offset
                        adts_rows_of repeat]. reflexivity.
      * apply getADTSframe_no_sync.
        rewrite skipn_app.
        apply Forall_app. split; [now apply Forall_skipn|].
        replace (length fr - length junk)%nat
          with (S (length fr - length junk - 1))%nat by lia.
        destruct fr as [|b fr']; [apply Forall_skipn; constructor|].
        cbn [skipn]. cbn [tl] in Hbody. now apply Forall_skipn.
    + rewrite <- (app_nil_r fr) at 1.
      apply getADTSframe_after_junk; [exact Hj | exact Hfr |].
      rewrite length_app. lia.
    + lia.
    + lia.
  - destruct fuel as [|fuel]; [lia|].
    rewrite (aac_inner_frame fuel fr []).
    + assert (Hsk : skipn (length fr) (junk ++ fr)
                    = skipn (length fr) junk ++ fr).
      { rewrite skipn_app.
        replace (length fr - length junk)%nat with 0%nat by lia.
        reflexivity. }
      rewrite Hsk.
      replace (Z.of_nat (length (junk ++ fr)) - Z.of_nat (length fr))
        with (Z.of_nat (length (skipn (length fr) junk ++ fr)))
        by (rewrite !length_app, length_skipn; lia).
      destruct (IH (skipn (length fr) junk) fuel (memcpy_at aacframe 0 fr)
                  (cnt + 1) aacbuffer offset) as (aacframe' & ->).
      * now apply Forall_skipn.
      * rewrite length_skipn. lia.
      * lia.
      * exists aacframe'.
        cbn [bind x_rows x_aacframe x_cnt x_aacbuffer x_offset].
        change (repeat fr (S (S m))) with (fr :: repeat fr (S m)).
        cbn [adts_rows_of]. do 2 f_equal. lia.
    + rewrite <- (app_nil_r fr) at 1.
      apply getADTSframe_after_junk; [exact Hj | exact Hfr |].
      rewrite length_app. lia.
    + lia.
    + lia.
Qed.

(** X3.  The window moves on by the frame's size from where it began, not
    from where the frame began.  So for a file of [k] bytes without 0xff
    followed by one frame of [n] bytes (none of them 0xff after the
    first), the parser prints that frame [k / n + 1] times. *)
Theorem frame_after_junk_repeated (bufsize : Z) (junk fr : list Z) :
  Forall (fun b => b <> 0xff) junk ->
  adts_frame fr ->
  Forall (fun b => b <> 0xff) (tl fr) ->
  Z.of_nat (length (junk ++ fr)) < bufsize ->
  aac_parser bufsize (junk ++ fr)
  = Done (adts_rows_of 0 (repeat fr (S (length junk / length fr)))).
Proof.
  intros Hj Hfr Hbody Hsize.
  rewrite (AacFacts.aac_parser_one_read bufsize _ Hsize).
  pose proof (adts_frame_length fr Hfr) as Hpos.
  destruct (aac_inner_junk fr Hfr Hbody (length junk / length fr) junk
              (S (length (junk ++ fr))) [] 0 (junk ++ fr) 0 Hj)
    as (aacframe' & ->).
  - pose proof (Nat.div_mod_eq (length junk) (length fr)).
    pose proof (Nat.mod_upper_bound (length junk) (length fr) ltac:(lia)).
    nia.
  - rewrite length_app.
    pose proof (Nat.div_mod_eq (length junk) (length fr)).
    nia.
  - reflexivity.
Qed.

Lemma frame_after_junk_repeated_witness :
  Forall (fun b => b <> 0xff) [1; 2; 3; 4; 5; 6; 7; 8; 9] /\
  adts_frame [0xff; 0xf1; 0x50; 0x80; 0; 0xe0; 0xfc] /\
  simplest_aac_parser
    ([1; 2; 3; 4; 5; 6; 7; 8; 9] ++ [0xff; 0xf1; 0x50; 0x80; 0; 0xe0; 0xfc])
  = Done [adts_row_of 0 [0xff; 0xf1; 0x50; 0x80; 0; 0xe0; 0xfc];
          adts_row_of 1 [0xff; 0xf1; 0x50; 0x80; 0; 0xe0; 0xfc]].
Proof.
  assert (Hj : Forall (fun b => b <> 0xff) [1; 2; 3; 4; 5; 6; 7; 8; 9])
    by (repeat constructor; lia).
  assert (Hf : adts_frame [0xff; 0xf1; 0x50; 0x80; 0; 0xe0; 0xfc])
    by (repeat split; cbn; try reflexivity; unfold AACFRAME_SIZE; lia).
  split; [exact Hj|]. split; [exact Hf|].
  exact (frame_after_junk_repeated AACBUFFER_SIZE _ _ Hj Hf
           ltac:(repeat constructor; lia)
           ltac:(cbn; unfold AACBUFFER_SIZE; lia)).
Defined.

End AacStreamFacts.
(** ** NAL units in the file *)

Module H264UnitFacts.
Import H264 H264Units.

Lemma code_found (l : list Z) :
  firstn 3 l = [0; 0; 1] -> FindStartCode2 l = 1.
Proof.
  destruct l as [|a [|b [|c l]]]; try discriminate.
  cbn [firstn]. intros H. injection H as -> -> ->. reflexivity.
Qed.

Lemma code4_ends_with_code3 (l : list Z) :
  FindStartCode3 l = 1 -> firstn 3 (skipn 1 l) = [0; 0; 1].
Proof.
  intros H. apply H264Facts.FindStartCode3_found in H.
  destruct H as (H0 & H1 & H2 & H3).
  destruct l as [|a [|b [|c [|d l]]]]; cbn [nth] in *; try discriminate.
  subst. reflexivity.
Qed.

Lemma firstn3_app (l : list Z) (c : Z) (i : nat) :
  (i + 3 <= length l)%nat ->
  firstn 3 (skipn i (l ++ [c])) = firstn 3 (skipn i l).
Proof.
  intros H. rewrite skipn_app.
  replace (i - length l)%nat with 0%nat by lia. cbn [skipn].
  rewrite firstn_app.
  replace (3 - length (skipn i l))%nat with 0%nat
    by (rewrite length_skipn; lia).
  cbn [firstn]. apply app_nil_r.
Qed.

Lemma firstn3_length (l : list Z) (i : nat) :
  firstn 3 (skipn i l) = [0; 0; 1] -> (i + 3 <= length l)%nat.
Proof.
  intros H. apply (f_equal (@length Z)) in H.
  rewrite length_firstn, length_skipn in H. cbn [length] in H. lia.
Qed.

(** The loop of [GetAnnexbNALU] stops at the first start code: none ends
    among the bytes it has stored before. *)
Lemma scan_next_first_code (maxsz : Z) (p0 : nat) :
  forall fuel Buf info2 f x,
    no_code_between p0 (length Buf) Buf ->
    scan_next fuel maxsz Buf (length Buf) info2 f = Done x ->
    match x with
    | AtEof Buf' pos' _ =>
        pos' = length Buf' /\ no_code_between p0 (length Buf') Buf'
    | Found Buf' pos' _ _ =>
        pos' = length Buf' /\ (1 <= length Buf')%nat /\
        no_code_between p0 (length Buf' - 1) Buf'
    end.
Proof.
  induction fuel as [|fuel IH]; intros Buf info2 f x Hinv Hrun.
  - discriminate.
  - cbn [scan_next] in Hrun.
    destruct (feof f).
    + injection Hrun as <-. auto.
    + destruct (fgetc f) as [c f1].
      destruct (maxsz <=? Z.of_nat (length Buf)); [discriminate|].
      set (Buf1 := Buf ++ [to_uchar c]) in *.
      assert (Hl1 : length Buf1 = S (length Buf))
        by (unfold Buf1; rewrite length_app; cbn [length]; lia).
      rewrite <- Hl1 in Hrun.
      assert (Hstep : no_code_between p0 (length Buf1 - 1) Buf1).
      { intros i Hp Hlim. unfold Buf1. rewrite firstn3_app by lia.
        apply Hinv; lia. }
      destruct (FindStartCode3 (skipn (length Buf1 - 4) Buf1) =? 1) eqn:E3.
      * cbn [negb orb] in Hrun. rewrite Bool.orb_true_r in Hrun.
        injection Hrun as <-. repeat split; [lia | exact Hstep].
      * cbn [negb orb] in Hrun.
        destruct (FindStartCode2 (skipn (length Buf1 - 3) Buf1) =? 1) eqn:E2.
        -- cbn [orb] in Hrun. injection Hrun as <-.
           repeat split; [lia | exact Hstep].
        -- cbn [orb] in Hrun.
           eapply IH; [|exact Hrun].
           intros i Hp Hlim Hcode.
           destruct (Nat.eq_dec (i + 3) (length Buf1)) as [Hlast | Hne].
           ++ replace i with (length Buf1 - 3)%nat in Hcode by lia.
              apply code_found in Hcode. apply Z.eqb_neq in E2. congruence.
           ++ apply (Hstep i); [lia | lia | exact Hcode].
Qed.

Lemma code_in_window (L : list Z) (p n i : nat) :
  firstn 3 (skipn i (firstn n (skipn p L))) = [0; 0; 1] ->
  (i + 3 <= n)%nat /\ firstn 3 (skipn (p + i) L) = [0; 0; 1].
Proof.
  intros H. rewrite skipn_firstn_comm, firstn_firstn, skipn_skipn in H.
  assert (Hn : (3 <= n - i)%nat).
  { apply (f_equal (@length Z)) in H. rewrite length_firstn in H.
    cbn [length] in H. lia. }
  split; [lia|].
  rewrite Nat.min_l in H by lia.
  now rewrite (Nat.add_comm p i).
Qed.

Lemma code_free_window (L : list Z) (p n lim : nat) :
  no_code_between p lim L ->
  (p + n <= lim)%nat ->
  code_free (firstn n (skipn p L)).
Proof.
  intros Hinv Hn i Hcode.
  apply code_in_window in Hcode. destruct Hcode as [Hi Hcode].
  apply (Hinv (p + i)%nat); [lia | lia | exact Hcode].
Qed.

(** What [GetAnnexbNALU] stores and returns once it has read the start
    code of [prefix] bytes. *)
Lemma next_start_code_stored (nalu : NALU_t) (prefix : nat) (Buf : list Z)
    (f : FILE) (ret : Z) (n' : NALU_t) (f' : FILE) :
  length Buf = prefix ->
  next_start_code nalu prefix Buf f = Done (ret, n', f') ->
  code_free (payload n') /\
  startcodeprefix_len n' = prefix /\
  length (payload n') = len n' /\
  ret = Z.of_nat (prefix + len n').
Proof.
  intros Hlen H. unfold next_start_code in H. subst prefix.
  set (prefix := length Buf) in *.
  change (scan_next (S (S (length (f_rest f)))) (max_size nalu) Buf prefix 0 f)
    with (scan_next (S (S (length (f_rest f)))) (max_size nalu) Buf
            (length Buf) 0 f) in H.
  destruct (scan_next _ _ Buf (length Buf) 0 f) as [x| |] eqn:Escan;
    [|discriminate|discriminate].
  cbn [bind] in H.
  apply (scan_next_first_code _ prefix) in Escan.
  2:{ intros i Hp Hlim. lia. }
  destruct x as [Buf' pos' f1 | Buf' pos' info3 f1].
  - destruct Escan as [-> Hinv].
    destruct (Z.ltb_spec (Z.of_nat (length Buf') - 1 - Z.of_nat prefix) 0);
      [discriminate|].
    injection H as <- <- <-.
    set (n := Z.to_nat (Z.of_nat (length Buf') - 1 - Z.of_nat prefix)).
    assert (Hn : (prefix + n <= length Buf')%nat) by (unfold n; lia).
    rewrite H264Facts.payload_store by exact Hn.
    repeat split.
    + apply (code_free_window Buf' prefix n (length Buf') Hinv Hn).
    + rewrite length_firstn, length_skipn. cbn [store_nalu len]. lia.
    + cbn [store_nalu len]. unfold n. lia.
  - destruct Escan as (-> & Hpos & Hinv).
    set (rewind := if info3 =? 1 then -4 else -3) in *.
    destruct (Z.ltb_spec (Z.of_nat (length Buf') + rewind - Z.of_nat prefix) 0);
      [discriminate|].
    injection H as <- <- <-.
    set (n := Z.to_nat (Z.of_nat (length Buf') + rewind - Z.of_nat prefix)).
    assert (Hr : rewind = -4 \/ rewind = -3)
      by (unfold rewind; destruct (info3 =? 1); auto).
    assert (Hn : (prefix + n <= length Buf' - 1)%nat) by (unfold n; lia).
    rewrite H264Facts.payload_store by lia.
    repeat split.
    + apply (code_free_window Buf' prefix n (length Buf' - 1) Hinv Hn).
    + rewrite length_firstn, length_skipn. cbn [store_nalu len]. lia.
    + cbn [store_nalu len]. unfold n. lia.
Qed.

Lemma code_free_set_prefix (n : NALU_t) (p : nat) :
  code_free (payload n) -> code_free (payload (set_prefix n p)).
Proof. intros H. exact H. Qed.

Lemma GetAnnexbNALU_code_free (n : NALU_t) (f : FILE) (ret : Z)
    (n' : NALU_t) (f' : FILE) :
  code_free (payload n) ->
  GetAnnexbNALU n f = Done (ret, n', f') ->
  code_free (payload n').
Proof.
  intros Hn H. unfold GetAnnexbNALU in H.
  destruct (fread f 3) as [Buf f1] eqn:E1.
  destruct (negb (length Buf =? 3)%nat) eqn:E3.
  { injection H as <- <- <-. exact Hn. }
  apply Bool.negb_false_iff, Nat.eqb_eq in E3.
  destruct (negb (FindStartCode2 Buf =? 1)).
  - destruct (fread f1 1) as [b f2] eqn:E2.
    destruct (negb (length b =? 1)%nat) eqn:E4.
    { injection H as <- <- <-. exact Hn. }
    apply Bool.negb_false_iff, Nat.eqb_eq in E4.
    destruct (negb (FindStartCode3 (Buf ++ b) =? 1)).
    { injection H as <- <- <-. exact Hn. }
    apply next_start_code_stored in H; [tauto|].
    rewrite length_app. lia.
  - apply next_start_code_stored in H; [tauto | exact E3].
Qed.

Lemma h264_loop_code_free : forall fuel n f offset num rows,
  code_free (payload n) ->
  h264_loop fuel n f offset num = Done rows ->
  Forall (fun r => code_free (payload (unit r))) rows.
Proof.
  induction fuel as [|fuel IH]; intros n f offset num rows Hn H.
  - discriminate.
  - cbn [h264_loop] in H. destruct (feof f).
    + injection H as <-. constructor.
    + destruct (GetAnnexbNALU n f) as [[[ret n'] f']| |] eqn:E;
        [|discriminate|discriminate].
      cbn [bind] in H.
      destruct (h264_loop fuel n' f' (offset + ret) (num + 1))
        as [rest| |] eqn:Er; [|discriminate|discriminate].
      cbn [bind] in H. injection H as <-.
      pose proof (GetAnnexbNALU_code_free n f ret n' f' Hn E) as Hn'.
      constructor; [exact Hn'|].
      exact (IH n' f' _ _ rest Hn' Er).
Qed.

(** X4.  A unit ends at the first start code after the one that opens
    it: no payload the parser reports has the bytes [00 00 01] inside,
    whatever the file holds. *)
Theorem payload_has_no_start_code (maxsz : Z) (stream : list Z)
    (rows : list nal_row) :
  h264_parser maxsz stream = Done rows ->
  Forall (fun r => code_free (payload (unit r))) rows.
Proof.
  apply h264_loop_code_free.
  intros i. cbn. destruct i; discriminate.
Qed.

Lemma payload_has_no_start_code_witness :
  exists rows,
    simplest_h264_parser [0; 0; 0; 1; 0x67; 0x42; 0; 0; 1; 0x68; 0] = Done rows /\
    map (fun r => payload (unit r)) rows = [[0x67; 0x42]; [0x68; 0]] /\
    Forall (fun r => code_free (payload (unit r))) rows.
Proof.
  eexists. split; [vm_compute; reflexivity|]. split; [reflexivity|].
  apply (payload_has_no_start_code BUFFERSIZE
           [0; 0; 0; 1; 0x67; 0x42; 0; 0; 1; 0x68; 0]).
  vm_compute. reflexivity.
Defined.

(** *** Offsets *)

Lemma GetAnnexbNALU_at_code (n : NALU_t) (f : FILE) :
  valid_annexb (f_rest f) ->
  exists prefix Buf f1 nalu1,
    length Buf = prefix /\ (prefix = 3%nat \/ prefix = 4%nat) /\
    GetAnnexbNALU n f = next_start_code nalu1 prefix Buf f1.
Proof.
  intros [[tl H] | [tl H]].
  - exists 3%nat, [0; 0; 1]. do 2 eexists.
    split; [reflexivity|]. split; [now left|].
    unfold GetAnnexbNALU.
    change (fread f 3) with (fread f (length [0; 0; 1])).
    rewrite (fread_app f [0; 0; 1] tl H).
    cbn [length Nat.eqb negb FindStartCode2 nth Z.eqb orb].
    reflexivity.
  - exists 4%nat, [0; 0; 0; 1]. do 2 eexists.
    split; [reflexivity|]. split; [now right|].
    unfold GetAnnexbNALU.
    change (fread f 3) with (fread f (length [0; 0; 0])).
    rewrite (fread_app f [0; 0; 0] (1 :: tl) H).
    cbn [length Nat.eqb negb FindStartCode2 nth Z.eqb orb].
    pose (f1 := mkFILE (f_data f) (f_pos f + 3) (f_eof f)).
    assert (H1 : f_rest f1 = [1] ++ tl)
      by (apply (f_rest_after f [0; 0; 0] (1 :: tl)); exact H).
    fold f1. change (fread f1 1) with (fread f1 (length [1])).
    rewrite (fread_app f1 [1] tl H1).
    cbn [length Nat.eqb negb app FindStartCode3 nth Z.eqb orb].
    reflexivity.
Qed.

Lemma GetAnnexbNALU_returns_size (n : NALU_t) (f : FILE) (ret : Z)
    (n' : NALU_t) (f' : FILE) :
  valid_annexb (f_rest f) ->
  GetAnnexbNALU n f = Done (ret, n', f') ->
  length (payload n') = len n' /\
  ret = Z.of_nat (length (unit_bytes n')).
Proof.
  intros Hv H.
  destruct (GetAnnexbNALU_at_code n f Hv)
    as (prefix & Buf & f1 & nalu1 & Hlen & Hp & E).
  rewrite E in H. apply next_start_code_stored in H; [|exact Hlen].
  destruct H as (_ & Hpre & Hpay & Hret).
  split; [exact Hpay|].
  unfold unit_bytes. rewrite length_app, Hpay, Hpre.
  rewrite (H264Facts.length_start_code prefix Hp). exact Hret.
Qed.

Lemma h264_loop_laid_out : forall fuel n f offset num rows,
  f_eof f = false ->
  valid_annexb (f_rest f) ->
  Forall is_byte (f_rest f) ->
  h264_loop fuel n f offset num = Done rows ->
  laid_out offset num rows.
Proof.
  induction fuel as [|fuel IH]; intros n f offset num rows Heof Hv Hb H.
  - discriminate.
  - cbn [h264_loop] in H. unfold feof in H. rewrite Heof in H.
    destruct (H264Facts.GetAnnexbNALU_valid n f Heof Hv Hb)
      as [[E Hmax] | (ret & n' & f' & E & Hmax & Hd & Hsplit & H3 & Hend)];
      rewrite E in H; cbn [bind] in H; [discriminate|].
    destruct (GetAnnexbNALU_returns_size n f ret n' f' Hv E) as [Hpay Hret].
    destruct (h264_loop fuel n' f' (offset + ret) (num + 1))
      as [rest| |] eqn:Er; [|discriminate|discriminate].
    cbn [bind] in H. injection H as <-.
    cbn [laid_out nal_num data_offset unit nal_bytes].
    repeat split; [exact Hpay|].
    unfold nal_bytes. cbn [unit]. rewrite <- Hret.
    destruct Hend as [[Heof' Hnil] | [Heof' Hv']].
    + destruct fuel as [|fuel]; [discriminate|].
      cbn [h264_loop] in Er. unfold feof in Er. rewrite Heof' in Er.
      injection Er as <-. exact I.
    + apply (IH n' f' _ _ rest Heof' Hv'); [|exact Er].
      rewrite Hsplit in Hb. now apply H264Facts.Forall_app_r in Hb.
Qed.

(** X5.  On a file of bytes that begins with a start code, the lines are
    numbered from 0, the length shown is the number of bytes of the
    payload, and the offset shown is the number of bytes of the units
    before, start codes included: the place of the unit in the file. *)
Theorem offsets_are_file_positions (maxsz : Z) (stream : list Z)
    (rows : list nal_row) :
  valid_annexb stream ->
  Forall is_byte stream ->
  h264_parser maxsz stream = Done rows ->
  laid_out 0 0 rows.
Proof.
  intros Hv Hb H. unfold h264_parser in H.
  exact (h264_loop_laid_out _ _ (fopen stream) 0 0 rows eq_refl Hv Hb H).
Qed.

Lemma offsets_are_file_positions_witness :
  exists rows,
    valid_annexb [0; 0; 0; 1; 0x67; 0x42; 0; 0; 1; 0x68; 0] /\
    Forall is_byte [0; 0; 0; 1; 0x67; 0x42; 0; 0; 1; 0x68; 0] /\
    simplest_h264_parser [0; 0; 0; 1; 0x67; 0x42; 0; 0; 1; 0x68; 0] = Done rows /\
    map data_offset rows = [0; 6] /\
    laid_out 0 0 rows.
Proof.
  assert (Hv : valid_annexb [0; 0; 0; 1; 0x67; 0x42; 0; 0; 1; 0x68; 0])
    by (right; eexists; reflexivity).
  assert (Hb : Forall is_byte [0; 0; 0; 1; 0x67; 0x42; 0; 0; 1; 0x68; 0])
    by (repeat constructor; unfold is_byte; lia).
  eexists. split; [exact Hv|]. split; [exact Hb|].
  split; [vm_compute; reflexivity|]. split; [reflexivity|].
  apply (offsets_are_file_positions BUFFERSIZE
           [0; 0; 0; 1; 0x67; 0x42; 0; 0; 1; 0x68; 0] _ Hv Hb).
  vm_compute. reflexivity.
Defined.

(** *** Files without a start code *)

Lemma GetAnnexbNALU_no_code (n : NALU_t) (f : FILE) (g tl : list Z) :
  not_a_code g ->
  f_rest f = g ++ tl ->
  GetAnnexbNALU n f
  = Done (-1, set_prefix n 3, mkFILE (f_data f) (f_pos f + 4) (f_eof f)).
Proof.
  intros (Hlen & H2 & H3) Hrest.
  destruct g as [|a [|b [|c [|d [|e g]]]]]; try discriminate.
  unfold GetAnnexbNALU.
  change (fread f 3) with (fread f (length [a; b; c])).
  rewrite (fread_app f [a; b; c] (d :: tl) Hrest).
  cbn [length Nat.eqb negb].
  change (FindStartCode2 [a; b; c; d]) with (FindStartCode2 [a; b; c]) in H2.
  apply Z.eqb_neq in H2. rewrite H2. cbn [negb].
  pose (f1 := mkFILE (f_data f) (f_pos f + 3) (f_eof f)).
  assert (H1 : f_rest f1 = [d] ++ tl)
    by (apply (f_rest_after f [a; b; c] (d :: tl)); exact Hrest).
  fold f1. change (fread f1 1) with (fread f1 (length [d])).
  rewrite (fread_app f1 [d] tl H1).
  cbn [length Nat.eqb negb app].
  apply Z.eqb_neq in H3. rewrite H3. cbn [negb f1 f_data f_pos f_eof].
  do 3 f_equal. lia.
Qed.

Lemma GetAnnexbNALU_at_end (n : NALU_t) (f : FILE) :
  f_rest f = [] ->
  exists f', GetAnnexbNALU n f = Done (0, set_prefix n 3, f') /\
             f_eof f' = true.
Proof.
  intros Hrest. unfold GetAnnexbNALU, fread. rewrite Hrest.
  cbn [firstn length Nat.eqb negb]. eexists. split; [reflexivity|].
  cbn [f_eof]. apply Bool.orb_true_r.
Qed.

Lemma set_prefix_twice (n : NALU_t) (p q : nat) :
  set_prefix (set_prefix n p) q = set_prefix n q.
Proof. reflexivity. Qed.

Lemma h264_loop_no_code (maxsz : Z) :
  forall groups fuel n f num,
    Forall not_a_code groups ->
    f_rest f = concat groups ->
    f_eof f = false ->
    (S (length groups) < fuel)%nat ->
    set_prefix n 3 = set_prefix (nalu_init maxsz) 3 ->
    h264_loop fuel n f (- num) num
    = Done (stale_rows maxsz num (length groups)).
Proof.
  induction groups as [|g groups IH]; intros fuel n f num Hall Hrest Heof Hfuel Hn.
  - destruct fuel as [|[|fuel]]; [lia | lia |].
    cbn [h264_loop]. unfold feof at 1. rewrite Heof.
    destruct (GetAnnexbNALU_at_end n f Hrest) as (f' & -> & Heof').
    cbn [bind]. unfold feof. rewrite Heof'. cbn [bind length stale_rows].
    rewrite Hn. reflexivity.
  - inversion Hall as [|? ? Hg Hrest']; subst.
    destruct fuel as [|fuel]; [lia|]. cbn [length] in Hfuel.
    cbn [concat] in Hrest.
    cbn [h264_loop]. unfold feof at 1. rewrite Heof.
    rewrite (GetAnnexbNALU_no_code n f g (concat groups) Hg Hrest).
    cbn [bind].
    replace (- num + -1) with (- (num + 1)) by lia.
    rewrite (IH fuel (set_prefix n 3) _ (num + 1) Hrest').
    + cbn [bind length stale_rows]. rewrite Hn. reflexivity.
    + destruct Hg as (Hlen & _). rewrite <- Hlen.
      apply (f_rest_after f g (concat groups)). exact Hrest.
    + exact Heof.
    + lia.
    + rewrite set_prefix_twice. exact Hn.
Qed.

(** X6.  A file made of groups of four bytes none of which is, or begins
    with, a start code: every call returns -1 four bytes further, no unit
    is ever read, and the parser prints one line per group and one more
    at the end of the file, with the empty unit and the offsets 0, -1,
    -2, ... *)
Theorem no_start_code_lines (maxsz : Z) (groups : list (list Z)) :
  Forall not_a_code groups ->
  h264_parser maxsz (concat groups)
  = Done (stale_rows maxsz 0 (length groups)).
Proof.
  intros Hall. unfold h264_parser.
  rewrite (h264_loop_no_code maxsz groups _ (nalu_init maxsz)
             (fopen (concat groups)) 0 Hall eq_refl eq_refl).
  - reflexivity.
  - assert (H : forall gs, Forall not_a_code gs ->
                  (length gs <= length (concat gs))%nat).
    { induction 1 as [|x gs (Hx & _) _ IHgs]; [cbn; lia|].
      cbn [concat length]. rewrite length_app. lia. }
    specialize (H groups Hall). lia.
  - reflexivity.
Qed.

Lemma no_start_code_lines_witness :
  Forall not_a_code [[1; 2; 3; 4]; [0; 0; 2; 1]] /\
  simplest_h264_parser [1; 2; 3; 4; 0; 0; 2; 1]
  = Done [mkNalRow 0 0 0 (set_prefix (nalu_init BUFFERSIZE) 3);
          mkNalRow 1 (-1) 0 (set_prefix (nalu_init BUFFERSIZE) 3);
          mkNalRow 2 (-2) 0 (set_prefix (nalu_init BUFFERSIZE) 3)].
Proof.
  assert (H : Forall not_a_code [[1; 2; 3; 4]; [0; 0; 2; 1]])
    by (repeat constructor; cbn; discriminate).
  split; [exact H|].
  exact (no_start_code_lines BUFFERSIZE _ H).
Defined.

End H264UnitFacts.
(** ** FLV files of audio and video tags *)

Module FlvFileFacts.
Import Flv FlvFiles.

Lemma fgetc_n_app : forall (a b : list Z) (f : FILE),
  f_rest f = a ++ b ->
  fgetc_n (length a) f
  = (map to_uchar a, mkFILE (f_data f) (f_pos f + length a) (f_eof f)).
Proof.
  induction a as [|c a IH]; intros b f H.
  - cbn [length fgetc_n map]. rewrite Nat.add_0_r. now destruct f.
  - cbn [length fgetc_n]. rewrite (fgetc_cons f c (a ++ b) H).
    set (f1 := mkFILE (f_data f) (S (f_pos f)) (f_eof f)).
    assert (H1 : f_rest f1 = a ++ b)
      by (apply (f_rest_next f c (a ++ b)); exact H).
    rewrite (IH b f1 H1). cbn [map f1 f_data f_pos f_eof].
    do 2 f_equal. lia.
Qed.

Lemma fgetc_n_eof_kept : forall (n : nat) (f : FILE),
  f_eof f = true -> f_eof (snd (fgetc_n n f)) = true.
Proof.
  induction n as [|n IH]; intros f H; [exact H|].
  cbn [fgetc_n]. destruct (fgetc f) as [c f1] eqn:E.
  assert (H1 : f_eof f1 = true).
  { unfold fgetc in E. destruct (f_rest f); injection E as <- <-;
      [reflexivity | exact H]. }
  specialize (IH f1 H1). destruct (fgetc_n n f1) as [cs f2]. exact IH.
Qed.

(** More calls of [fgetc] than the file has bytes left set the
    end-of-file indicator. *)
Lemma fgetc_n_past_end : forall (n : nat) (f : FILE),
  (length (f_rest f) < n)%nat -> f_eof (snd (fgetc_n n f)) = true.
Proof.
  induction n as [|n IH]; intros f H; [lia|].
  cbn [fgetc_n]. destruct (f_rest f) as [|c r] eqn:E.
  - rewrite (fgetc_nil f E).
    pose proof (fgetc_n_eof_kept n (mkFILE (f_data f) (f_pos f) true) eq_refl)
      as Hk.
    destruct (fgetc_n n _) as [cs f2]. exact Hk.
  - rewrite (fgetc_cons f c r E).
    set (f1 := mkFILE (f_data f) (S (f_pos f)) (f_eof f)).
    assert (H1 : f_rest f1 = r) by (apply (f_rest_next f c r); exact E).
    cbn [length] in H.
    specialize (IH f1 ltac:(rewrite H1; lia)).
    destruct (fgetc_n n f1) as [cs f2]. exact IH.
Qed.

Lemma be24_value (n : Z) :
  0 <= n < 16777216 ->
  nth 0 (be24 n) 0 * 65536 + nth 1 (be24 n) 0 * 256 + nth 2 (be24 n) 0 = n.
Proof.
  intros H. cbn [be24 nth].
  pose proof (Z.div_mod n 256 ltac:(lia)).
  pose proof (Z.div_mod (n / 256) 256 ltac:(lia)).
  replace (n / 65536) with (n / 256 / 256)
    by (rewrite Z.div_div by lia; reflexivity).
  lia.
Qed.

Lemma length_enc_av (t : av_tag) :
  length (enc_av t) = (11 + length (av_data t))%nat.
Proof. unfold enc_av, enc_tag. rewrite !length_app. reflexivity. Qed.

Lemma header12_fields (t : av_tag) :
  wf_av t ->
  length (header12 t) = 12%nat /\
  mkTag (nth 0 (header12 t) 0)
        (nth 1 (header12 t) 0 * 65536 + nth 2 (header12 t) 0 * 256
         + nth 3 (header12 t) 0)
        (nth 4 (header12 t) 0 * 65536 + nth 5 (header12 t) 0 * 256
         + nth 6 (header12 t) 0)
  = tag_row_of t.
Proof.
  intros (Hty & Hts & Hlen & Hsz).
  unfold header12. split.
  - rewrite length_firstn, length_enc_av. lia.
  - pose proof (be24_value (Z.of_nat (length (av_data t))) ltac:(lia)) as Hd.
    pose proof (be24_value (av_timestamp t) Hts) as Ht.
    unfold tag_row_of, enc_av, enc_tag.
    destruct (av_data t) as [|d0 data]; [cbn in Hlen; lia|].
    set (n := Z.of_nat (length (d0 :: data))) in *.
    cbn [be24 nth app firstn] in *.
    now rewrite Hd, Ht.
Qed.

(** The [switch] on a tag whose data is the next bytes of the file. *)
Lemma tag_data_av (t : av_tag) (ifh : FILE) (R : list Z) :
  wf_av t ->
  f_rest ifh = av_data t ++ R ->
  f_eof ifh = false ->
  tag_data (av_type t) (Z.of_nat (length (av_data t))) ifh
  = Done ([], mkFILE (f_data ifh) (f_pos ifh + length (av_data t)) false).
Proof.
  intros (Hty & _ & Hlen & _) Hrest Heof. unfold tag_data.
  destruct (av_data t) as [|d0 data] eqn:Ed; [cbn in Hlen; lia|].
  cbn [app] in Hrest.
  rewrite (fgetc_cons ifh d0 (data ++ R) Hrest).
  set (f1 := mkFILE (f_data ifh) (S (f_pos ifh)) (f_eof ifh)).
  assert (H1 : f_rest f1 = data ++ R)
    by (apply (f_rest_next ifh d0 (data ++ R)); exact Hrest).
  destruct Hty as [-> | ->].
  - change (TAG_TYPE_AUDIO =? TAG_TYPE_AUDIO) with true. cbv iota.
    replace (Z.to_nat (Z.of_nat (length (d0 :: data)) - 1))
      with (length data) by (cbn [length]; lia).
    rewrite (fgetc_n_app data R f1 H1).
    cbn [f1 f_data f_pos f_eof length]. rewrite Heof.
    do 3 f_equal. lia.
  - change (TAG_TYPE_VIDEO =? TAG_TYPE_AUDIO) with false.
    change (TAG_TYPE_VIDEO =? TAG_TYPE_VIDEO) with true. cbv iota.
    rewrite (fseek_cur_at f1 (-1) (f_pos ifh))
      by (cbn [f1 f_pos]; lia).
    cbn [f1 f_data].
    set (f2 := mkFILE (f_data ifh) (f_pos ifh) false).
    assert (H2 : f_rest f2 = (d0 :: data) ++ R) by exact Hrest.
    rewrite Nat2Z.id.
    rewrite (fgetc_n_app (d0 :: data) R f2 H2).
    reflexivity.
Qed.

(** The [switch] on the header of a tag when one byte is left in the
    file: the reads run into the end of the file. *)
Lemma tag_data_last_byte (t : av_tag) (ifh : FILE) (c : Z) :
  wf_av t ->
  f_rest ifh = [c] ->
  exists ifh',
    tag_data (av_type t) (Z.of_nat (length (av_data t))) ifh
    = Done ([], ifh') /\ f_eof ifh' = true.
Proof.
  intros (Hty & _ & Hlen & _) Hrest. unfold tag_data.
  rewrite (fgetc_cons ifh c [] Hrest).
  set (f1 := mkFILE (f_data ifh) (S (f_pos ifh)) (f_eof ifh)).
  assert (H1 : f_rest f1 = [])
    by (apply (f_rest_next ifh c []); exact Hrest).
  destruct Hty as [-> | ->].
  - change (TAG_TYPE_AUDIO =? TAG_TYPE_AUDIO) with true. cbv iota.
    pose proof (fgetc_n_past_end
                  (Z.to_nat (Z.of_nat (length (av_data t)) - 1)) f1) as Hp.
    rewrite H1 in Hp. specialize (Hp ltac:(cbn [length]; lia)).
    destruct (fgetc_n _ f1) as [cs f2]. now exists f2.
  - change (TAG_TYPE_VIDEO =? TAG_TYPE_AUDIO) with false.
    change (TAG_TYPE_VIDEO =? TAG_TYPE_VIDEO) with true. cbv iota.
    rewrite (fseek_cur_at f1 (-1) (f_pos ifh))
      by (cbn [f1 f_pos]; lia).
    cbn [f1 f_data].
    set (f2 := mkFILE (f_data ifh) (f_pos ifh) false).
    assert (H2 : f_rest f2 = [c]) by exact Hrest.
    pose proof (fgetc_n_past_end
                  (Z.to_nat (Z.of_nat (length (av_data t)))) f2) as Hp.
    rewrite H2 in Hp. specialize (Hp ltac:(cbn [length]; lia)).
    destruct (fgetc_n _ f2) as [cs f3]. now exists f3.
Qed.

Lemma tag_loop_eq (fuel : nat) (tagheader : list Z) (ifh : FILE) :
  tag_loop (S fuel) tagheader ifh
  = let '(_, ifh) := fread ifh 4 in
    let '(got, ifh) := fread ifh SIZEOF_TAG_HEADER in
    let tagheader := memcpy_at tagheader 0 got in
    if (length tagheader <? SIZEOF_TAG_HEADER)%nat then Fault
    else
      let type := nth 0 tagheader 0 in
      let tagheader_datasize :=
        nth 1 tagheader 0 * 65536 + nth 2 tagheader 0 * 256
        + nth 3 tagheader 0 in
      let tagheader_timestamp :=
        nth 4 tagheader 0 * 65536 + nth 5 tagheader 0 * 256
        + nth 6 tagheader 0 in
      let ifh := fseek_cur ifh (11 - Z.of_nat SIZEOF_TAG_HEADER) in
      let row := mkTag type tagheader_datasize tagheader_timestamp in
      if feof ifh then Done ([row], [])
      else
        '(ms, ifh) <- tag_data type tagheader_datasize ifh ;;
        if negb (feof ifh) then
          '(rows, ms') <- tag_loop fuel tagheader ifh ;;
          Done (row :: rows, ms ++ ms')
        else Done ([row], ms).
Proof. reflexivity. Qed.

Lemma header12_app (t : av_tag) :
  wf_av t ->
  enc_av t = header12 t ++ skipn 12 (enc_av t) /\
  exists h11, length h11 = 11%nat /\ enc_av t = h11 ++ av_data t.
Proof.
  intros Hwf. split.
  - unfold header12. now rewrite firstn_skipn.
  - unfold enc_av, enc_tag.
    exists ([av_type t] ++ be24 (Z.of_nat (length (av_data t)))
            ++ be24 (av_timestamp t) ++ [0; 0; 0; 0]).
    split; [reflexivity|]. now rewrite <- !app_assoc.
Qed.

Lemma fields_of_header (h : list Z) (t : av_tag) :
  h = header12 t -> wf_av t ->
  mkTag (nth 0 h 0)
        (nth 1 h 0 * 65536 + nth 2 h 0 * 256 + nth 3 h 0)
        (nth 4 h 0 * 65536 + nth 5 h 0 * 256 + nth 6 h 0)
  = tag_row_of t /\
  nth 0 h 0 = av_type t /\
  nth 1 h 0 * 65536 + nth 2 h 0 * 256 + nth 3 h 0
  = Z.of_nat (length (av_data t)).
Proof.
  intros -> Hwf. destruct (header12_fields t Hwf) as [_ H].
  split; [exact H|].
  pose proof (f_equal TagType H) as H0.
  pose proof (f_equal tag_datasize H) as H1.
  unfold tag_row_of in H0, H1. cbn [TagType tag_datasize] in H0, H1. auto.
Qed.

(** One turn of the loop on a tag that the file holds whole. *)
Lemma tag_loop_turn (fuel : nat) (th : list Z) (ifh : FILE)
    (prev : list Z) (t : av_tag) (R : list Z) :
  wf_av t ->
  length prev = 4%nat ->
  f_rest ifh = prev ++ enc_av t ++ R ->
  (length th <= 12)%nat ->
  tag_loop (S fuel) th ifh
  = ('(rows, ms) <-
       tag_loop fuel (header12 t)
         (mkFILE (f_data ifh) (f_pos ifh + 4 + length (enc_av t)) false) ;;
     Done (tag_row_of t :: rows, ms)).
Proof.
  intros Hwf Hprev Hrest Hth.
  destruct (header12_fields t Hwf) as [H12 _].
  destruct (header12_app t Hwf) as (Hsplit & h11 & Hh11 & Henc).
  rewrite tag_loop_eq.
  rewrite (fread_exact ifh prev (enc_av t ++ R) 4 Hrest Hprev).
  set (f1 := mkFILE (f_data ifh) (f_pos ifh + 4) (f_eof ifh)).
  assert (H1 : f_rest f1 = header12 t ++ skipn 12 (enc_av t) ++ R).
  { unfold f1. rewrite (f_rest_exact ifh prev (enc_av t ++ R) 4 _ Hrest Hprev).
    rewrite app_assoc. now rewrite <- Hsplit. }
  rewrite (fread_exact f1 (header12 t) _ SIZEOF_TAG_HEADER H1 H12).
  assert (Hcopy : memcpy_at th 0 (header12 t) = header12 t).
  { unfold memcpy_at. cbn [firstn app Nat.add].
    rewrite skipn_all2 by lia. apply app_nil_r. }
  cbv beta iota zeta. rewrite Hcopy.
  replace (length (header12 t) <? SIZEOF_TAG_HEADER)%nat with false
    by (rewrite H12; reflexivity).
  destruct (fields_of_header (header12 t) t eq_refl Hwf) as (-> & -> & ->).
  rewrite (fseek_cur_at _ _ (f_pos ifh + 15))
    by (cbn [f1 f_pos]; unfold SIZEOF_TAG_HEADER; lia).
  cbn [f1 f_data feof f_eof].
  set (f3 := mkFILE (f_data ifh) (f_pos ifh + 15) false).
  assert (H3 : f_rest f3 = av_data t ++ R).
  { unfold f3. apply (f_rest_exact ifh (prev ++ h11) _ 15).
    - rewrite Hrest, Henc. now rewrite <- !app_assoc.
    - rewrite length_app. lia. }
  rewrite (tag_data_av t f3 R Hwf H3 eq_refl).
  cbn [bind feof f_eof negb f3 f_data f_pos].
  replace (f_pos ifh + 15 + length (av_data t))%nat
    with (f_pos ifh + 4 + length (enc_av t))%nat
    by (rewrite length_enc_av; lia).
  destruct (tag_loop fuel (header12 t) _) as [[rows ms]| |]; reflexivity.
Qed.

(** The turn after the last tag: the four bytes of the last size are
    read, no header is, and the line of the tag before is printed
    again. *)
Lemma tag_loop_after_last (fuel : nat) (ifh : FILE) (prev : list Z)
    (t : av_tag) :
  wf_av t ->
  length prev = 4%nat ->
  f_rest ifh = prev ->
  tag_loop (S fuel) (header12 t) ifh = Done ([tag_row_of t], []).
Proof.
  intros Hwf Hprev Hrest.
  destruct (header12_fields t Hwf) as [H12 _].
  rewrite tag_loop_eq.
  rewrite (fread_exact ifh prev [] 4 ltac:(now rewrite app_nil_r) Hprev).
  set (f1 := mkFILE (f_data ifh) (f_pos ifh + 4) (f_eof ifh)).
  assert (H1 : f_rest f1 = []).
  { unfold f1. apply (f_rest_exact ifh prev [] 4); [|exact Hprev].
    now rewrite app_nil_r. }
  rewrite (FlvFacts.fread_at_end f1 SIZEOF_TAG_HEADER H1).
  cbv beta iota zeta.
  change (memcpy_at (header12 t) 0 []) with (header12 t).
  replace (length (header12 t) <? SIZEOF_TAG_HEADER)%nat with false
    by (rewrite H12; reflexivity).
  destruct (fields_of_header (header12 t) t eq_refl Hwf) as (-> & -> & ->).
  rewrite (fseek_cur_at _ _ (f_pos ifh + 3))
    by (cbn [f1 f_pos]; unfold SIZEOF_TAG_HEADER; lia).
  cbn [f1 f_data feof f_eof].
  set (f3 := mkFILE (f_data ifh) (f_pos ifh + 3) false).
  destruct prev as [|p0 [|p1 [|p2 [|p3 [|p4 prev]]]]]; try discriminate.
  assert (H3 : f_rest f3 = [p3]).
  { unfold f3. apply (f_rest_exact ifh [p0; p1; p2] [p3] 3); auto. }
  destruct (tag_data_last_byte t f3 p3 Hwf H3) as (f4 & -> & Heof).
  cbn [bind]. unfold feof. rewrite Heof. reflexivity.
Qed.

Lemma length_be32 (n : Z) : length (be32 n) = 4%nat.
Proof. reflexivity. Qed.

Lemma tag_loop_tags : forall (tags : list av_tag) (t0 : av_tag)
    (th : list Z) (ifh : FILE) (prev : list Z) (fuel : nat),
  Forall wf_av tags -> wf_av t0 ->
  length prev = 4%nat ->
  f_rest ifh = prev ++ enc_tags (map enc_av tags) ->
  (tags = [] -> th = header12 t0) ->
  (length th <= 12)%nat ->
  (length tags < fuel)%nat ->
  tag_loop fuel th ifh
  = Done (map tag_row_of tags ++ [tag_row_of (last tags t0)], []).
Proof.
  induction tags as [|t tags IH];
    intros t0 th ifh prev fuel Hall Hwf0 Hprev Hrest Hth Hlen Hfuel.
  - destruct fuel as [|fuel]; [cbn in Hfuel; lia|].
    rewrite (Hth eq_refl). cbn [map app last].
    apply (tag_loop_after_last fuel ifh prev t0 Hwf0 Hprev).
    rewrite Hrest. cbn [map enc_tags concat]. apply app_nil_r.
  - inversion Hall as [|? ? Hwf Hrest']; subst.
    destruct fuel as [|fuel]; [cbn in Hfuel; lia|]. cbn [length] in Hfuel.
    assert (Hr : f_rest ifh
                 = prev ++ enc_av t
                   ++ (be32 (Z.of_nat (length (enc_av t)))
                       ++ enc_tags (map enc_av tags))).
    { rewrite Hrest. unfold enc_tags. cbn [map concat].
      now rewrite <- !app_assoc. }
    rewrite (tag_loop_turn fuel th ifh prev t _ Hwf Hprev Hr Hlen).
    set (f' := mkFILE _ _ _).
    assert (Hr' : f_rest f'
                  = be32 (Z.of_nat (length (enc_av t)))
                    ++ enc_tags (map enc_av tags)).
    { unfold f'. rewrite <- Nat.add_assoc.
      apply (f_rest_exact ifh (prev ++ enc_av t) _ _ false).
      - rewrite Hr. now rewrite <- !app_assoc.
      - rewrite length_app. lia. }
    rewrite (IH t (header12 t) f' _ fuel Hrest' Hwf (length_be32 _) Hr').
    + cbn [bind map app]. now rewrite last_cons.
    + reflexivity.
    + destruct (header12_fields t Hwf) as [H12 _]. lia.
    + lia.
Qed.

(** X7.  A file of audio and video tags, each with at least two bytes of
    data: the table has the line of every tag, in order, and then the
    line of the last tag once more, printed by the turn of the loop that
    finds the end of the file. *)
Theorem flv_tags_listed (tags : list av_tag) (t : av_tag) :
  Forall wf_av tags -> wf_av t ->
  simplest_flv_parser (flv_of (tags ++ [t]))
  = Done (map tag_row_of tags ++ [tag_row_of t; tag_row_of t], []).
Proof.
  intros Hall Hwf.
  unfold simplest_flv_parser.
  set (stream := flv_of (tags ++ [t])).
  set (body := enc_tags (map enc_av (tags ++ [t]))).
  assert (Hs : stream
               = [70; 76; 86; 1; 5; 0; 0; 0; 9; 0; 0; 0] ++ [0] ++ body)
    by reflexivity.
  rewrite (fread_exact (fopen stream) _ _ SIZEOF_FLV_HEADER Hs eq_refl).
  cbn [length Nat.ltb Nat.leb SIZEOF_FLV_HEADER skipn].
  change (uint_le [9; 0; 0; 0]) with 9.
  set (f9 := fseek_set _ 9).
  assert (H9 : f_rest f9 = [0; 0; 0; 0] ++ body).
  { unfold f9, fseek_set, f_rest. cbn [Z.ltb Z.compare f_data f_pos fopen].
    rewrite Hs. reflexivity. }
  rewrite (tag_loop_tags (tags ++ [t]) t [] f9 [0; 0; 0; 0]
             (S (S (length stream)))).
  - rewrite map_app, last_last, <- app_assoc. reflexivity.
  - apply Forall_app. split; [exact Hall | now constructor].
  - exact Hwf.
  - reflexivity.
  - exact H9.
  - intros H. destruct tags; discriminate.
  - cbn; lia.
  - assert (Hls : length stream = (13 + length body)%nat)
      by (rewrite Hs, !length_app; reflexivity).
    unfold body in Hls.
    assert (Hb : forall l, (length l <= length (enc_tags (map enc_av l)))%nat).
    { induction l as [|x l IHl]; [cbn; lia|].
      change (enc_tags (map enc_av (x :: l)))
        with ((enc_av x ++ be32 (Z.of_nat (length (enc_av x))))
              ++ enc_tags (map enc_av l)).
      rewrite !length_app, length_enc_av. cbn [length]. lia. }
    specialize (Hb (tags ++ [t])). lia.
Qed.

Lemma flv_tags_listed_witness :
  Forall wf_av [mkAv TAG_TYPE_VIDEO 40 [0x17; 1; 0]] /\
  wf_av (mkAv TAG_TYPE_AUDIO 66 [0xAF; 1]) /\
  simplest_flv_parser
    (flv_of [mkAv TAG_TYPE_VIDEO 40 [0x17; 1; 0];
             mkAv TAG_TYPE_AUDIO 66 [0xAF; 1]])
  = Done ([mkTag 9 3 40; mkTag 8 2 66; mkTag 8 2 66], []).
Proof.
  assert (H1 : wf_av (mkAv TAG_TYPE_VIDEO 40 [0x17; 1; 0]))
    by (unfold wf_av; cbn; repeat split; auto; lia).
  assert (H2 : wf_av (mkAv TAG_TYPE_AUDIO 66 [0xAF; 1]))
    by (unfold wf_av; cbn; repeat split; auto; lia).
  assert (Hall : Forall wf_av [mkAv TAG_TYPE_VIDEO 40 [0x17; 1; 0]])
    by (constructor; [exact H1 | constructor]).
  split; [exact Hall|]. split; [exact H2|].
  exact (flv_tags_listed [mkAv TAG_TYPE_VIDEO 40 [0x17; 1; 0]]
           (mkAv TAG_TYPE_AUDIO 66 [0xAF; 1]) Hall H2).
Defined.

(** *** [reverse_bytes] *)

Lemma lor_byte (a b : Z) :
  0 <= b < 256 -> Z.lor (a * 256) b = a * 256 + b.
Proof.
  intros Hb.
  assert (Hland : Z.land (a * 256) b = 0).
  { apply Z.bits_inj'. intros n Hn. rewrite Z.land_spec, Z.bits_0.
    destruct (Z.lt_ge_cases n 8) as [Hlt | Hge].
    - replace (a * 256) with (Z.shiftl a 8)
        by (rewrite Z.shiftl_mul_pow2 by lia; reflexivity).
      now rewrite Z.shiftl_spec_low by lia.
    - replace b with (b mod 2 ^ 8) by (apply Z.mod_small; lia).
      rewrite Z.mod_pow2_bits_high by lia. apply Bool.andb_false_r. }
  now rewrite <- Z.lxor_lor, <- Z.add_nocarry_lxor.
Qed.

Lemma be_value_snoc (l : list Z) (b : Z) :
  be_value (l ++ [b]) = be_value l * 256 + b.
Proof. unfold be_value. now rewrite fold_left_app. Qed.

Lemma firstn_S_nth (l : list Z) (i : nat) :
  (i < length l)%nat -> firstn (S i) l = firstn i l ++ [nth i l 0].
Proof.
  revert l. induction i as [|i IH]; intros l H.
  - destruct l; [cbn in H; lia | reflexivity].
  - destruct l as [|x l]; [cbn in H; lia|]. cbn [length] in H.
    change (firstn (S (S i)) (x :: l)) with (x :: firstn (S i) l).
    rewrite (IH l ltac:(lia)). reflexivity.
Qed.

Lemma reverse_bytes_from_value (p : list Z) :
  Forall is_byte p ->
  forall n i r,
    (i + n = length p)%nat ->
    r = Z.shiftl (be_value (firstn i p)) (8 * Z.of_nat n) ->
    reverse_bytes_from p (length p) i n r = be_value p.
Proof.
  intros Hp. induction n as [|n IH]; intros i r Hin Hr.
  - cbn [reverse_bytes_from]. rewrite Hr.
    replace i with (length p) by lia. rewrite firstn_all.
    apply Z.shiftl_0_r.
  - cbn [reverse_bytes_from]. apply IH; [lia|].
    rewrite (firstn_S_nth p i ltac:(lia)), be_value_snoc.
    replace ((Z.of_nat (length p) - 1) * 8 - 8 * Z.of_nat i)
      with (8 * Z.of_nat n) by lia.
    rewrite Hr.
    replace (8 * Z.of_nat (S n)) with (8 + 8 * Z.of_nat n) by lia.
    rewrite <- Z.shiftl_shiftl by lia.
    rewrite <- Z.shiftl_lor. f_equal.
    rewrite Z.shiftl_mul_pow2 by lia. change (2 ^ 8) with 256.
    apply lor_byte. apply nth_is_byte. exact Hp.
Qed.

(** X8.  [reverse_bytes] over the bytes of a field of at most four bytes
    gives the number they spell with the first byte the most
    significant: the value of a big-endian field. *)
Theorem reverse_bytes_big_endian (p : list Z) :
  (length p <= 4)%nat ->
  Forall is_byte p -> reverse_bytes p (length p) = be_value p.
Proof.
  intros _ Hp. unfold reverse_bytes.
  apply reverse_bytes_from_value; [exact Hp | lia |].
  change (be_value (firstn 0 p)) with 0. now rewrite Z.shiftl_0_l.
Qed.

Lemma reverse_bytes_big_endian_witness :
  Forall is_byte [0x12; 0x34; 0x56; 0x78] /\
  reverse_bytes [0x12; 0x34; 0x56; 0x78] 4 = 0x12345678.
Proof.
  assert (H : Forall is_byte [0x12; 0x34; 0x56; 0x78])
    by (repeat constructor; unfold is_byte; lia).
  split; [exact H|].
  exact (reverse_bytes_big_endian [0x12; 0x34; 0x56; 0x78]
           ltac:(cbn; lia) H).
Defined.

(** *** The script tag *)

Lemma cstring_no_zero (s r : list Z) :
  Forall (fun c => c <> 0) s -> cstring (s ++ 0 :: r) = s.
Proof.
  induction 1 as [|c s Hc _ IH]; [reflexivity|].
  cbn [app cstring]. destruct (Z.eqb_spec c 0); [contradiction|].
  now rewrite IH.
Qed.

Lemma length_decimal (fuel : nat) (n : Z) :
  (1 <= length (decimal (S fuel) n))%nat.
Proof. cbn [decimal]. rewrite length_app. cbn [length]. lia. Qed.

(** A number of two digits or more. *)
Lemma length_printf_d (n : Z) : 10 <= n -> (2 <= length (printf_d n))%nat.
Proof.
  intros H. unfold printf_d.
  destruct (Z.ltb_spec n 0); [lia|].
  change (decimal 10 n)
    with ((if n <? 10 then [] else decimal 9 (n / 10)) ++ [48 + n mod 10]).
  destruct (Z.ltb_spec n 10); [lia|].
  rewrite length_app. pose proof (length_decimal 8 (n / 10)).
  cbn [length]. lia.
Qed.

(** X9.  The first AMF string of a script tag is formatted into the 100
    bytes of [scripttag_str] after 35 characters and its length in
    decimal: a string of 63 bytes or more, none of them zero, does not
    fit, and the tag has no defined outcome whatever follows the
    string. *)
Theorem long_script_name_overruns (datasize : Z) (ifh : FILE)
    (s tl : list Z) :
  f_rest ifh = 2 :: enc_len16 (length s) ++ s ++ tl ->
  (63 <= length s)%nat ->
  Z.of_nat (length s) < 65536 ->
  Forall (fun c => c <> 0) s ->
  script_tag datasize ifh = Fault.
Proof.
  intros Hrest Hlen _ Hs. unfold script_tag.
  rewrite (fgetc_cons ifh 2 _ Hrest).
  change (2 =? 2) with true. cbv iota.
  set (f1 := mkFILE (f_data ifh) (S (f_pos ifh)) (f_eof ifh)).
  assert (H1 : f_rest f1 = enc_len16 (length s) ++ s ++ tl)
    by (apply (f_rest_next ifh 2 _ _ Hrest)).
  rewrite (FlvFacts.read_len16_enc f1 (length s) _ H1). cbn [bind].
  set (f2 := mkFILE (f_data f1) (f_pos f1 + 2) (f_eof f1)).
  assert (H2 : f_rest f2 = s ++ tl).
  { unfold f2. rewrite <- (FlvFacts.length_enc_len16 (length s)).
    apply (f_rest_after f1 _ _ _ H1). }
  rewrite Nat2Z.id, (fread_app f2 s tl H2).
  replace (length s + 1 - length s)%nat with 1%nat by lia.
  cbn [repeat]. unfold scripttag_text.
  rewrite (cstring_no_zero s [] Hs).
  unfold sprintf. rewrite !length_app.
  pose proof (length_printf_d (Z.of_nat (length s)) ltac:(lia)) as Hd.
  change (length (chars "ScriptDataLen: ")) with 15%nat.
  change (length (chars ",  ScriptDataValue: ")) with 20%nat.
  destruct (Nat.ltb_spec
              (15 + (length (printf_d (Z.of_nat (length s)))
                     + (20 + length s))) 100); [lia | reflexivity].
Qed.

Lemma long_script_name_overruns_witness :
  (63 <= length (repeat 65 63))%nat /\
  Forall (fun c => c <> 0) (repeat 65 63) /\
  script_tag 70 (fopen (2 :: enc_len16 63 ++ repeat 65 63 ++ [8; 0; 0; 0; 0]))
  = Fault.
Proof.
  assert (Hl : (63 <= length (repeat 65 63))%nat)
    by (rewrite repeat_length; lia).
  assert (Hs : Forall (fun c => c <> 0) (repeat 65 63)).
  { apply Forall_forall. intros c Hc. apply repeat_spec in Hc.
    subst c. discriminate. }
  split; [exact Hl|]. split; [exact Hs|].
  exact (long_script_name_overruns 70
           (fopen (2 :: enc_len16 63 ++ repeat 65 63 ++ [8; 0; 0; 0; 0]))
           (repeat 65 63) [8; 0; 0; 0; 0] eq_refl Hl
           ltac:(rewrite repeat_length; lia) Hs).
Defined.

(** *** Keys of the list *)

Lemma listed_key_known (key : list Z) :
  listed_key key -> cstring key = key /\ known_key key = true.
Proof.
  intros (name & Hin & ->).
  repeat (destruct Hin as [<- | Hin]; [split; reflexivity|]).
  destruct Hin.
Qed.

Lemma listed_number_key_known (key : list Z) :
  listed_number_key key ->
  cstring key = key /\ known_key key = true /\
  existsb (key_is key) number_keys = true.
Proof.
  intros (name & Hin & ->).
  repeat (destruct Hin as [<- | Hin]; [repeat split; reflexivity|]).
  destruct Hin.
Qed.

(** The key of a pair, read by [ecma_element]. *)
Lemma ecma_element_key (ifh : FILE) (key rest : list Z) :
  f_rest ifh = enc_len16 (length key) ++ key ++ rest ->
  ecma_element ifh
  = (let ifh2 := mkFILE (f_data ifh) (f_pos ifh + 2 + length key) (f_eof ifh) in
     if known_key key then read_known key ifh2
     else ifh3 <- skip_value ifh2 ;; Done ([], ifh3))
  /\ f_rest (mkFILE (f_data ifh) (f_pos ifh + 2 + length key) (f_eof ifh))
     = rest.
Proof.
  intros H. unfold ecma_element.
  rewrite (FlvFacts.read_len16_enc ifh (length key) _ H). cbn [bind].
  set (f1 := mkFILE (f_data ifh) (f_pos ifh + 2) (f_eof ifh)).
  assert (H1 : f_rest f1 = key ++ rest)
    by (apply (f_rest_exact ifh (enc_len16 (length key)) _ 2); auto).
  rewrite Nat2Z.id, (fread_app f1 key rest H1).
  cbn [f1 f_data f_pos f_eof]. split; [reflexivity|].
  exact (f_rest_after f1 key rest _ H1).
Qed.

(** X10.  A key of the list with a Number: the eight bytes of the value
    are read and reported under the key, and the stream is left at the
    next pair. *)
Theorem listed_number_read (ifh : FILE) (key bits tl : list Z) :
  listed_number_key key ->
  length bits = 8%nat ->
  f_rest ifh = enc_pair key (AmfNumber bits) ++ tl ->
  exists ifh',
    ecma_element ifh = Done ([MetaNumber key (be64 bits)], ifh') /\
    f_rest ifh' = tl /\
    f_pos ifh' = (f_pos ifh + length (enc_pair key (AmfNumber bits)))%nat.
Proof.
  intros Hkey Hbits Hrest.
  destruct (listed_number_key_known key Hkey) as (Hc & Hk & Hn).
  unfold enc_pair in Hrest. rewrite <- !app_assoc in Hrest.
  destruct (ecma_element_key ifh key _ Hrest) as [-> H2].
  cbv zeta. rewrite Hk.
  set (f2 := mkFILE _ _ _) in *.
  cbn [enc_value app] in H2.
  unfold read_known.
  rewrite (fgetc_cons f2 0 (bits ++ tl) H2).
  set (f3 := mkFILE (f_data f2) (S (f_pos f2)) (f_eof f2)).
  assert (H3 : f_rest f3 = bits ++ tl)
    by (apply (f_rest_next f2 0 (bits ++ tl)); exact H2).
  change (to_uchar 0 =? 0) with true. cbv iota.
  rewrite (fread_exact f3 bits tl 8 H3 Hbits).
  rewrite Hn, Hc, Hbits. cbn [Nat.sub repeat]. rewrite app_nil_r.
  eexists. split; [reflexivity|]. split.
  - exact (f_rest_exact f3 bits tl 8 _ H3 Hbits).
  - cbn [f_pos f3 f2]. unfold enc_pair.
    rewrite !length_app. cbn [enc_value length]. rewrite Hbits.
    rewrite FlvFacts.length_enc_len16. lia.
Qed.

Lemma listed_number_read_witness :
  listed_number_key (bytes_of "width"%string) /\
  exists ifh',
    ecma_element
      (fopen (enc_pair (bytes_of "width"%string)
                (AmfNumber [64; 148; 0; 0; 0; 0; 0; 0]) ++ [0; 0; 9]))
    = Done ([MetaNumber (bytes_of "width"%string) 0x4094000000000000], ifh') /\
    f_rest ifh' = [0; 0; 9] /\ f_pos ifh' = 16%nat.
Proof.
  assert (Hk : listed_number_key (bytes_of "width"%string)).
  { exists "width"%string. split; [|reflexivity]. cbn. auto. }
  split; [exact Hk|].
  exact (listed_number_read
           (fopen (enc_pair (bytes_of "width"%string)
                     (AmfNumber [64; 148; 0; 0; 0; 0; 0; 0]) ++ [0; 0; 9]))
           (bytes_of "width"%string) [64; 148; 0; 0; 0; 0; 0; 0] [0; 0; 9]
           Hk eq_refl eq_refl).
Defined.

(** X11.  A key of the list with a String: only the type byte of the
    value is read.  The stream is left at the two length bytes of the
    string, which the next turn takes for the length of a key. *)
Theorem listed_key_string_left (ifh : FILE) (key s tl : list Z) :
  listed_key key ->
  f_rest ifh = enc_pair key (AmfString s) ++ tl ->
  exists ifh',
    ecma_element ifh = Done ([], ifh') /\
    f_rest ifh' = enc_len16 (length s) ++ s ++ tl.
Proof.
  intros Hkey Hrest.
  destruct (listed_key_known key Hkey) as (Hc & Hk).
  unfold enc_pair in Hrest. rewrite <- !app_assoc in Hrest.
  destruct (ecma_element_key ifh key _ Hrest) as [-> H2].
  cbv zeta. rewrite Hk.
  set (f2 := mkFILE _ _ _) in *.
  cbn [enc_value app] in H2.
  unfold read_known.
  rewrite (fgetc_cons f2 2 _ H2).
  change (to_uchar 2 =? 0) with false.
  change (to_uchar 2 =? 1) with false. cbv iota.
  eexists. split; [reflexivity|].
  rewrite (f_rest_next f2 2 _ _ H2). now rewrite <- app_assoc.
Qed.

Lemma listed_key_string_left_witness :
  listed_key (bytes_of "width"%string) /\
  exists ifh',
    ecma_element
      (fopen (enc_pair (bytes_of "width"%string) (AmfString [65; 66]) ++ [7]))
    = Done ([], ifh') /\
    f_rest ifh' = [0; 2; 65; 66; 7].
Proof.
  assert (Hk : listed_key (bytes_of "width"%string)).
  { exists "width"%string. split; [|reflexivity]. cbn. auto. }
  split; [exact Hk|].
  exact (listed_key_string_left
           (fopen (enc_pair (bytes_of "width"%string) (AmfString [65; 66])
                   ++ [7]))
           (bytes_of "width"%string) [65; 66] [7] Hk eq_refl).
Defined.

End FlvFileFacts.
(** ** RTP packets *)

Module RtpPacketFacts.
Import Rtp RtpPackets.

Lemma land_15 (x : Z) : Z.land x 0x0f = x mod 16.
Proof. change 0x0f with (Z.ones 4). now rewrite Z.land_ones by lia. Qed.

Lemma land_1 (x : Z) : Z.land x 1 = x mod 2.
Proof. change 1 with (Z.ones 1) at 1. now rewrite Z.land_ones by lia. Qed.

Lemma land_3 (x : Z) : Z.land x 3 = x mod 4.
Proof. change 3 with (Z.ones 2). now rewrite Z.land_ones by lia. Qed.

Lemma land_127 (x : Z) : Z.land x 0x7f = x mod 128.
Proof. change 0x7f with (Z.ones 7). now rewrite Z.land_ones by lia. Qed.

Lemma rtp_header_decode (h : RTP_FIXED_HEADER) (data : list Z) :
  wf_header h -> rtp_header_of (enc_header h ++ data) = h.
Proof.
  destruct h as [cc x p v pt m sq ts ss].
  unfold wf_header, enc_header. cbn [csrc_len extension padding version
    payload marker seq_no timestamp ssrc].
  intros (Hcc & Hx & Hp & Hv & Hpt & Hm & Hsq & Hts & Hss).
  unfold rtp_header_of. cbn [app nth skipn].
  rewrite firstn_app, Hss, Nat.sub_diag, firstn_all2 by lia.
  cbn [firstn]. rewrite app_nil_r.
  rewrite land_15, !land_1, land_3, land_127.
  rewrite !Z.shiftr_div_pow2 by lia.
  change (2 ^ 4) with 16. change (2 ^ 5) with 32. change (2 ^ 6) with 64.
  change (2 ^ 7) with 128.
  f_equal.
  - Z.div_mod_to_equations. lia.
  - Z.div_mod_to_equations. lia.
  - Z.div_mod_to_equations. lia.
  - Z.div_mod_to_equations. lia.
  - Z.div_mod_to_equations. lia.
  - Z.div_mod_to_equations. lia.
  - Z.div_mod_to_equations. lia.
  - replace (ts / 16777216) with (ts / 256 / 256 / 256)
      by (rewrite !Z.div_div by lia; reflexivity).
    replace (ts / 65536) with (ts / 256 / 256)
      by (rewrite !Z.div_div by lia; reflexivity).
    Z.div_mod_to_equations. lia.
Qed.

(** X12.  The fields read from [recvData] are those of the RTP header as
    RFC 3550 lays it out: decoding the twelve bytes of a header gives
    back its fields, sequence number and timestamp in host order
    included. *)
Theorem rtp_header_round_trip (h : RTP_FIXED_HEADER) (data : list Z) :
  wf_header h -> rtp_header_of (enc_header h ++ data) = h.
Proof. apply rtp_header_decode. Qed.

Lemma rtp_header_round_trip_witness :
  wf_header (mkRtp 0 0 0 2 33 1 4660 305419896 [0xde; 0xad; 0xbe; 0xef]) /\
  rtp_header_of [0x80; 0xa1; 0x12; 0x34; 0x12; 0x34; 0x56; 0x78;
                 0xde; 0xad; 0xbe; 0xef; 0x47]
  = mkRtp 0 0 0 2 33 1 4660 305419896 [0xde; 0xad; 0xbe; 0xef].
Proof.
  assert (H : wf_header
                (mkRtp 0 0 0 2 33 1 4660 305419896 [0xde; 0xad; 0xbe; 0xef]))
    by (unfold wf_header; cbn; repeat split; lia).
  split; [exact H|].
  exact (rtp_header_round_trip _ [0x47] H).
Defined.

Lemma rtp_header_of_app (got rest : list Z) :
  (12 <= length got)%nat ->
  rtp_header_of (got ++ rest) = rtp_header_of got.
Proof.
  intros H. unfold rtp_header_of.
  rewrite !app_nth1 by lia.
  f_equal.
  rewrite skipn_app, firstn_app.
  replace (4 - length (skipn 8 got))%nat with 0%nat
    by (rewrite length_skipn; lia).
  cbn [firstn]. apply app_nil_r.
Qed.

Lemma payload_range (recvData : list Z) :
  0 <= payload (rtp_header_of recvData) < 128.
Proof.
  unfold rtp_header_of. cbn [payload]. rewrite land_127.
  apply Z.mod_pos_bound. lia.
Qed.

(** The types whose text fits [payload_str], and those whose text does
    not. *)
Lemma format_payload_cases (p : Z) :
  0 <= p < 128 ->
  format_payload p
  = if existsb (Z.eqb p) long_text_types then Fault
    else Done (short_text p).
Proof.
  intros H.
  assert (E : forall n : nat, (n < 128)%nat ->
            format_payload (Z.of_nat n)
            = if existsb (Z.eqb (Z.of_nat n)) long_text_types then Fault
              else Done (short_text (Z.of_nat n))).
  { intros n Hn.
    do 128 (destruct n as [|n]; [vm_compute; reflexivity|]). lia. }
  rewrite <- (Z2Nat.id p) by lia. apply E. lia.
Qed.

Lemma long_text_listed (p : Z) :
  existsb (Z.eqb p) long_text_types = true <-> In p long_text_types.
Proof.
  rewrite existsb_exists. split.
  - intros (x & Hin & E). apply Z.eqb_eq in E. now subst x.
  - intros Hin. exists p. split; [exact Hin | apply Z.eqb_refl].
Qed.

Lemma udp_step_whole (recvData : list Z) (cnt : Z) (dgram : list Z) :
  (12 <= length dgram <= RECVDATA_SIZE)%nat ->
  udp_step recvData cnt dgram
  = (text <- format_payload (payload (rtp_header_of dgram)) ;;
     Done (dgram ++ skipn (length dgram) recvData, cnt + 1,
           Some (mkEvent cnt (rtp_header_of dgram) text
                   (Z.of_nat (length dgram)) (skipn 12 dgram)
                   (if payload (rtp_header_of dgram) =? 33
                    then length (leading_ts (skipn 12 dgram))
                    else 0%nat)))).
Proof.
  intros [H12 Hmax]. unfold udp_step.
  rewrite (firstn_all2 dgram) by exact Hmax.
  rewrite RtpFacts.memcpy_at_start.
  destruct (Z.ltb_spec 0 (Z.of_nat (length dgram))); [|lia].
  destruct (Nat.ltb_spec (length (dgram ++ skipn (length dgram) recvData)) 8)
    as [H8 | _]; [rewrite length_app in H8; lia|].
  unfold rtp_header_size. cbv zeta.
  rewrite (rtp_header_of_app dgram _ H12).
  destruct (format_payload (payload (rtp_header_of dgram))) as [text| |];
    [|reflexivity | reflexivity].
  cbn [bind]. unfold fwrite_rtp.
  change (2 ^ 64) with 18446744073709551616.
  unfold RECVDATA_SIZE in Hmax.
  rewrite Z.mod_small by lia.
  change (Z.to_nat 12) with 12%nat.
  destruct (Z.leb_spec (Z.of_nat (length dgram) - 12)
              (Z.of_nat (length (skipn 12 (dgram ++ skipn (length dgram)
                                                    recvData)))))
    as [_ | Hgt];
    [|rewrite length_skipn, length_app in Hgt; lia].
  cbn [bind].
  replace (Z.to_nat (Z.of_nat (length dgram) - 12))
    with (length dgram - 12)%nat by lia.
  rewrite RtpFacts.rtp_payload_bytes.
  rewrite RtpFacts.mpegts_packets_payload.
  reflexivity.
Qed.

(** X13.  A datagram of at least the twelve header bytes that fits
    [recvData], of a payload type whose line does not name the encoding:
    the line shows the header of the datagram itself, whatever the
    buffer held before, with the text [media type:Audio] for the types 1
    and 2 and no text for the others; the dump file gets the bytes after
    the header, no MPEG-TS packet is listed, and the packet is
    counted. *)
Theorem whole_datagram_event (recvData : list Z) (cnt : Z) (dgram : list Z) :
  (12 <= length dgram <= RECVDATA_SIZE)%nat ->
  ~ In (payload (rtp_header_of dgram)) long_text_types ->
  udp_step recvData cnt dgram
  = Done (dgram ++ skipn (length dgram) recvData, cnt + 1,
          Some (mkEvent cnt (rtp_header_of dgram)
                  (short_text (payload (rtp_header_of dgram)))
                  (Z.of_nat (length dgram)) (skipn 12 dgram) 0)).
Proof.
  intros Hlen Hpt. rewrite (udp_step_whole recvData cnt dgram Hlen).
  rewrite (format_payload_cases _ (payload_range dgram)).
  destruct (existsb (Z.eqb (payload (rtp_header_of dgram))) long_text_types)
    eqn:E.
  - apply long_text_listed in E. contradiction.
  - cbn [bind].
    destruct (Z.eqb_spec (payload (rtp_header_of dgram)) 33) as [E33 | _];
      [|reflexivity].
    exfalso. apply Hpt. rewrite E33. cbn. tauto.
Qed.

Lemma whole_datagram_event_witness :
  (12 <= length audio_datagram <= RECVDATA_SIZE)%nat /\
  udp_step (repeat 7 20) 5 audio_datagram
  = Done (audio_datagram ++ repeat 7 5, 6,
          Some (mkEvent 5 (mkRtp 0 0 0 2 1 0 1 2 [0; 0; 0; 3])
                  (chars "media type:Audio") 15 [7; 8; 9] 0)).
Proof.
  assert (H : (12 <= length audio_datagram <= RECVDATA_SIZE)%nat)
    by (unfold RECVDATA_SIZE; cbn [length audio_datagram]; lia).
  split; [exact H|].
  exact (whole_datagram_event (repeat 7 20) 5 audio_datagram H
           ltac:(cbn; intuition discriminate)).
Defined.

(** X14.  For the payload types 0, 3 to 18, 25, 26, 31 to 34 and 96 the
    line names the encoding, in 50 characters or more: [sprintf] stores
    the text past the 50 bytes of [payload_str], and a datagram of such
    a type has no defined outcome, whatever it holds after its second
    byte. *)
Theorem long_text_overruns (recvData : list Z) (cnt : Z) (dgram : list Z) :
  (2 <= length dgram)%nat ->
  In (Z.land (nth 1 dgram 0) 0x7f) long_text_types ->
  udp_step recvData cnt dgram = Fault.
Proof.
  intros Hlen Hin. apply RtpFacts.udp_step_long_text; [exact Hlen|].
  rewrite format_payload_cases
    by (rewrite land_127; apply Z.mod_pos_bound; lia).
  apply long_text_listed in Hin. now rewrite Hin.
Qed.

Lemma long_text_overruns_witness :
  (2 <= length pcma_datagram)%nat /\
  In (Z.land (nth 1 pcma_datagram 0) 0x7f) long_text_types /\
  udp_step [] 0 pcma_datagram = Fault.
Proof.
  assert (Hl : (2 <= length pcma_datagram)%nat)
    by (cbn [length pcma_datagram]; lia).
  assert (Hp : In (Z.land (nth 1 pcma_datagram 0) 0x7f) long_text_types)
    by (cbn; tauto).
  split; [exact Hl|]. split; [exact Hp|].
  exact (long_text_overruns [] 0 pcma_datagram Hl Hp).
Defined.

End RtpPacketFacts.
(** ** PCM samples *)

Module PcmFacts.
Import Pcm PcmSamples.

Lemma channels_whole (sample : list Z) :
  length sample = 4%nat -> left_channel sample ++ right_channel sample = sample.
Proof.
  intros H. destruct sample as [|a [|b [|c [|d [|e s]]]]]; try discriminate.
  reflexivity.
Qed.

(** *** [simplest_pcm16le_split] *)

Lemma pcm16le_split_loop_spec (tail : list Z) :
  (length tail < 4)%nat ->
  forall samples sample fp fp1 fp2 fuel,
    Forall (fun s => length s = 4%nat) samples ->
    f_rest fp = concat samples ++ tail ->
    f_eof fp = false ->
    length sample = 4%nat ->
    (length samples + 1 < fuel)%nat ->
    pcm16le_split_loop fuel fp sample fp1 fp2
    = Done (fp1 ++ concat (map left_channel samples)
              ++ left_channel (last_read samples tail sample),
            fp2 ++ concat (map right_channel samples)
              ++ right_channel (last_read samples tail sample)).
Proof.
  intros Htail.
  induction samples as [|s samples IH];
    intros sample fp fp1 fp2 fuel Hall Hrest Heof Hlen Hfuel.
  - destruct fuel as [|[|fuel]]; [cbn in Hfuel; lia | cbn in Hfuel; lia |].
    cbn [concat app] in Hrest.
    cbn [pcm16le_split_loop]. unfold feof at 1. rewrite Heof.
    rewrite fread_short by (rewrite Hrest; exact Htail).
    rewrite Hrest. cbn [feof f_eof].
    reflexivity.
  - inversion Hall as [|? ? Hs Hrest']; subst.
    destruct fuel as [|fuel]; [cbn in Hfuel; lia|]. cbn [length] in Hfuel.
    cbn [concat] in Hrest. rewrite <- app_assoc in Hrest.
    cbn [pcm16le_split_loop]. unfold feof at 1. rewrite Heof.
    rewrite (fread_exact fp s _ 4 Hrest Hs).
    rewrite (memcpy_at_whole sample s) by lia.
    rewrite (IH s _ (fp1 ++ left_channel s) (fp2 ++ right_channel s) fuel Hrest').
    + unfold last_read. rewrite last_cons. cbn [map concat].
      now rewrite <- !app_assoc.
    + exact (f_rest_exact fp s _ 4 _ Hrest Hs).
    + exact Heof.
    + exact Hs.
    + lia.
Qed.

Lemma length_concat_le (n : nat) (samples : list (list Z)) :
  (1 <= n)%nat ->
  Forall (fun s => length s = n) samples ->
  (length samples <= length (concat samples))%nat.
Proof.
  intros Hn. induction 1 as [|s samples Hs _ IH]; [cbn; lia|].
  cbn [concat length]. rewrite length_app. lia.
Qed.

(** X15.  [simplest_pcm16le_split] on a file of whole samples of four
    bytes and fewer than four bytes more: the two files get the left and
    the right halves of the samples, and then those of one sample more,
    written by the turn that finds the end of the file.  On a file of
    whole samples that is the last sample again. *)
Theorem pcm16le_split_outputs (samples : list (list Z))
    (tail sample0 : list Z) :
  Forall (fun s => length s = 4%nat) samples ->
  (length tail < 4)%nat ->
  length sample0 = 4%nat ->
  simplest_pcm16le_split (concat samples ++ tail) sample0
  = Done (concat (map left_channel samples)
            ++ left_channel (last_read samples tail sample0),
          concat (map right_channel samples)
            ++ right_channel (last_read samples tail sample0)).
Proof.
  intros Hall Htail Hlen. unfold simplest_pcm16le_split.
  rewrite (pcm16le_split_loop_spec tail Htail samples sample0
             (fopen (concat samples ++ tail)) [] []
             _ Hall eq_refl eq_refl Hlen).
  - reflexivity.
  - rewrite length_app.
    pose proof (length_concat_le 4 samples ltac:(lia) Hall). lia.
Qed.

Lemma pcm16le_split_outputs_witness :
  Forall (fun s => length s = 4%nat) [[1; 2; 3; 4]; [5; 6; 7; 8]] /\
  simplest_pcm16le_split [1; 2; 3; 4; 5; 6; 7; 8] [0; 0; 0; 0]
  = Done ([1; 2; 5; 6; 5; 6], [3; 4; 7; 8; 7; 8]).
Proof.
  assert (H : Forall (fun s => length s = 4%nat) [[1; 2; 3; 4]; [5; 6; 7; 8]])
    by (repeat constructor).
  split; [exact H|].
  exact (pcm16le_split_outputs [[1; 2; 3; 4]; [5; 6; 7; 8]] [] [0; 0; 0; 0]
           H ltac:(cbn; lia) eq_refl).
Defined.

(** *** [simplest_pcm16le_halfvolumeleft] *)

Lemma length_halve_left (sample : list Z) :
  length sample = 4%nat -> length (halve_left sample) = 4%nat.
Proof.
  intros H. unfold halve_left. rewrite length_memcpy_at; [exact H|].
  cbn [short_bytes length]. lia.
Qed.

Lemma pcm16le_halfvolumeleft_loop_spec (tail : list Z) :
  (length tail < 4)%nat ->
  forall samples sample fp fp1 cnt fuel,
    Forall (fun s => length s = 4%nat) samples ->
    f_rest fp = concat samples ++ tail ->
    f_eof fp = false ->
    length sample = 4%nat ->
    (length samples + 1 < fuel)%nat ->
    pcm16le_halfvolumeleft_loop fuel fp sample fp1 cnt
    = Done (fp1 ++ concat (map halve_left samples)
              ++ halve_left
                   (last_read (map halve_left samples) tail sample),
            cnt + Z.of_nat (length samples) + 1).
Proof.
  intros Htail.
  induction samples as [|s samples IH];
    intros sample fp fp1 cnt fuel Hall Hrest Heof Hlen Hfuel.
  - destruct fuel as [|[|fuel]]; [cbn in Hfuel; lia | cbn in Hfuel; lia |].
    cbn [concat app] in Hrest.
    cbn [pcm16le_halfvolumeleft_loop]. unfold feof at 1. rewrite Heof.
    rewrite fread_short by (rewrite Hrest; exact Htail).
    rewrite Hrest. cbn [feof f_eof map concat app last length Z.of_nat].
    unfold last_read. cbn [last].
    rewrite channels_whole.
    + do 2 f_equal. lia.
    + apply length_halve_left. rewrite length_memcpy_at; [exact Hlen | lia].
  - inversion Hall as [|? ? Hs Hrest']; subst.
    destruct fuel as [|fuel]; [cbn in Hfuel; lia|]. cbn [length] in Hfuel.
    cbn [concat] in Hrest. rewrite <- app_assoc in Hrest.
    cbn [pcm16le_halfvolumeleft_loop]. unfold feof at 1. rewrite Heof.
    rewrite (fread_exact fp s _ 4 Hrest Hs).
    rewrite (memcpy_at_whole sample s) by lia.
    rewrite (channels_whole (halve_left s)) by (now apply length_halve_left).
    rewrite (IH (halve_left s) _ (fp1 ++ halve_left s) (cnt + 1) fuel Hrest').
    + unfold last_read. cbn [map]. rewrite last_cons. cbn [concat].
      rewrite <- !app_assoc. do 2 f_equal. cbn [length]. lia.
    + exact (f_rest_exact fp s _ 4 _ Hrest Hs).
    + exact Heof.
    + now apply length_halve_left.
    + lia.
Qed.

(** X16.  [simplest_pcm16le_halfvolumeleft] on a file of whole samples
    and fewer than four bytes more: every sample is written with its
    left half halved, then one sample more, and the count printed is one
    more than the samples.  The sample more is made from the block as the
    turn before left it: on a file of whole samples, the last sample with
    its left half halved a second time. *)
Theorem pcm16le_halfvolumeleft_output (samples : list (list Z))
    (tail sample0 : list Z) :
  Forall (fun s => length s = 4%nat) samples ->
  (length tail < 4)%nat ->
  length sample0 = 4%nat ->
  simplest_pcm16le_halfvolumeleft (concat samples ++ tail) sample0
  = Done (concat (map halve_left samples)
            ++ halve_left (last_read (map halve_left samples) tail sample0),
          Z.of_nat (length samples) + 1).
Proof.
  intros Hall Htail Hlen. unfold simplest_pcm16le_halfvolumeleft.
  rewrite (pcm16le_halfvolumeleft_loop_spec tail Htail samples sample0
             (fopen (concat samples ++ tail)) []
             0 _ Hall eq_refl eq_refl Hlen).
  - reflexivity.
  - rewrite length_app.
    pose proof (length_concat_le 4 samples ltac:(lia) Hall). lia.
Qed.

Lemma pcm16le_halfvolumeleft_output_witness :
  Forall (fun s => length s = 4%nat) [[100; 0; 3; 4]; [0xf8; 0xff; 7; 8]] /\
  simplest_pcm16le_halfvolumeleft [100; 0; 3; 4; 0xf8; 0xff; 7; 8]
    [0; 0; 0; 0]
  = Done ([50; 0; 3; 4; 0xfc; 0xff; 7; 8; 0xfe; 0xff; 7; 8], 3).
Proof.
  assert (H : Forall (fun s => length s = 4%nat)
                [[100; 0; 3; 4]; [0xf8; 0xff; 7; 8]])
    by (repeat constructor).
  split; [exact H|].
  exact (pcm16le_halfvolumeleft_output [[100; 0; 3; 4]; [0xf8; 0xff; 7; 8]]
           [] [0; 0; 0; 0] H ltac:(cbn; lia) eq_refl).
Defined.

Lemma to_short_range (lo hi : Z) :
  is_byte lo -> is_byte hi -> -32768 <= to_short lo hi < 32768.
Proof.
  unfold is_byte, to_short. intros Hlo Hhi. cbv zeta.
  destruct (Z.ltb_spec (lo + 256 * hi) 32768); lia.
Qed.

Lemma to_short_bytes (v : Z) :
  -32768 <= v < 32768 ->
  to_short (nth 0 (short_bytes v) 0) (nth 1 (short_bytes v) 0) = v.
Proof.
  intros Hv. unfold short_bytes, to_short. cbn [nth]. cbv zeta.
  destruct (Z.ltb_spec (v mod 256 + 256 * ((v / 256) mod 256)) 32768);
    Z.div_mod_to_equations; lia.
Qed.

(** X17.  The left_channel sample that [simplest_pcm16le_halfvolumeleft] writes
    is the sample read, halved with rounding towards zero; the bytes of
    the right_channel sample are kept. *)
Theorem halve_left_value (sample : list Z) :
  length sample = 4%nat ->
  Forall is_byte sample ->
  to_short (nth 0 (halve_left sample) 0) (nth 1 (halve_left sample) 0)
  = Z.quot (to_short (nth 0 sample 0) (nth 1 sample 0)) 2 /\
  right_channel (halve_left sample) = right_channel sample.
Proof.
  intros Hlen Hb.
  destruct sample as [|a [|b [|c [|d [|e s]]]]]; try discriminate.
  assert (Ha : is_byte a) by (exact (nth_is_byte _ 0 Hb)).
  assert (Hb' : is_byte b) by (exact (nth_is_byte _ 1 Hb)).
  pose proof (to_short_range a b Ha Hb') as Hr.
  unfold halve_left. cbn [nth].
  set (v := Z.quot (to_short a b) 2).
  assert (Hv : -32768 <= v < 32768).
  { unfold v. pose proof (Z.quot_pos (to_short a b) 2).
    destruct (Z.le_gt_cases 0 (to_short a b)).
    - pose proof (Z.quot_le_upper_bound (to_short a b) 2 32767).
      pose proof (Z.quot_pos (to_short a b) 2). lia.
    - pose proof (Z.quot_opp_l (to_short a b) 2 ltac:(lia)).
      pose proof (Z.quot_pos (- to_short a b) 2 ltac:(lia) ltac:(lia)).
      pose proof (Z.quot_le_upper_bound (- to_short a b) 2 32768
                    ltac:(lia) ltac:(lia)).
      lia. }
  split.
  - exact (to_short_bytes v Hv).
  - reflexivity.
Qed.

Lemma halve_left_value_witness :
  Forall is_byte [0xfb; 0xff; 7; 8] /\
  to_short 0xfb 0xff = -5 /\
  to_short (nth 0 (halve_left [0xfb; 0xff; 7; 8]) 0)
           (nth 1 (halve_left [0xfb; 0xff; 7; 8]) 0) = -2 /\
  right_channel (halve_left [0xfb; 0xff; 7; 8]) = [7; 8].
Proof.
  assert (H : Forall is_byte [0xfb; 0xff; 7; 8])
    by (repeat constructor; unfold is_byte; lia).
  split; [exact H|]. split; [reflexivity|].
  exact (halve_left_value [0xfb; 0xff; 7; 8] eq_refl H).
Defined.

(** *** [simplest_pcm16le_doublespeed] *)

Lemma rem2_odd (cnt : Z) :
  0 <= cnt -> negb (Z.rem cnt 2 =? 0) = Z.odd cnt.
Proof.
  intros H. rewrite Z.rem_mod_nonneg by lia.
  rewrite Zmod_odd. destruct (Z.odd cnt); reflexivity.
Qed.

Lemma pcm16le_doublespeed_loop_spec (tail : list Z) :
  (length tail < 4)%nat ->
  forall samples sample fp fp1 cnt fuel,
    Forall (fun s => length s = 4%nat) samples ->
    f_rest fp = concat samples ++ tail ->
    f_eof fp = false ->
    length sample = 4%nat ->
    0 <= cnt ->
    (length samples + 1 < fuel)%nat ->
    pcm16le_doublespeed_loop fuel fp sample fp1 cnt
    = Done (fp1 ++ concat (every_other (Z.odd cnt)
                             (samples ++ [last_read samples tail sample])),
            cnt + Z.of_nat (length samples) + 1).
Proof.
  intros Htail.
  induction samples as [|s samples IH];
    intros sample fp fp1 cnt fuel Hall Hrest Heof Hlen Hcnt Hfuel.
  - destruct fuel as [|[|fuel]]; [cbn in Hfuel; lia | cbn in Hfuel; lia |].
    cbn [concat app] in Hrest.
    cbn [pcm16le_doublespeed_loop]. unfold feof at 1. rewrite Heof.
    rewrite fread_short by (rewrite Hrest; exact Htail).
    rewrite Hrest. cbn [feof f_eof app every_other length Z.of_nat].
    rewrite (rem2_odd cnt Hcnt). unfold last_read. cbn [last].
    rewrite channels_whole
      by (rewrite length_memcpy_at; [exact Hlen | lia]).
    f_equal. f_equal.
    + destruct (Z.odd cnt); cbn [app concat]; now rewrite ?app_nil_r.
    + lia.
  - inversion Hall as [|? ? Hs Hrest']; subst.
    destruct fuel as [|fuel]; [cbn in Hfuel; lia|]. cbn [length] in Hfuel.
    cbn [concat] in Hrest. rewrite <- app_assoc in Hrest.
    cbn [pcm16le_doublespeed_loop]. unfold feof at 1. rewrite Heof.
    rewrite (fread_exact fp s _ 4 Hrest Hs).
    rewrite (memcpy_at_whole sample s) by lia.
    rewrite (channels_whole s Hs), (rem2_odd cnt Hcnt).
    rewrite (IH s _ _ (cnt + 1) fuel Hrest').
    + unfold last_read. rewrite last_cons.
      replace (Z.odd (cnt + 1)) with (negb (Z.odd cnt))
        by (rewrite Z.add_1_r, Z.odd_succ, <- Z.negb_odd; reflexivity).
      cbn [app every_other length].
      f_equal. f_equal.
      * destruct (Z.odd cnt); cbn [app concat negb];
          now rewrite <- ?app_assoc.
      * lia.
    + exact (f_rest_exact fp s _ 4 _ Hrest Hs).
    + exact Heof.
    + exact Hs.
    + lia.
    + lia.
Qed.

(** X18.  [simplest_pcm16le_doublespeed] keeps every other sample, from
    the second one on, of the samples of the file followed by the sample
    of the turn that finds the end of the file: on a file of an odd
    number of whole samples the last sample is kept although its place
    is the first, third, ... *)
Theorem pcm16le_doublespeed_output (samples : list (list Z))
    (tail sample0 : list Z) :
  Forall (fun s => length s = 4%nat) samples ->
  (length tail < 4)%nat ->
  length sample0 = 4%nat ->
  simplest_pcm16le_doublespeed (concat samples ++ tail) sample0
  = Done (concat (every_other false
                    (samples ++ [last_read samples tail sample0])),
          Z.of_nat (length samples) + 1).
Proof.
  intros Hall Htail Hlen. unfold simplest_pcm16le_doublespeed.
  rewrite (pcm16le_doublespeed_loop_spec tail Htail samples sample0
             (fopen (concat samples ++ tail)) [] 0 _ Hall eq_refl eq_refl
             Hlen ltac:(lia)).
  - reflexivity.
  - rewrite length_app.
    pose proof (length_concat_le 4 samples ltac:(lia) Hall). lia.
Qed.

Lemma pcm16le_doublespeed_output_witness :
  Forall (fun s => length s = 4%nat)
    [[1; 1; 1; 1]; [2; 2; 2; 2]; [3; 3; 3; 3]] /\
  simplest_pcm16le_doublespeed [1; 1; 1; 1; 2; 2; 2; 2; 3; 3; 3; 3]
    [0; 0; 0; 0]
  = Done ([2; 2; 2; 2; 3; 3; 3; 3], 4).
Proof.
  assert (H : Forall (fun s => length s = 4%nat)
                [[1; 1; 1; 1]; [2; 2; 2; 2]; [3; 3; 3; 3]])
    by (repeat constructor).
  split; [exact H|].
  exact (pcm16le_doublespeed_output
           [[1; 1; 1; 1]; [2; 2; 2; 2]; [3; 3; 3; 3]] [] [0; 0; 0; 0]
           H ltac:(cbn; lia) eq_refl).
Defined.

(** *** [simplest_pcm16le_to_pcm8] *)

(** X19.  The byte that [simplest_pcm16le_to_pcm8] writes for a sample
    of value [s], from -32768 to 32767, is [(s + 32768) / 256]: the
    sample moved to the range from 0 to 65535 and cut to its high
    byte. *)
Theorem pcm8_of_value (lo hi : Z) :
  is_byte lo -> is_byte hi ->
  pcm8_of lo hi = (to_short lo hi + 32768) / 256 /\
  0 <= pcm8_of lo hi < 256.
Proof.
  unfold is_byte, pcm8_of, to_short, to_char, to_uchar. intros Hlo Hhi.
  cbv zeta. rewrite Z.shiftr_div_pow2 by lia. change (2 ^ 8) with 256.
  destruct (Z.ltb_spec (lo + 256 * hi) 32768);
    split; Z.div_mod_to_equations; lia.
Qed.

Lemma pcm8_of_value_witness :
  is_byte 0x34 /\ is_byte 0x92 /\
  to_short 0x34 0x92 = -28108 /\
  pcm8_of 0x34 0x92 = 18.
Proof.
  assert (H1 : is_byte 0x34) by (unfold is_byte; lia).
  assert (H2 : is_byte 0x92) by (unfold is_byte; lia).
  split; [exact H1|]. split; [exact H2|]. split; [reflexivity|].
  exact (proj1 (pcm8_of_value 0x34 0x92 H1 H2)).
Defined.

(** *** [simplest_pcm16le_cut_singlechannel] *)

(** Where the sum of the start point and the length is an [int], the
    test is that of the two comparisons. *)
Lemma in_cut_fits (start dur : nat) (cnt : Z) :
  Z.of_nat start + Z.of_nat dur <= INT_MAX ->
  in_cut (Z.of_nat start) (Z.of_nat dur) cnt
  = Done ((Z.of_nat start <? cnt)
          && (cnt <=? Z.of_nat start + Z.of_nat dur)).
Proof.
  intros H. unfold in_cut, int_add, INT_MIN, INT_MAX in *.
  destruct (Z.of_nat start <? cnt); [|reflexivity].
  destruct (Z.leb_spec (-2147483648) (Z.of_nat start + Z.of_nat dur));
    [|lia].
  destruct (Z.leb_spec (Z.of_nat start + Z.of_nat dur) 2147483647);
    [|lia].
  reflexivity.
Qed.

Lemma pcm16le_cut_loop_spec (tail : list Z) (start dur : nat) :
  Z.of_nat start + Z.of_nat dur <= INT_MAX ->
  (length tail < 2)%nat ->
  forall samples sample fp fp1 (cnt : nat) fuel,
    Forall (fun s => length s = 2%nat) samples ->
    f_rest fp = concat samples ++ tail ->
    f_eof fp = false ->
    length sample = 2%nat ->
    (length samples + 1 < fuel)%nat ->
    pcm16le_cut_loop fuel fp sample (Z.of_nat start) (Z.of_nat dur) fp1
      (Z.of_nat cnt)
    = Done (fp1 ++ concat
              (firstn (start + dur + 1 - Nat.max cnt (start + 1))
                 (skipn (start + 1 - cnt)
                    (samples ++ [last_read samples tail sample])))).
Proof.
  intros Hsum Htail.
  assert (Hstep : forall (x : list Z) (l : list (list Z)) (cnt : nat),
            (if (Z.of_nat start <? Z.of_nat cnt)
                && (Z.of_nat cnt <=? Z.of_nat start + Z.of_nat dur)
             then [x] else [])
            ++ firstn (start + dur + 1 - Nat.max (S cnt) (start + 1))
                 (skipn (start + 1 - S cnt) l)
            = firstn (start + dur + 1 - Nat.max cnt (start + 1))
                (skipn (start + 1 - cnt) (x :: l))).
  { intros x l cnt.
    destruct (Z.ltb_spec (Z.of_nat start) (Z.of_nat cnt)) as [Hlt | Hge];
      cbn [andb].
    - replace (start + 1 - cnt)%nat with 0%nat by lia.
      replace (start + 1 - S cnt)%nat with 0%nat by lia.
      cbn [skipn].
      destruct (Z.leb_spec (Z.of_nat cnt) (Z.of_nat start + Z.of_nat dur)).
      + replace (start + dur + 1 - Nat.max cnt (start + 1))%nat
          with (S (start + dur + 1 - Nat.max (S cnt) (start + 1)))%nat by lia.
        reflexivity.
      + replace (start + dur + 1 - Nat.max cnt (start + 1))%nat
          with 0%nat by lia.
        replace (start + dur + 1 - Nat.max (S cnt) (start + 1))%nat
          with 0%nat by lia.
        reflexivity.
    - replace (start + 1 - cnt)%nat with (S (start + 1 - S cnt))%nat by lia.
      cbn [skipn app].
      replace (Nat.max (S cnt) (start + 1)) with (start + 1)%nat by lia.
      replace (Nat.max cnt (start + 1)) with (start + 1)%nat by lia.
      reflexivity. }
  induction samples as [|s samples IH];
    intros sample fp fp1 cnt fuel Hall Hrest Heof Hlen Hfuel.
  - destruct fuel as [|[|fuel]]; [cbn in Hfuel; lia | cbn in Hfuel; lia |].
    cbn [concat app] in Hrest.
    cbn [pcm16le_cut_loop]. unfold feof at 1. rewrite Heof.
    rewrite fread_short by (rewrite Hrest; exact Htail).
    rewrite (in_cut_fits start dur _ Hsum). cbn [bind].
    rewrite Hrest. cbn [feof f_eof app].
    unfold last_read. cbn [last].
    set (final := memcpy_at sample 0 tail).
    assert (Hf : firstn 2 final = final).
    { apply firstn_all2. unfold final.
      rewrite length_memcpy_at; lia. }
    rewrite Hf. rewrite <- (Hstep final [] cnt).
    rewrite skipn_nil, firstn_nil.
    f_equal.
    destruct ((Z.of_nat start <? Z.of_nat cnt)
              && (Z.of_nat cnt <=? Z.of_nat start + Z.of_nat dur));
      cbn [app concat]; now rewrite ?app_nil_r.
  - inversion Hall as [|? ? Hs Hrest']; subst.
    destruct fuel as [|fuel]; [cbn in Hfuel; lia|]. cbn [length] in Hfuel.
    cbn [concat] in Hrest. rewrite <- app_assoc in Hrest.
    cbn [pcm16le_cut_loop]. unfold feof at 1. rewrite Heof.
    rewrite (fread_exact fp s _ 2 Hrest Hs).
    rewrite (in_cut_fits start dur _ Hsum). cbn [bind].
    rewrite (memcpy_at_whole sample s) by lia.
    rewrite (firstn_all2 (n := 2) s) by lia.
    replace (Z.of_nat cnt + 1) with (Z.of_nat (S cnt)) by lia.
    rewrite (IH s _ _ (S cnt) fuel Hrest').
    + unfold last_read. rewrite last_cons.
      cbn [app]. rewrite <- (Hstep s _ cnt).
      f_equal.
      destruct ((Z.of_nat start <? Z.of_nat cnt)
                && (Z.of_nat cnt <=? Z.of_nat start + Z.of_nat dur));
        cbn [app concat]; now rewrite <- ?app_assoc.
    + exact (f_rest_exact fp s _ 2 _ Hrest Hs).
    + exact Heof.
    + exact Hs.
    + lia.
Qed.

(** X20.  [simplest_pcm16le_cut_singlechannel] with a start point
    [start] and a length [dur] whose sum is an [int] writes [dur]
    samples from the one after the start point on: of the samples of the
    file, followed by the sample of the turn that finds the end of the
    file, it passes over the first [start + 1]. *)
Theorem pcm16le_cut_output (samples : list (list Z)) (tail sample0 : list Z)
    (start dur : nat) :
  Forall (fun s => length s = 2%nat) samples ->
  (length tail < 2)%nat ->
  length sample0 = 2%nat ->
  Z.of_nat start + Z.of_nat dur <= INT_MAX ->
  simplest_pcm16le_cut_singlechannel (concat samples ++ tail) sample0
    (Z.of_nat start) (Z.of_nat dur)
  = Done (concat (firstn dur
                    (skipn (start + 1)
                       (samples ++ [last_read samples tail sample0])))).
Proof.
  intros Hall Htail Hlen Hsum. unfold simplest_pcm16le_cut_singlechannel.
  rewrite (pcm16le_cut_loop_spec tail start dur Hsum Htail samples sample0
             (fopen (concat samples ++ tail)) [] 0 _ Hall eq_refl eq_refl
             Hlen).
  - replace (start + dur + 1 - Nat.max 0 (start + 1))%nat with dur by lia.
    replace (start + 1 - 0)%nat with (start + 1)%nat by lia.
    reflexivity.
  - rewrite length_app.
    pose proof (length_concat_le 2 samples ltac:(lia) Hall). lia.
Qed.

Lemma pcm16le_cut_output_witness :
  Forall (fun s => length s = 2%nat) [[1; 1]; [2; 2]; [3; 3]; [4; 4]] /\
  simplest_pcm16le_cut_singlechannel [1; 1; 2; 2; 3; 3; 4; 4] [0; 0] 1 2
  = Done [3; 3; 4; 4].
Proof.
  assert (H : Forall (fun s => length s = 2%nat)
                [[1; 1]; [2; 2]; [3; 3]; [4; 4]])
    by (repeat constructor).
  split; [exact H|].
  exact (pcm16le_cut_output [[1; 1]; [2; 2]; [3; 3]; [4; 4]] [] [0; 0]
           1 2 H ltac:(cbn; lia) eq_refl ltac:(unfold INT_MAX; lia)).
Defined.

(** *** [simplest_pcm16le_to_wave] *)

Lemma o_write_gap (o : ostream) (bytes : list Z) :
  (length (o_data o) <= o_pos o)%nat ->
  o_write o bytes
  = mkOut (o_data o ++ repeat 0 (o_pos o - length (o_data o)) ++ bytes)
          (o_pos o + length bytes).
Proof.
  intros H. unfold o_write. f_equal.
  set (data := o_data o ++ repeat 0 (o_pos o - length (o_data o))).
  assert (Hd : length data = o_pos o)
    by (unfold data; rewrite length_app, repeat_length; lia).
  rewrite firstn_all2, skipn_all2 by lia.
  unfold data. now rewrite app_nil_r, <- app_assoc.
Qed.

Lemma o_write_over (o : ostream) (a b c bytes : list Z) :
  o_data o = a ++ b ++ c ->
  o_pos o = length a ->
  length bytes = length b ->
  o_write o bytes = mkOut (a ++ bytes ++ c) (length a + length bytes).
Proof.
  intros Hd Hp Hb. unfold o_write. rewrite Hd, Hp.
  replace (length a - length (a ++ b ++ c))%nat with 0%nat
    by (rewrite !length_app; lia).
  cbn [repeat]. rewrite app_nil_r, firstn_app_exact.
  f_equal. do 2 f_equal.
  rewrite Hb. rewrite app_assoc.
  replace (length a + length b)%nat with (length (a ++ b))
    by (now rewrite length_app).
  apply skipn_app_exact.
Qed.

Lemma to_uint_small (v : Z) : 0 <= v < 4294967296 -> to_uint v = v.
Proof. intros H. unfold to_uint. now apply Z.mod_small. Qed.

Lemma wave_copy_spec (tail : list Z) :
  (length tail < 2)%nat ->
  forall pairs m fp size fpout fuel,
    Forall (fun s => length s = 2%nat) pairs ->
    f_rest fp = concat pairs ++ tail ->
    f_eof fp = false ->
    length m = 2%nat ->
    (length (o_data fpout) <= o_pos fpout)%nat ->
    0 <= size ->
    size + 2 * (Z.of_nat (length pairs) + 1) < 4294967296 ->
    (length pairs + 1 < fuel)%nat ->
    exists pos,
      wave_copy fuel fp m size fpout
      = Done (size + 2 * (Z.of_nat (length pairs) + 1),
              mkOut (o_data fpout
                     ++ repeat 0 (o_pos fpout - length (o_data fpout))
                     ++ m ++ concat pairs) pos).
Proof.
  intros Htail.
  induction pairs as [|p pairs IH];
    intros m fp size fpout fuel Hall Hrest Heof Hm Hgap Hsize Hmax Hfuel.
  - destruct fuel as [|[|fuel]]; [cbn in Hfuel; lia | cbn in Hfuel; lia |].
    cbn [concat app] in Hrest.
    cbn [wave_copy]. unfold feof at 1. rewrite Heof.
    rewrite fread_short by (rewrite Hrest; exact Htail).
    cbn [feof f_eof length Z.of_nat] in *.
    rewrite (firstn_all2 (n := 2) m) by lia.
    rewrite (o_write_gap fpout m Hgap).
    rewrite to_uint_small by lia.
    eexists. cbn [concat]. rewrite app_nil_r.
    do 2 f_equal; try lia.
  - inversion Hall as [|? ? Hp Hrest']; subst.
    destruct fuel as [|fuel]; [cbn in Hfuel; lia|]. cbn [length] in Hfuel.
    cbn [concat] in Hrest. rewrite <- app_assoc in Hrest.
    cbn [wave_copy]. unfold feof at 1. rewrite Heof.
    rewrite (fread_exact fp p _ 2 Hrest Hp).
    rewrite (memcpy_at_whole m p) by lia.
    rewrite (firstn_all2 (n := 2) m) by lia.
    rewrite (o_write_gap fpout m Hgap).
    rewrite to_uint_small by (cbn [length] in Hmax; lia).
    set (out1 := mkOut _ _).
    destruct (IH p (mkFILE (f_data fp) (f_pos fp + 2) (f_eof fp))
                (size + 2) out1 fuel Hrest') as (pos & ->).
    + exact (f_rest_exact fp p _ 2 _ Hrest Hp).
    + exact Heof.
    + exact Hp.
    + unfold out1. cbn [o_data o_pos].
      rewrite !length_app, repeat_length. lia.
    + lia.
    + cbn [length] in Hmax. lia.
    + lia.
    + exists pos. unfold out1. cbn [o_data o_pos].
      replace (o_pos fpout + length m
               - length (o_data fpout
                         ++ repeat 0%Z (o_pos fpout - length (o_data fpout))
                         ++ m))%nat with 0%nat
        by (rewrite !length_app, repeat_length; lia).
      cbn [repeat concat app length].
      rewrite <- !app_assoc. do 2 f_equal. lia.
Qed.

(** X21.  [simplest_pcm16le_to_wave] on a PCM file of whole 16-bit
    samples, with at most one byte more: the WAVE file is a header of 44
    bytes followed by the samples.  The header holds RIFF with the file
    size less 8, WAVE, the fmt chunk of 16 bytes for PCM with the
    channels, the sample rate, the byte rate and the block size for 16
    bits, and data with the size of the samples.  A byte after the last
    whole sample is dropped. *)
Theorem wave_file_layout (pairs : list (list Z)) (tail m0 : list Z)
    (channels sample_rate : Z) :
  Forall (fun s => length s = 2%nat) pairs ->
  (length tail < 2)%nat ->
  length m0 = 2%nat ->
  0 < channels < 32768 ->
  0 < sample_rate ->
  sample_rate * channels * 16 < 4294967296 ->
  36 + 2 * Z.of_nat (length pairs) < 4294967296 ->
  simplest_pcm16le_to_wave (concat pairs ++ tail) channels sample_rate m0
  = Done (wave_header44 channels sample_rate (2 * Z.of_nat (length pairs))
          ++ concat pairs).
Proof.
  intros Hall Htail Hm0 Hch Hsr Hbr Hsz.
  unfold simplest_pcm16le_to_wave.
  destruct (Z.eqb_spec channels 0) as [|_]; [lia|].
  destruct (Z.eqb_spec sample_rate 0) as [|_]; [lia|].
  cbn [orb]. cbv zeta.
  assert (Hsr' : to_uint sample_rate = sample_rate) by (apply to_uint_small; nia).
  assert (Hch' : to_ushort channels = channels)
    by (unfold to_ushort; apply Z.mod_small; lia).
  rewrite Hsr', Hch'. change (to_ushort 16) with 16.
  rewrite (to_uint_small (sample_rate * channels)) by nia.
  rewrite (to_uint_small (sample_rate * channels * 16)) by nia.
  replace (sample_rate * channels * 16 / 8) with (sample_rate * channels * 2)
    by (apply Z.div_unique with (r := 0); lia).
  replace (to_ushort (channels * 16 / 8)) with (channels * 2).
  2:{ replace (channels * 16 / 8) with (channels * 2)
        by (apply Z.div_unique with (r := 0); lia).
      unfold to_ushort. symmetry. apply Z.mod_small. lia. }
  set (FMT := WAVE_FMT 16 1 channels sample_rate (sample_rate * channels * 2)
                (channels * 2) 16).
  assert (HlF : length FMT = 24%nat) by reflexivity.
  change (o_seek_set {| o_data := []; o_pos := 0 |} SIZEOF_WAVE_HEADER)
    with (mkOut [] 12).
  rewrite (o_write_gap (mkOut [] 12) FMT) by (cbn; lia).
  cbn [o_data o_pos length Nat.sub app].
  rewrite HlF.
  change (o_seek_cur {| o_data := repeat 0 12 ++ FMT; o_pos := 12 + 24 |}
            SIZEOF_WAVE_DATA)
    with (mkOut (repeat 0 12 ++ FMT) 44).
  set (stream := concat pairs ++ tail).
  assert (Hfuel : (length pairs + 1 < S (S (length stream)))%nat).
  { unfold stream. rewrite length_app.
    pose proof (length_concat_le 2 pairs ltac:(lia) Hall). lia. }
  assert (Hfinal : forall (samples : list Z) (gap : list Z) (size : Z),
            gap = [] /\ samples = [] \/ length gap = 8%nat ->
            o_data
              (o_write
                 (o_seek_cur
                    (o_write
                       (o_seek_set
                          (mkOut (repeat 0 12 ++ FMT ++ gap ++ samples)
                             (44 + length samples)) 0)
                       (WAVE_HEADER (to_uint (36 + size))))
                    SIZEOF_WAVE_FMT)
                 (WAVE_DATA size))
            = WAVE_HEADER (to_uint (36 + size)) ++ FMT ++ WAVE_DATA size
              ++ samples).
  { intros samples gap size Hgap.
    change (o_seek_set ?o 0) with (mkOut (o_data o) 0).
    cbn [o_data].
    set (H := WAVE_HEADER _).
    assert (HlH : length H = 12%nat) by reflexivity.
    rewrite (o_write_over (mkOut (repeat 0 12 ++ FMT ++ gap ++ samples) 0)
               [] (repeat 0 12) (FMT ++ gap ++ samples) H)
      by reflexivity.
    cbn [app length Nat.add]. rewrite HlH.
    change (o_seek_cur ?o SIZEOF_WAVE_FMT)
      with (mkOut (o_data o) (Z.to_nat (Z.of_nat (o_pos o) + 24))).
    cbn [o_data o_pos].
    change (Z.to_nat (Z.of_nat 12 + 24)) with 36%nat.
    destruct Hgap as [[-> ->] | Hg].
    - rewrite o_write_gap
        by (cbn [o_data o_pos]; rewrite !length_app, HlH, HlF; cbn; lia).
      cbn [o_data o_pos app].
      replace (36 - length (H ++ FMT ++ []))%nat with 0%nat
        by (rewrite !length_app, HlH, HlF; cbn; lia).
      cbn [repeat app]. now rewrite !app_nil_r, <- app_assoc.
    - rewrite (o_write_over (mkOut (H ++ FMT ++ gap ++ samples) 36)
                 (H ++ FMT) gap samples (WAVE_DATA size)).
      + cbn [o_data]. now rewrite <- !app_assoc.
      + cbn [o_data]. now rewrite <- !app_assoc.
      + cbn [o_pos]. rewrite length_app, HlH, HlF. reflexivity.
      + rewrite Hg. reflexivity. }
  destruct pairs as [|p pairs].
  - (* no whole sample *)
    cbn [concat app] in stream.
    rewrite fread_short by (exact Htail).
    cbn [f_rest fopen f_pos f_data skipn].
    cbn [wave_copy feof f_eof bind length Z.of_nat].
    change (2 * 0) with 0.
    pose proof (Hfinal [] [] 0 ltac:(auto)) as Hf.
    cbn [app length Nat.add] in Hf. rewrite app_nil_r in Hf.
    cbn [app]. rewrite Hf.
    unfold wave_header44. change (36 + 0) with 36.
    rewrite to_uint_small by lia. fold FMT.
    now rewrite app_nil_r, <- !app_assoc.
  - inversion Hall as [|? ? Hp Hrest']; subst.
    assert (Hrest : f_rest (fopen stream) = p ++ concat pairs ++ tail)
      by (unfold stream; cbn [concat]; now rewrite <- app_assoc).
    rewrite (fread_exact (fopen stream) p _ 2 Hrest Hp).
    rewrite (memcpy_at_whole m0 p) by lia.
    cbn [length] in Hsz, Hfuel.
    destruct (wave_copy_spec tail Htail pairs p
                (mkFILE (f_data (fopen stream)) (f_pos (fopen stream) + 2)
                   (f_eof (fopen stream)))
                0 (mkOut (repeat 0 12 ++ FMT) 44) (S (S (length stream)))
                Hrest') as (pos & ->).
    + exact (f_rest_exact (fopen stream) p _ 2 _ Hrest Hp).
    + reflexivity.
    + exact Hp.
    + cbn [o_data o_pos]. rewrite length_app, HlF. cbn. lia.
    + lia.
    + lia.
    + lia.
    + cbn [bind o_data o_pos].
      rewrite length_app, HlF.
      change (44 - (length (repeat 0%Z 12) + 24))%nat with 8%nat.
      set (size := 0 + 2 * (Z.of_nat (length pairs) + 1)).
      change (o_seek_set ?o 0) with (mkOut (o_data o) 0).
      cbn [o_data].
      pose proof (Hfinal (p ++ concat pairs) (repeat 0 8) size
                    ltac:(right; reflexivity)) as Hf.
      change (o_seek_set ?o 0) with (mkOut (o_data o) 0) in Hf.
      cbn [o_data] in Hf.
      rewrite <- ?app_assoc in Hf. rewrite <- ?app_assoc.
      rewrite Hf.
      unfold wave_header44. fold FMT.
      replace (2 * Z.of_nat (length (p :: pairs))) with size
        by (unfold size; cbn [length]; lia).
      rewrite to_uint_small by (unfold size; lia).
      cbn [concat]. now rewrite <- !app_assoc.
Qed.

Lemma wave_file_layout_witness :
  Forall (fun s => length s = 2%nat) [[1; 2]; [3; 4]] /\
  simplest_pcm16le_to_wave [1; 2; 3; 4; 5] 2 44100 [0; 0]
  = Done ([82; 73; 70; 70; 40; 0; 0; 0; 87; 65; 86; 69;
           102; 109; 116; 32; 16; 0; 0; 0; 1; 0; 2; 0;
           68; 172; 0; 0; 16; 177; 2; 0; 4; 0; 16; 0;
           100; 97; 116; 97; 4; 0; 0; 0] ++ [1; 2; 3; 4]).
Proof.
  assert (H : Forall (fun s => length s = 2%nat) [[1; 2]; [3; 4]])
    by (repeat constructor).
  split; [exact H|].
  exact (wave_file_layout [[1; 2]; [3; 4]] [5] [0; 0] 2 44100 H
           ltac:(cbn; lia) eq_refl ltac:(lia) ltac:(lia) ltac:(lia)
           ltac:(cbn; lia)).
Defined.

End PcmFacts.
(** ** YUV pictures *)

Module PixelFacts.
Import Pixel PixelFrames.

Lemma load_ok (mem : list Z) (i : nat) :
  (i < length mem)%nat -> load mem (Z.of_nat i) = Done (nth i mem 0).
Proof.
  intros H. unfold load, in_block.
  destruct (Z.leb_spec 0 (Z.of_nat i)); [|lia].
  destruct (Z.ltb_spec (Z.of_nat i) (Z.of_nat (length mem))); [|lia].
  cbn [andb]. now rewrite Nat2Z.id.
Qed.

Lemma store_ok (mem : list Z) (i : nat) (v : Z) :
  (i < length mem)%nat ->
  store mem (Z.of_nat i) v = Done (firstn i mem ++ v :: skipn (S i) mem).
Proof.
  intros H. unfold store, in_block.
  destruct (Z.leb_spec 0 (Z.of_nat i)); [|lia].
  destruct (Z.ltb_spec (Z.of_nat i) (Z.of_nat (length mem))); [|lia].
  cbn [andb]. now rewrite Nat2Z.id.
Qed.

Lemma fwrite_block_ok (mem : list Z) (off n : nat) :
  (off + n <= length mem)%nat ->
  fwrite_block mem (Z.of_nat off) (Z.of_nat n)
  = Done (firstn n (skipn off mem)).
Proof.
  intros H. unfold fwrite_block.
  destruct (Z.leb_spec 0 (Z.of_nat off)); [|lia].
  destruct (Z.leb_spec 0 (Z.of_nat n)); [|lia].
  destruct (Z.leb_spec (Z.of_nat off + Z.of_nat n) (Z.of_nat (length mem)));
    [|lia].
  cbn [andb]. now rewrite !Nat2Z.id.
Qed.

Lemma length_stored (mem : list Z) (i : nat) (v : Z) :
  (i < length mem)%nat ->
  length (firstn i mem ++ v :: skipn (S i) mem) = length mem.
Proof.
  intros H. rewrite length_app, length_firstn. cbn [length].
  rewrite length_skipn. lia.
Qed.

(** *** [YUV420PClockRot180] *)

Lemma rev_copy_spec : forall (n : nat) (dest src : list Z) (kn i : nat),
  (kn + n <= length dest)%nat ->
  (i + n <= length src)%nat ->
  rev_copy n dest src (Z.of_nat (kn + n) - 1) (Z.of_nat i)
  = Done (firstn kn dest ++ rev (firstn n (skipn i src))
          ++ skipn (kn + n) dest).
Proof.
  induction n as [|n IH]; intros dest src kn i Hd Hs.
  - cbn [rev_copy firstn rev app]. rewrite Nat.add_0_r.
    now rewrite firstn_skipn.
  - cbn [rev_copy].
    rewrite (load_ok src i) by lia. cbn [bind].
    replace (Z.of_nat (kn + S n) - 1) with (Z.of_nat (kn + n)) by lia.
    rewrite (store_ok dest (kn + n)) by lia. cbn [bind].
    set (v := nth i src 0).
    set (dest1 := firstn (kn + n) dest ++ v :: skipn (S (kn + n)) dest).
    assert (Hl1 : length dest1 = length dest)
      by (apply length_stored; lia).
    replace (Z.of_nat (kn + n) - 1 + 1 - 1) with (Z.of_nat (kn + n) - 1)
      by lia.
    replace (Z.of_nat i + 1) with (Z.of_nat (S i)) by lia.
    replace (Z.of_nat (kn + n) - 1) with (Z.of_nat (kn + n) - 1) by lia.
    rewrite (IH dest1 src kn (S i)) by lia.
    f_equal.
    assert (H1 : firstn kn dest1 = firstn kn dest).
    { unfold dest1. rewrite firstn_app, firstn_firstn.
      rewrite length_firstn.
      replace (kn - Nat.min (kn + n) (length dest))%nat with 0%nat by lia.
      rewrite Nat.min_l by lia. cbn [firstn]. apply app_nil_r. }
    assert (H2 : skipn (kn + n) dest1 = v :: skipn (kn + S n) dest).
    { unfold dest1. rewrite skipn_app, length_firstn.
      rewrite (skipn_all2 (firstn (kn + n) dest))
        by (rewrite length_firstn; lia).
      replace (kn + n - Nat.min (kn + n) (length dest))%nat with 0%nat by lia.
      replace (kn + S n)%nat with (S (kn + n)) by lia. reflexivity. }
    assert (H3 : firstn (S n) (skipn i src)
                 = v :: firstn n (skipn (S i) src)).
    { assert (Hsk : skipn i src = v :: skipn (S i) src).
      { unfold v. clear - Hs. revert i Hs.
        induction src as [|x src IHs]; intros i Hs; [cbn in Hs; lia|].
        destruct i as [|i]; [reflexivity|].
        cbn [skipn nth]. apply IHs. cbn [length] in Hs. lia. }
      rewrite Hsk. reflexivity. }
    rewrite H1, H2, H3. cbn [rev]. now rewrite <- !app_assoc.
Qed.

Lemma rev_copy_over (n : nat) (A B C src : list Z) (i : nat) :
  length B = n ->
  (i + n <= length src)%nat ->
  rev_copy n (A ++ B ++ C) src (Z.of_nat (length A + n) - 1) (Z.of_nat i)
  = Done (A ++ rev (firstn n (skipn i src)) ++ C).
Proof.
  intros HB Hs.
  rewrite rev_copy_spec by (rewrite ?length_app; lia).
  rewrite firstn_app_exact.
  rewrite (app_assoc A B C).
  replace (length A + n)%nat with (length (A ++ B))
    by (rewrite length_app; lia).
  now rewrite skipn_app_exact.
Qed.

Lemma quot_sizes (N : Z) (q : nat) :
  N = 4 * Z.of_nat q ->
  Z.quot N 4 = Z.of_nat q /\
  Z.quot (N * 5) 4 = Z.of_nat (4 * q + q) /\
  Z.quot (N * 3) 2 = Z.of_nat (4 * q + q + q) /\
  Z.quot N 2 = Z.of_nat (q + q) /\
  Z.to_nat N = (4 * q)%nat.
Proof.
  intros ->. rewrite !Z.quot_div_nonneg by lia.
  repeat split; first [lia | Z.div_mod_to_equations; lia].
Qed.

Lemma rot180_frame_planes (q : nat) (Y U V : list Z) :
  length Y = (4 * q)%nat -> length U = q -> length V = q ->
  rot180_frame (4 * q) (Y ++ U ++ V) = rev Y ++ rev U ++ rev V.
Proof.
  intros HY HU HV. unfold rot180_frame, plane_y, plane_u, plane_v.
  replace (4 * q / 4)%nat with q
    by (rewrite Nat.mul_comm, Nat.div_mul; lia).
  rewrite <- HY at 1 2. rewrite firstn_app_exact, skipn_app_exact.
  replace (4 * q + q)%nat with (length (Y ++ U))
    by (rewrite length_app; lia).
  rewrite (app_assoc Y U V), skipn_app_exact.
  rewrite <- HU at 1. rewrite firstn_app_exact.
  rewrite firstn_all2 by lia. reflexivity.
Qed.

Lemma split_planes (q : nat) (f : list Z) :
  length f = (4 * q + q + q)%nat ->
  exists Y U V,
    f = Y ++ U ++ V /\
    length Y = (4 * q)%nat /\ length U = q /\ length V = q.
Proof.
  intros H.
  exists (firstn (4 * q) f), (firstn q (skipn (4 * q) f)),
    (skipn q (skipn (4 * q) f)).
  rewrite !firstn_skipn.
  rewrite !length_firstn, !length_skipn. repeat split; lia.
Qed.

Lemma fwrite_planes_whole (D : list Z) (w h : Z) (q : nat) :
  w * h = 4 * Z.of_nat q ->
  length D = (4 * q + q + q)%nat ->
  fwrite_planes D w h = Done D.
Proof.
  intros HN HlD.
  destruct (quot_sizes (w * h) q HN) as (Hq4 & Hq5 & _ & _ & _).
  unfold fwrite_planes. rewrite Hq4, Hq5.
  replace (w * h) with (Z.of_nat (4 * q)) by lia.
  change 0 with (Z.of_nat 0).
  rewrite (fwrite_block_ok D 0 (4 * q)) by lia. cbn [bind skipn].
  rewrite (fwrite_block_ok D (4 * q) q) by lia. cbn [bind].
  rewrite (fwrite_block_ok D (4 * q + q) q) by lia. cbn [bind].
  f_equal.
  rewrite <- (firstn_skipn (4 * q) D) at 4.
  f_equal.
  rewrite <- (firstn_skipn q (skipn (4 * q) D)) at 2.
  f_equal.
  rewrite skipn_skipn, (Nat.add_comm q (4 * q)).
  apply firstn_all2. rewrite length_skipn. lia.
Qed.

Lemma YUV420PClockRot180_spec (dest src : list Z) (w h : Z) (q : nat) :
  w * h = 4 * Z.of_nat q ->
  length src = (4 * q + q + q)%nat ->
  length dest = length src ->
  YUV420PClockRot180 dest src w h
  = Done (rot180_frame (4 * q) src, rot180_frame (4 * q) src).
Proof.
  intros HN Hs Hd.
  destruct (quot_sizes (w * h) q HN) as (Hq4 & Hq5 & Hq3 & _ & Hn).
  destruct (split_planes q src Hs) as (Y & U & V & -> & HY & HU & HV).
  destruct (split_planes q dest ltac:(lia)) as (A & B & C & -> & HA & HB & HC).
  rewrite (rot180_frame_planes q Y U V HY HU HV).
  unfold YUV420PClockRot180.
  rewrite Hq5, Hq3.
  replace (Z.to_nat (w * h - 0)) with (4 * q)%nat by lia.
  replace (Z.to_nat (Z.of_nat (4 * q + q) - w * h)) with q by lia.
  replace (Z.to_nat (Z.of_nat (4 * q + q + q) - Z.of_nat (4 * q + q)))
    with q by lia.
  assert (EY : firstn (4 * q) (Y ++ U ++ V) = Y)
    by (rewrite <- HY; apply firstn_app_exact).
  assert (EU : firstn q (skipn (4 * q) (Y ++ U ++ V)) = U).
  { rewrite <- HY, skipn_app_exact, <- HU. apply firstn_app_exact. }
  assert (EV : firstn q (skipn (4 * q + q) (Y ++ U ++ V)) = V).
  { replace (4 * q + q)%nat with (length (Y ++ U))
      by (rewrite length_app; lia).
    rewrite (app_assoc Y U V), skipn_app_exact.
    apply firstn_all2. lia. }
  (* Y *)
  replace (w * h - 1) with (Z.of_nat (length (@nil Z) + 4 * q) - 1)
    by (cbn [length]; lia).
  change 0 with (Z.of_nat 0) at 1.
  change (A ++ B ++ C) with ([] ++ A ++ B ++ C).
  rewrite (rev_copy_over (4 * q) [] A (B ++ C) _ 0 HA)
    by (rewrite !length_app; lia).
  cbn [bind app skipn]. rewrite EY.
  (* U *)
  replace (Z.of_nat (4 * q + q) - 1)
    with (Z.of_nat (length (rev Y) + q) - 1)
    by (rewrite length_rev; lia).
  replace (w * h) with (Z.of_nat (4 * q)) by lia.
  rewrite (rev_copy_over q (rev Y) B C _ (4 * q) HB)
    by (rewrite !length_app; lia).
  cbn [bind]. rewrite EU.
  (* V *)
  replace (Z.of_nat (4 * q + q + q) - 1)
    with (Z.of_nat (length (rev Y ++ rev U) + q) - 1)
    by (rewrite length_app, !length_rev; lia).
  rewrite (app_assoc (rev Y) (rev U) C).
  rewrite <- (app_nil_r C) at 1.
  rewrite (rev_copy_over q (rev Y ++ rev U) C [] _ (4 * q + q) HC)
    by (rewrite !length_app; lia).
  cbn [bind]. rewrite EV.
  rewrite app_nil_r, <- app_assoc.
  set (D := rev Y ++ rev U ++ rev V).
  assert (HlD : length D = (4 * q + q + q)%nat)
    by (unfold D; rewrite !length_app, !length_rev; lia).
  fold (fwrite_planes D w h).
  rewrite (fwrite_planes_whole D w h q HN HlD). reflexivity.
Qed.

(** X22.  [YUV420PClockRot180] on a picture of [w*h] pixels, a multiple
    of 4, reverses the bytes of each of the three planes, whatever
    [dest] held; what it writes is the block it made.  Doing it again
    gives back the picture. *)
Theorem rot180_reverses_planes (dest src : list Z) (w h : Z) (q : nat) :
  w * h = 4 * Z.of_nat q ->
  length src = (6 * q)%nat ->
  length dest = length src ->
  YUV420PClockRot180 dest src w h
  = Done (rot180_frame (4 * q) src, rot180_frame (4 * q) src) /\
  YUV420PClockRot180 dest (rot180_frame (4 * q) src) w h = Done (src, src).
Proof.
  intros HN Hs Hd.
  assert (Hs' : length src = (4 * q + q + q)%nat) by lia.
  split; [exact (YUV420PClockRot180_spec dest src w h q HN Hs' Hd)|].
  destruct (split_planes q src Hs') as (Y & U & V & E & HY & HU & HV).
  rewrite E at 1.
  rewrite (rot180_frame_planes q Y U V HY HU HV).
  rewrite (YUV420PClockRot180_spec dest (rev Y ++ rev U ++ rev V) w h q HN).
  - rewrite (rot180_frame_planes q (rev Y) (rev U) (rev V))
      by (rewrite length_rev; assumption).
    rewrite !rev_involutive. now rewrite <- E.
  - rewrite !length_app, !length_rev. lia.
  - rewrite !length_app, !length_rev. lia.
Qed.

Lemma rot180_reverses_planes_witness :
  YUV420PClockRot180 [0; 0; 0; 0; 0; 0] [1; 2; 3; 4; 5; 6] 2 2
  = Done ([4; 3; 2; 1; 5; 6], [4; 3; 2; 1; 5; 6]) /\
  YUV420PClockRot180 [0; 0; 0; 0; 0; 0] [4; 3; 2; 1; 5; 6] 2 2
  = Done ([1; 2; 3; 4; 5; 6], [1; 2; 3; 4; 5; 6]).
Proof.
  exact (rot180_reverses_planes [0; 0; 0; 0; 0; 0] [1; 2; 3; 4; 5; 6] 2 2 1
           eq_refl eq_refl eq_refl).
Defined.

(** *** [YUV420PClockRot90] *)

Lemma load_in (mem : list Z) (i : Z) :
  0 <= i < Z.of_nat (length mem) ->
  load mem i = Done (nth (Z.to_nat i) mem 0).
Proof.
  intros H. rewrite <- (Z2Nat.id i) at 1 by lia.
  apply load_ok. lia.
Qed.

(** A block with the bytes [X] stored from index [k] on. *)
Lemma patch_facts (D X : list Z) (k : nat) :
  (k + length X <= length D)%nat ->
  let D1 := firstn k D ++ X ++ skipn (k + length X) D in
  length D1 = length D /\
  firstn (k + length X) D1 = firstn k D ++ X /\
  forall m, skipn (k + length X + m) D1 = skipn (k + length X + m) D.
Proof.
  intros H D1.
  assert (Hf : length (firstn k D) = k) by (rewrite length_firstn; lia).
  repeat split.
  - unfold D1. rewrite !length_app, Hf, length_skipn. lia.
  - unfold D1. rewrite app_assoc.
    replace (k + length X)%nat with (length (firstn k D ++ X))
      by (rewrite length_app; lia).
    apply firstn_app_exact.
  - intros m. unfold D1. rewrite app_assoc.
    replace (k + length X + m)%nat
      with (m + length (firstn k D ++ X))%nat
      by (rewrite length_app; lia).
    rewrite <- skipn_skipn, skipn_app_exact, skipn_skipn.
    f_equal. rewrite length_app. lia.
Qed.

Lemma length_column_of (rows : nat) (src : list Z) (idx : Z -> Z) :
  length (column_of rows src idx) = rows.
Proof. induction rows as [|rows IH]; cbn [column_of length]; auto. Qed.

Lemma length_plane_of : forall (cols rows : nat) (src : list Z) (i : Z)
    (idx : Z -> Z -> Z),
  length (plane_of cols rows src i idx) = (cols * rows)%nat.
Proof.
  induction cols as [|cols IH]; intros rows src i idx; [reflexivity|].
  cbn [plane_of]. rewrite length_app, length_column_of, IH. lia.
Qed.

Lemma rot90_column_spec (src : list Z) (idx : Z -> Z) :
  forall (n : nat) (dest : list Z) (k : nat),
    (forall j, (j < n)%nat ->
       0 <= idx (Z.of_nat j) < Z.of_nat (length src)) ->
    (k + n <= length dest)%nat ->
    rot90_column n dest src (Z.of_nat k) idx
    = Done (firstn k dest ++ column_of n src idx ++ skipn (k + n) dest,
            Z.of_nat (k + n)).
Proof.
  induction n as [|n IH]; intros dest k Hidx Hk.
  - cbn [rot90_column column_of app]. rewrite Nat.add_0_r.
    now rewrite firstn_skipn.
  - cbn [rot90_column column_of].
    rewrite load_in by (apply Hidx; lia). cbn [bind].
    rewrite (store_ok dest k) by lia. cbn [bind].
    set (v := nth (Z.to_nat (idx (Z.of_nat n))) src 0).
    destruct (patch_facts dest [v] k ltac:(cbn [length]; lia))
      as (Hl & Hf & Hs).
    cbn [length app] in Hl, Hf, Hs.
    replace (k + 1)%nat with (S k) in * by lia.
    set (dest1 := firstn k dest ++ v :: skipn (S k) dest) in *.
    replace (Z.of_nat k + 1) with (Z.of_nat (S k)) by lia.
    rewrite (IH dest1 (S k)) by (try lia; intros j Hj; apply Hidx; lia).
    rewrite Hf, (Hs n). cbn [app].
    rewrite <- app_assoc. cbn [app].
    replace (k + S n)%nat with (S k + n)%nat by lia. reflexivity.
Qed.

Lemma rot90_plane_spec (src : list Z) (idx : Z -> Z -> Z) (rows : nat) :
  forall (cols : nat) (dest : list Z) (k : nat) (i : Z),
    (forall c j, (c < cols)%nat -> (j < rows)%nat ->
       0 <= idx (Z.of_nat j) (i + Z.of_nat c) < Z.of_nat (length src)) ->
    (k + cols * rows <= length dest)%nat ->
    rot90_plane cols rows dest src (Z.of_nat k) i idx
    = Done (firstn k dest ++ plane_of cols rows src i idx
            ++ skipn (k + cols * rows) dest,
            Z.of_nat (k + cols * rows)).
Proof.
  induction cols as [|cols IH]; intros dest k i Hidx Hk.
  - cbn [rot90_plane plane_of app Nat.mul]. rewrite Nat.add_0_r.
    now rewrite firstn_skipn.
  - cbn [rot90_plane plane_of].
    rewrite rot90_column_spec.
    2:{ intros j Hj. specialize (Hidx 0%nat j ltac:(lia) Hj).
        now rewrite Z.add_0_r in Hidx. }
    2:{ cbn [Nat.mul] in Hk. lia. }
    cbn [bind].
    set (col := column_of rows src (fun j => idx j i)).
    assert (Hc : length col = rows) by apply length_column_of.
    destruct (patch_facts dest col k ltac:(cbn [Nat.mul] in Hk; lia))
      as (Hl & Hf & Hs).
    rewrite Hc in Hl, Hf, Hs.
    set (dest1 := firstn k dest ++ col ++ skipn (k + rows) dest) in *.
    rewrite (IH dest1 (k + rows)%nat (i + 1)).
    + rewrite Hf, (Hs (cols * rows)%nat).
      rewrite <- !app_assoc.
      replace (k + S cols * rows)%nat with (k + rows + cols * rows)%nat
        by (cbn [Nat.mul]; lia).
      reflexivity.
    + intros c j Hcl Hj.
      specialize (Hidx (S c) j ltac:(lia) Hj).
      replace (i + 1 + Z.of_nat c) with (i + Z.of_nat (S c)) by lia.
      exact Hidx.
    + cbn [Nat.mul] in Hk. lia.
Qed.

Lemma nth_column_of (src : list Z) (idx : Z -> Z) :
  forall (rows r : nat),
    (r < rows)%nat ->
    nth r (column_of rows src idx) 0
    = nth (Z.to_nat (idx (Z.of_nat (rows - 1 - r)))) src 0.
Proof.
  induction rows as [|rows IH]; intros r Hr; [lia|].
  cbn [column_of]. destruct r as [|r].
  - cbn [nth]. do 3 f_equal. lia.
  - cbn [nth]. rewrite IH by lia. do 3 f_equal. lia.
Qed.

Lemma nth_plane_of (src : list Z) (idx : Z -> Z -> Z) (rows : nat) :
  forall (cols c r : nat) (i : Z),
    (c < cols)%nat -> (r < rows)%nat ->
    nth (c * rows + r) (plane_of cols rows src i idx) 0
    = nth (Z.to_nat (idx (Z.of_nat (rows - 1 - r)) (i + Z.of_nat c))) src 0.
Proof.
  induction cols as [|cols IH]; intros c r i Hc Hr; [lia|].
  cbn [plane_of]. destruct c as [|c].
  - cbn [Nat.mul Nat.add].
    rewrite app_nth1 by (rewrite length_column_of; exact Hr).
    rewrite nth_column_of by exact Hr. now rewrite Z.add_0_r.
  - rewrite app_nth2 by (rewrite length_column_of; cbn [Nat.mul]; lia).
    rewrite length_column_of.
    replace (S c * rows + r - rows)%nat with (c * rows + r)%nat
      by (cbn [Nat.mul]; lia).
    rewrite IH by lia. do 3 f_equal. lia.
Qed.

Lemma even_sizes (a b : nat) :
  let w := 2 * Z.of_nat a in
  let h := 2 * Z.of_nat b in
  Z.to_nat w = (2 * a)%nat /\ Z.to_nat h = (2 * b)%nat /\
  Z.quot w 2 = Z.of_nat a /\ Z.quot h 2 = Z.of_nat b /\
  w * h = 4 * Z.of_nat (a * b) /\
  forall j, 0 <= j -> Z.quot (j * w) 2 = j * Z.of_nat a.
Proof.
  cbv zeta. repeat split; try lia.
  - rewrite Z.quot_div_nonneg by lia. Z.div_mod_to_equations. lia.
  - rewrite Z.quot_div_nonneg by lia. Z.div_mod_to_equations. lia.
  - intros j Hj. rewrite Z.quot_div_nonneg by nia.
    replace (j * (2 * Z.of_nat a)) with (j * Z.of_nat a * 2) by lia.
    apply Z.div_mul. lia.
Qed.

Lemma YUV420PClockRot90_spec (dest src : list Z) (a b : nat) :
  length src = (6 * (a * b))%nat ->
  length dest = length src ->
  YUV420PClockRot90 dest src (2 * Z.of_nat a) (2 * Z.of_nat b)
  = Done (rot90_frame (2 * Z.of_nat a) (2 * Z.of_nat b) src,
          rot90_frame (2 * Z.of_nat a) (2 * Z.of_nat b) src).
Proof.
  intros Hs Hd.
  destruct (even_sizes a b) as (Hw & Hh & Hw2 & Hh2 & HN & Hq).
  set (w := 2 * Z.of_nat a) in *. set (h := 2 * Z.of_nat b) in *.
  set (q := (a * b)%nat) in *.
  destruct (quot_sizes (w * h) q HN) as (Hq4 & Hq5 & _ & _ & _).
  unfold YUV420PClockRot90, rot90_frame.
  rewrite Hw, Hh, Hw2, Hh2, Hq5, !Nat2Z.id.
  set (PY := plane_of (2 * a) (2 * b) src 0 (fun j i => j * w + i)).
  set (PU := plane_of a b src 0 (fun j i => w * h + Z.quot (j * w) 2 + i)).
  set (PV := plane_of a b src 0
               (fun j i => Z.of_nat (4 * q + q) + Z.quot (j * w) 2 + i)).
  assert (HlY : length PY = (4 * q)%nat)
    by (unfold PY, q; rewrite length_plane_of; lia).
  assert (HlU : length PU = q) by (unfold PU, q; apply length_plane_of).
  assert (HlV : length PV = q) by (unfold PV, q; apply length_plane_of).
  (* Y *)
  change 0 with (Z.of_nat 0) at 1.
  rewrite rot90_plane_spec.
  2:{ intros c j Hc Hj. rewrite Hs. unfold w. nia. }
  2:{ unfold q in *. nia. }
  cbn [bind]. fold PY.
  destruct (patch_facts dest PY 0 ltac:(lia)) as (Hl1 & Hf1 & Hk1).
  cbn [Nat.add firstn app] in Hl1, Hf1, Hk1. rewrite HlY in *.
  replace (0 + 2 * a * (2 * b))%nat with (4 * q)%nat by (unfold q; lia).
  cbn [firstn app].
  set (D1 := PY ++ skipn (4 * q) dest) in *.
  (* U *)
  rewrite rot90_plane_spec.
  2:{ intros c j Hc Hj. rewrite Hq by lia. rewrite Hs, HN. unfold q. nia. }
  2:{ rewrite Hl1. fold q. lia. }
  cbn [bind]. fold PU. fold q.
  destruct (patch_facts D1 PU (4 * q) ltac:(lia)) as (Hl2 & Hf2 & Hk2).
  rewrite HlU in *. rewrite Hf1 in Hl2, Hf2, Hk2. rewrite Hf1.
  set (D2 := PY ++ PU ++ skipn (4 * q + q) D1) in *.
  (* V *)
  rewrite rot90_plane_spec.
  2:{ intros c j Hc Hj. rewrite Hq by lia. rewrite Hs. unfold q. nia. }
  2:{ rewrite Hl2, Hl1. lia. }
  cbn [bind]. fold PV. fold q.
  rewrite Hf2, (skipn_all2 (n := 4 * q + q + q) D2) by lia.
  rewrite app_nil_r, <- app_assoc.
  rewrite (fwrite_planes_whole (PY ++ PU ++ PV) w h q HN)
    by (rewrite !length_app; lia).
  reflexivity.
Qed.

(** X23.  [YUV420PClockRot90] on a picture of even width [w] and even
    height [h] turns each plane by a quarter clockwise: the pixel of
    column [c] and line [r] from the bottom of the source is the pixel of
    line [c] and column [r] of the result, which has [h] columns; what
    [dest] held does not matter. *)
Theorem rot90_turns_planes (dest src : list Z) (a b : nat) :
  length src = (6 * (a * b))%nat ->
  length dest = length src ->
  exists out,
    YUV420PClockRot90 dest src (2 * Z.of_nat a) (2 * Z.of_nat b)
    = Done (out, out) /\
    length out = length src /\
    (forall c r, (c < 2 * a)%nat -> (r < 2 * b)%nat ->
       nth (c * (2 * b) + r) out 0
       = nth ((2 * b - 1 - r) * (2 * a) + c) src 0) /\
    (forall c r, (c < a)%nat -> (r < b)%nat ->
       nth (4 * (a * b) + c * b + r) out 0
       = nth (4 * (a * b) + (b - 1 - r) * a + c) src 0 /\
       nth (5 * (a * b) + c * b + r) out 0
       = nth (5 * (a * b) + (b - 1 - r) * a + c) src 0).
Proof.
  intros Hs Hd.
  exists (rot90_frame (2 * Z.of_nat a) (2 * Z.of_nat b) src).
  split; [exact (YUV420PClockRot90_spec dest src a b Hs Hd)|].
  destruct (even_sizes a b) as (Hw & Hh & Hw2 & Hh2 & HN & Hq).
  set (w := 2 * Z.of_nat a) in *. set (h := 2 * Z.of_nat b) in *.
  set (q := (a * b)%nat) in *.
  destruct (quot_sizes (w * h) q HN) as (Hq4 & Hq5 & _ & _ & _).
  unfold rot90_frame. rewrite Hw, Hh, Hw2, Hh2, Hq5, !Nat2Z.id.
  set (PY := plane_of (2 * a) (2 * b) src 0 (fun j i => j * w + i)).
  set (PU := plane_of a b src 0 (fun j i => w * h + Z.quot (j * w) 2 + i)).
  set (PV := plane_of a b src 0
               (fun j i => Z.of_nat (4 * q + q) + Z.quot (j * w) 2 + i)).
  assert (HlY : length PY = (4 * q)%nat)
    by (unfold PY, q; rewrite length_plane_of; lia).
  assert (HlU : length PU = q) by (unfold PU, q; apply length_plane_of).
  assert (HlV : length PV = q) by (unfold PV, q; apply length_plane_of).
  split; [rewrite !length_app; lia|]. split.
  - intros c r Hc Hr.
    rewrite app_nth1 by (rewrite HlY; unfold q; nia).
    unfold PY. rewrite nth_plane_of by assumption.
    f_equal. unfold w. nia.
  - intros c r Hc Hr. split.
    + rewrite app_nth2 by (rewrite HlY; lia).
      rewrite app_nth1 by (rewrite HlY, HlU; unfold q; nia).
      rewrite HlY.
      replace (4 * q + c * b + r - 4 * q)%nat with (c * b + r)%nat by lia.
      unfold PU. rewrite nth_plane_of by assumption.
      f_equal. rewrite Hq by lia. rewrite HN. unfold q. nia.
    + rewrite app_nth2 by (rewrite HlY; lia).
      rewrite app_nth2 by (rewrite HlY, HlU; lia).
      rewrite HlY, HlU.
      replace (5 * q + c * b + r - 4 * q - q)%nat with (c * b + r)%nat by lia.
      unfold PV. rewrite nth_plane_of by assumption.
      f_equal. rewrite Hq by lia. unfold q. nia.
Qed.

Lemma rot90_turns_planes_witness :
  YUV420PClockRot90 (repeat 0 12) [1; 2; 3; 4; 5; 6; 7; 8; 9; 10; 11; 12] 4 2
  = Done ([5; 1; 6; 2; 7; 3; 8; 4; 9; 10; 11; 12],
          [5; 1; 6; 2; 7; 3; 8; 4; 9; 10; 11; 12]) /\
  exists out,
    YUV420PClockRot90 (repeat 0 12) [1; 2; 3; 4; 5; 6; 7; 8; 9; 10; 11; 12]
      4 2 = Done (out, out) /\
    length out = 12%nat.
Proof.
  split; [reflexivity|].
  destruct (rot90_turns_planes (repeat 0 12)
              [1; 2; 3; 4; 5; 6; 7; 8; 9; 10; 11; 12] 2 1 eq_refl eq_refl)
    as (out & H & Hl & _).
  exists out. split; [exact H | exact Hl].
Defined.

(** *** The loop of [simplest_yuv420_split] *)








(** *** [simplest_yuv444_split] *)

Lemma yuv444_turn (N : nat) (w h : Z) (fp : FILE) (pic f : list Z)
    (got : list Z) (fp' : FILE) (o : split_out) (num : nat) :
  w * h = Z.of_nat N ->
  length f = (3 * N)%nat ->
  fread fp (3 * N) = (got, fp') ->
  memcpy_at pic 0 got = f ->
  yuv444_split_loop (S num) w h fp pic o
  = yuv444_split_loop num w h fp' f
      (mkSplit (out_y o ++ firstn N f)
         (out_u o ++ firstn N (skipn N f))
         (out_v o ++ firstn N (skipn (2 * N) f))
         (out_yuv o ++ f) [] []).
Proof.
  intros HN Hf Hread Hcopy. cbn [yuv444_split_loop].
  replace (Z.to_nat (w * h * 3)) with (3 * N)%nat by lia.
  rewrite Hread, Hcopy, HN.
  change 0 with (Z.of_nat 0).
  rewrite (fwrite_block_ok f 0 N) by lia. cbn [bind skipn].
  rewrite (fwrite_block_ok f N N) by lia. cbn [bind].
  replace (Z.of_nat N * 2) with (Z.of_nat (2 * N)) by lia.
  rewrite (fwrite_block_ok f (2 * N) N) by lia. cbn [bind].
  do 2 f_equal. f_equal.
  rewrite <- (firstn_skipn N f) at 4. f_equal.
  rewrite <- (firstn_skipn N (skipn N f)) at 2. f_equal.
  rewrite skipn_skipn. replace (N + N)%nat with (2 * N)%nat by lia.
  apply firstn_all2. rewrite length_skipn. lia.
Qed.

Lemma yuv444_split_at_end (N : nat) (w h : Z) :
  w * h = Z.of_nat N ->
  forall extra fp pic o,
    f_rest fp = [] ->
    length pic = (3 * N)%nat ->
    yuv444_split_loop extra w h fp pic o
    = Done (mkSplit
              (out_y o ++ concat (map (firstn N) (repeat pic extra)))
              (out_u o ++ concat (map (fun f => firstn N (skipn N f))
                                    (repeat pic extra)))
              (out_v o ++ concat (map (fun f => firstn N (skipn (2 * N) f))
                                    (repeat pic extra)))
              (out_yuv o ++ concat (repeat pic extra))
              (match extra with O => out_rot90 o | S _ => [] end)
              (match extra with O => out_rot180 o | S _ => [] end)).
Proof.
  intros HN. induction extra as [|extra IH]; intros fp pic o Hrest Hpic.
  - cbn [yuv444_split_loop repeat map concat]. rewrite !app_nil_r.
    now destruct o.
  - rewrite (yuv444_turn N w h fp pic pic [] (mkFILE (f_data fp)
               (f_pos fp + 0) (f_eof fp || (0 <? 3 * N)%nat)) o extra
               HN Hpic).
    + rewrite IH.
      * cbn [out_y out_u out_v out_yuv out_rot90 out_rot180 repeat map
             concat].
        rewrite <- !app_assoc. now destruct extra.
      * unfold f_rest in *. cbn [f_data f_pos].
        now rewrite Nat.add_0_r.
      * exact Hpic.
    + unfold fread. rewrite Hrest. rewrite firstn_nil. reflexivity.
    + reflexivity.
Qed.

Lemma yuv444_split_loop_spec (N : nat) (w h : Z) (extra : nat) :
  w * h = Z.of_nat N ->
  forall frames fp pic o,
    Forall (fun f => length f = (3 * N)%nat) frames ->
    f_rest fp = concat frames ->
    length pic = (3 * N)%nat ->
    out_rot90 o = [] -> out_rot180 o = [] ->
    let all := frames ++ repeat (last frames pic) extra in
    yuv444_split_loop (length frames + extra) w h fp pic o
    = Done (mkSplit
              (out_y o ++ concat (map (firstn N) all))
              (out_u o ++ concat (map (fun f => firstn N (skipn N f)) all))
              (out_v o ++ concat (map (fun f => firstn N (skipn (2 * N) f))
                                    all))
              (out_yuv o ++ concat all) [] []).
Proof.
  intros HN. induction frames as [|f frames IH];
    intros fp pic o Hall Hrest Hpic Ho90 Ho180 all.
  - cbn [length Nat.add]. unfold all. cbn [last app].
    rewrite (yuv444_split_at_end N w h HN extra fp pic o Hrest Hpic).
    rewrite Ho90, Ho180. now destruct extra.
  - inversion Hall as [|? ? Hf Hall']; subst.
    cbn [concat] in Hrest.
    cbn [length Nat.add].
    rewrite (yuv444_turn N w h fp pic f f
               (mkFILE (f_data fp) (f_pos fp + 3 * N) (f_eof fp)) o
               (length frames + extra) HN Hf).
    + rewrite IH; try assumption; try reflexivity.
      * unfold all. rewrite last_cons.
        cbn [out_y out_u out_v out_yuv app map concat].
        now rewrite <- !app_assoc.
      * exact (f_rest_exact fp f _ (3 * N) _ Hrest Hf).
    + exact (fread_exact fp f _ (3 * N) Hrest Hf).
    + apply memcpy_at_whole. lia.
Qed.

Lemma length_yuv444p_name (w h : Z) :
  length (yuv444p_name w h)
  = (32 + length (printf_d w) + length (printf_d h))%nat.
Proof.
  unfold yuv444p_name. rewrite !length_app.
  change (length (chars "out/yuv444p/output_")) with 19%nat.
  change (length (chars "x")) with 1%nat.
  change (length (chars "_yuv444p.yuv")) with 12%nat.
  lia.
Qed.

(** X25.  [simplest_yuv444_split], with a width and a height of seven
    digits together at most so that the name of its fourth file fits
    [yuv444p], does not look for the end of the file: asked for more
    pictures than the file holds, it writes for each missing one the
    planes of the block as the last read left it, the last picture of
    the file once more. *)
Theorem yuv444_split_past_end (N extra : nat) (w h : Z)
    (frames : list (list Z)) (pic : list Z) :
  w * h = Z.of_nat N ->
  (length (printf_d w) + length (printf_d h) <= 7)%nat ->
  Forall (fun f => length f = (3 * N)%nat) frames ->
  length pic = (3 * N)%nat ->
  let all := frames ++ repeat (last frames pic) extra in
  simplest_yuv444_split (concat frames) w h
    (Z.of_nat (length frames + extra)) pic
  = Done (mkSplit
            (concat (map (firstn N) all))
            (concat (map (fun f => firstn N (skipn N f)) all))
            (concat (map (fun f => firstn N (skipn (2 * N) f)) all))
            (concat all) [] []).
Proof.
  intros HN Hname Hall Hpic all.
  unfold simplest_yuv444_split, sprintf.
  rewrite length_yuv444p_name.
  destruct (Nat.ltb_spec
              (32 + length (printf_d w) + length (printf_d h)) 40); [|lia].
  cbn [bind]. rewrite Nat2Z.id.
  exact (yuv444_split_loop_spec N w h extra HN frames
           (fopen (concat frames)) pic (mkSplit [] [] [] [] [] [])
           Hall eq_refl Hpic eq_refl eq_refl).
Qed.

Lemma yuv444_split_past_end_witness :
  Forall (fun f => length f = 3%nat) [[1; 2; 3]; [4; 5; 6]] /\
  simplest_yuv444_split [1; 2; 3; 4; 5; 6] 1 1 4 [0; 0; 0]
  = Done (mkSplit [1; 4; 4; 4] [2; 5; 5; 5] [3; 6; 6; 6]
            [1; 2; 3; 4; 5; 6; 4; 5; 6; 4; 5; 6] [] []).
Proof.
  assert (H : Forall (fun f => length f = 3%nat) [[1; 2; 3]; [4; 5; 6]])
    by (repeat constructor).
  split; [exact H|].
  exact (yuv444_split_past_end 1 2 1 1 [[1; 2; 3]; [4; 5; 6]] [0; 0; 0]
           eq_refl ltac:(cbn; lia) H eq_refl).
Defined.

(** *** [simplest_yuv420_gray] *)

Lemma yuv420_sizes (w h : Z) (N : nat) :
  w * h = Z.of_nat N ->
  Z.quot (w * h * 3) 2 = Z.of_nat (N + N / 2) /\
  Z.quot (w * h) 2 = Z.of_nat (N / 2).
Proof.
  intros ->. rewrite !Z.quot_div_nonneg by lia.
  rewrite Nat2Z.inj_add, Nat2Z.inj_div. change (Z.of_nat 2) with 2.
  split; Z.div_mod_to_equations; lia.
Qed.

Lemma yuv420_gray_loop_spec (w h : Z) (N : nat) :
  w * h = Z.of_nat N ->
  forall frames rest fp pic fp1,
    Forall (fun f => length f = (N + N / 2)%nat) frames ->
    f_rest fp = concat frames ++ rest ->
    length pic = (N + N / 2)%nat ->
    yuv420_gray_loop (length frames) w h fp pic fp1
    = Done (fp1 ++ concat (map (fun f => firstn N f ++ repeat 128 (N / 2))
                             frames)).
Proof.
  intros HN. destruct (yuv420_sizes w h N HN) as [H3 H2].
  induction frames as [|f frames IH]; intros rest fp pic fp1 Hall Hrest Hpic.
  - cbn [length yuv420_gray_loop map concat]. now rewrite app_nil_r.
  - inversion Hall as [|? ? Hf Hall']; subst.
    cbn [concat] in Hrest. rewrite <- app_assoc in Hrest.
    cbn [length yuv420_gray_loop]. rewrite H3, H2, Nat2Z.id.
    rewrite (fread_exact fp f _ (N + N / 2) Hrest Hf).
    rewrite (memcpy_at_whole pic f) by lia.
    unfold memset. rewrite HN.
    destruct (Z.leb_spec 0 (Z.of_nat N)); [|lia].
    destruct (Z.leb_spec 0 (Z.of_nat (N / 2))); [|lia].
    destruct (Z.leb_spec (Z.of_nat N + Z.of_nat (N / 2))
                (Z.of_nat (length f))); [|lia].
    cbn [andb bind]. rewrite !Nat2Z.id.
    replace (Z.to_nat (Z.of_nat N + Z.of_nat (N / 2)))
      with (N + N / 2)%nat by lia.
    rewrite (skipn_all2 (n := N + N / 2) f) by lia. rewrite app_nil_r.
    set (g := firstn N f ++ repeat 128 (N / 2)).
    assert (Hg : length g = (N + N / 2)%nat)
      by (unfold g; rewrite length_app, length_firstn, repeat_length; lia).
    change 0 with (Z.of_nat 0).
    rewrite (fwrite_block_ok g 0 (N + N / 2)) by lia. cbn [bind skipn].
    rewrite (firstn_all2 (n := N + N / 2) g) by lia.
    rewrite (IH rest _ g (fp1 ++ g) Hall').
    + cbn [map concat]. now rewrite <- app_assoc.
    + exact (f_rest_exact fp f _ _ _ Hrest Hf).
    + exact Hg.
Qed.

(** X26.  [simplest_yuv420_gray] keeps the Y plane of each picture and
    writes 128 over all of its chroma; the picture keeps its size. *)
Theorem yuv420_gray_output (w h : Z) (N : nat) (frames : list (list Z))
    (rest pic : list Z) :
  w * h = Z.of_nat N ->
  Forall (fun f => length f = (N + N / 2)%nat) frames ->
  length pic = (N + N / 2)%nat ->
  simplest_yuv420_gray (concat frames ++ rest) w h
    (Z.of_nat (length frames)) pic
  = Done (concat (map (fun f => firstn N f ++ repeat 128 (N / 2)) frames)).
Proof.
  intros HN Hall Hpic. unfold simplest_yuv420_gray. rewrite Nat2Z.id.
  exact (yuv420_gray_loop_spec w h N HN frames rest
           (fopen (concat frames ++ rest)) pic [] Hall eq_refl Hpic).
Qed.

Lemma yuv420_gray_output_witness :
  Forall (fun f => length f = 6%nat) [[1; 2; 3; 4; 5; 6]] /\
  simplest_yuv420_gray [1; 2; 3; 4; 5; 6; 7] 2 2 1 (repeat 0 6)
  = Done [1; 2; 3; 4; 128; 128].
Proof.
  assert (H : Forall (fun f => length f = 6%nat) [[1; 2; 3; 4; 5; 6]])
    by (repeat constructor).
  split; [exact H|].
  exact (yuv420_gray_output 2 2 4 [[1; 2; 3; 4; 5; 6]] [7] (repeat 0 6)
           eq_refl H eq_refl).
Defined.

(** *** [simplest_yuv420_halfy] *)

Lemma skipn_cons_nth (l : list Z) (i : nat) :
  (i < length l)%nat -> skipn i l = nth i l 0 :: skipn (S i) l.
Proof.
  revert i. induction l as [|x l IH]; intros i H; [cbn in H; lia|].
  destruct i as [|i]; [reflexivity|].
  cbn [skipn nth]. apply IH. cbn [length] in H. lia.
Qed.

Lemma halve_luma_spec : forall (n : nat) (pic : list Z) (j : nat),
  (j + n <= length pic)%nat ->
  halve_luma n pic (Z.of_nat j)
  = Done (firstn j pic
          ++ map (fun v => to_uchar (Z.quot v 2)) (firstn n (skipn j pic))
          ++ skipn (j + n) pic).
Proof.
  induction n as [|n IH]; intros pic j H.
  - cbn [halve_luma firstn map app]. rewrite Nat.add_0_r.
    now rewrite firstn_skipn.
  - cbn [halve_luma].
    rewrite (load_ok pic j) by lia. cbn [bind].
    rewrite (store_ok pic j) by lia. cbn [bind].
    set (v := to_uchar (Z.quot (nth j pic 0) 2)).
    destruct (patch_facts pic [v] j ltac:(cbn [length]; lia))
      as (Hl & Hf & Hs).
    cbn [length app] in Hl, Hf, Hs.
    replace (j + 1)%nat with (S j) in * by lia.
    set (pic1 := firstn j pic ++ v :: skipn (S j) pic) in *.
    replace (Z.of_nat j + 1) with (Z.of_nat (S j)) by lia.
    rewrite (IH pic1 (S j)) by lia.
    rewrite Hf, (Hs n).
    replace (skipn (S j) pic1) with (skipn (S j) pic)
      by (symmetry; rewrite <- (Nat.add_0_r (S j)); apply Hs).
    rewrite (skipn_cons_nth pic j) by lia.
    cbn [firstn map]. fold v.
    rewrite <- app_assoc. cbn [app].
    replace (j + S n)%nat with (S j + n)%nat by lia. reflexivity.
Qed.

Lemma halve_byte (v : Z) : is_byte v -> to_uchar (Z.quot v 2) = v / 2.
Proof.
  unfold is_byte, to_uchar. intros H.
  rewrite Z.quot_div_nonneg by lia.
  apply Z.mod_small. Z.div_mod_to_equations. lia.
Qed.

Lemma yuv420_halfy_loop_spec (w h : Z) (N : nat) :
  w * h = Z.of_nat N ->
  forall frames rest fp pic fp1,
    Forall (fun f => length f = (N + N / 2)%nat /\ Forall is_byte f) frames ->
    f_rest fp = concat frames ++ rest ->
    length pic = (N + N / 2)%nat ->
    yuv420_halfy_loop (length frames) w h fp pic fp1
    = Done (fp1 ++ concat (map (fun f => map (fun y => y / 2) (firstn N f)
                                         ++ skipn N f) frames)).
Proof.
  intros HN. destruct (yuv420_sizes w h N HN) as [H3 H2].
  induction frames as [|f frames IH]; intros rest fp pic fp1 Hall Hrest Hpic.
  - cbn [length yuv420_halfy_loop map concat]. now rewrite app_nil_r.
  - inversion Hall as [|? ? [Hf Hb] Hall']; subst.
    cbn [concat] in Hrest. rewrite <- app_assoc in Hrest.
    cbn [length yuv420_halfy_loop]. rewrite H3, Nat2Z.id.
    rewrite (fread_exact fp f _ (N + N / 2) Hrest Hf).
    rewrite (memcpy_at_whole pic f) by lia.
    rewrite HN, Nat2Z.id. change 0 with (Z.of_nat 0).
    rewrite (halve_luma_spec N f 0) by lia.
    cbn [bind firstn skipn app Nat.add].
    rewrite (map_ext_in _ (fun y => y / 2)).
    2:{ intros y Hy. apply halve_byte.
        rewrite Forall_forall in Hb. apply Hb.
        rewrite <- (firstn_skipn N f). apply in_or_app. now left. }
    set (g := map (fun y => y / 2) (firstn N f) ++ skipn N f).
    assert (Hg : length g = (N + N / 2)%nat).
    { unfold g. rewrite length_app, length_map, length_firstn, length_skipn.
      lia. }
    rewrite (fwrite_block_ok g 0 (N + N / 2)) by lia. cbn [bind skipn].
    rewrite (firstn_all2 (n := N + N / 2) g) by lia.
    rewrite (IH rest _ g (fp1 ++ g) Hall').
    + cbn [map concat]. now rewrite <- app_assoc.
    + exact (f_rest_exact fp f _ _ _ Hrest Hf).
    + exact Hg.
Qed.

(** X27.  [simplest_yuv420_halfy] halves every byte of the Y plane of
    each picture, rounding down, and keeps the chroma. *)
Theorem yuv420_halfy_output (w h : Z) (N : nat) (frames : list (list Z))
    (rest pic : list Z) :
  w * h = Z.of_nat N ->
  Forall (fun f => length f = (N + N / 2)%nat /\ Forall is_byte f) frames ->
  length pic = (N + N / 2)%nat ->
  simplest_yuv420_halfy (concat frames ++ rest) w h
    (Z.of_nat (length frames)) pic
  = Done (concat (map (fun f => map (fun y => y / 2) (firstn N f)
                                 ++ skipn N f) frames)).
Proof.
  intros HN Hall Hpic. unfold simplest_yuv420_halfy. rewrite Nat2Z.id.
  exact (yuv420_halfy_loop_spec w h N HN frames rest
           (fopen (concat frames ++ rest)) pic [] Hall eq_refl Hpic).
Qed.

Lemma yuv420_halfy_output_witness :
  Forall (fun f => length f = 6%nat /\ Forall is_byte f)
    [[255; 2; 3; 4; 5; 6]] /\
  simplest_yuv420_halfy [255; 2; 3; 4; 5; 6] 2 2 1 (repeat 0 6)
  = Done [127; 1; 1; 2; 5; 6].
Proof.
  assert (H : Forall (fun f => length f = 6%nat /\ Forall is_byte f)
                [[255; 2; 3; 4; 5; 6]]).
  { repeat constructor; unfold is_byte; lia. }
  split; [exact H|].
  exact (yuv420_halfy_output 2 2 4 [[255; 2; 3; 4; 5; 6]] [] (repeat 0 6)
           eq_refl H eq_refl).
Defined.

(** *** [simplest_yuv420_border] *)











End PixelFacts.
(** ** RGB pictures *)

Module RgbFacts.
Import Pixel Rgb.

(** X28.  For every pixel of bytes the three values that
    [RGB24_TO_YUV420] computes lie in the ranges of video levels, 16 to
    235 for Y and 16 to 240 for U and V, so that [clip_value] with 0 and
    255 never changes them. *)
Theorem yuv_levels (r g b : Z) :
  is_byte r -> is_byte g -> is_byte b ->
  16 <= rgb_y r g b <= 235 /\
  16 <= rgb_u r g b <= 240 /\
  16 <= rgb_v r g b <= 240 /\
  yuv_of_pixel r g b = (rgb_y r g b, rgb_u r g b, rgb_v r g b).
Proof.
  unfold is_byte. intros Hr Hg Hb.
  assert (Hy : 16 <= rgb_y r g b <= 235).
  { unfold rgb_y, to_uchar. rewrite Z.shiftr_div_pow2 by lia.
    change (2 ^ 8) with 256. Z.div_mod_to_equations. lia. }
  assert (Hu : 16 <= rgb_u r g b <= 240).
  { unfold rgb_u, to_uchar. rewrite Z.shiftr_div_pow2 by lia.
    change (2 ^ 8) with 256. Z.div_mod_to_equations. lia. }
  assert (Hv : 16 <= rgb_v r g b <= 240).
  { unfold rgb_v, to_uchar. rewrite Z.shiftr_div_pow2 by lia.
    change (2 ^ 8) with 256. Z.div_mod_to_equations. lia. }
  repeat split; try lia.
  unfold yuv_of_pixel, clip_value.
  destruct (Z.ltb_spec 255 (rgb_y r g b)); [lia|].
  destruct (Z.ltb_spec (rgb_y r g b) 0); [lia|].
  destruct (Z.ltb_spec 255 (rgb_u r g b)); [lia|].
  destruct (Z.ltb_spec (rgb_u r g b) 0); [lia|].
  destruct (Z.ltb_spec 255 (rgb_v r g b)); [lia|].
  destruct (Z.ltb_spec (rgb_v r g b) 0); [lia|].
  reflexivity.
Qed.

Lemma yuv_levels_witness :
  is_byte 255 /\ is_byte 0 /\
  rgb_y 255 255 255 = 235 /\ rgb_u 0 0 255 = 240 /\ rgb_u 255 255 0 = 16 /\
  16 <= rgb_v 0 255 255 <= 240.
Proof.
  assert (H1 : is_byte 255) by (unfold is_byte; lia).
  assert (H0 : is_byte 0) by (unfold is_byte; lia).
  split; [exact H1|]. split; [exact H0|].
  split; [reflexivity|]. split; [reflexivity|]. split; [reflexivity|].
  exact (proj1 (proj2 (proj2 (yuv_levels 0 255 255 H0 H1 H1)))).
Defined.

(** *** [simplest_rgb24_split] *)

Lemma length_interleave (pixels : list (Z * Z * Z)) :
  length (interleave pixels) = (3 * length pixels)%nat.
Proof.
  induction pixels as [|p pixels IH]; [reflexivity|].
  unfold interleave in *. cbn [flat_map length app]. rewrite IH. lia.
Qed.

Lemma rgb24_split_pixels_spec :
  forall (pixels : list (Z * Z * Z)) (pre post fp1 fp2 fp3 : list Z),
    rgb24_split_pixels (length pixels) (pre ++ interleave pixels ++ post)
      (Z.of_nat (length pre)) fp1 fp2 fp3
    = Done (fp1 ++ map (fun p => fst (fst p)) pixels,
            fp2 ++ map (fun p => snd (fst p)) pixels,
            fp3 ++ map (fun p => snd p) pixels).
Proof.
  induction pixels as [|[[r g] b] pixels IH]; intros pre post fp1 fp2 fp3.
  - cbn [length rgb24_split_pixels map]. now rewrite !app_nil_r.
  - cbn [length rgb24_split_pixels].
    set (pic := pre ++ interleave ((r, g, b) :: pixels) ++ post).
    assert (Hpic : pic = pre ++ r :: g :: b :: interleave pixels ++ post)
      by reflexivity.
    assert (Hlen : (length pre + 3 <= length pic)%nat)
      by (rewrite Hpic, length_app; cbn [length]; lia).
    assert (Hsk : skipn (length pre) pic
                  = r :: g :: b :: interleave pixels ++ post)
      by (rewrite Hpic; apply skipn_app_exact).
    change 1 with (Z.of_nat 1).
    rewrite (PixelFacts.fwrite_block_ok pic (length pre) 1) by lia.
    rewrite Hsk. cbn [firstn bind].
    replace (Z.of_nat (length pre) + Z.of_nat 1)
      with (Z.of_nat (length pre + 1)) by lia.
    rewrite (PixelFacts.fwrite_block_ok pic (length pre + 1) 1) by lia.
    rewrite (Nat.add_comm (length pre) 1), <- skipn_skipn, Hsk.
    cbn [skipn firstn bind].
    replace (Z.of_nat (length pre) + 2) with (Z.of_nat (length pre + 2))
      by lia.
    rewrite (PixelFacts.fwrite_block_ok pic (length pre + 2) 1) by lia.
    rewrite (Nat.add_comm (length pre) 2), <- skipn_skipn, Hsk.
    cbn [skipn firstn bind].
    replace (Z.of_nat (length pre) + 3)
      with (Z.of_nat (length (pre ++ [r; g; b])))
      by (rewrite length_app; cbn [length]; lia).
    replace pic with ((pre ++ [r; g; b]) ++ interleave pixels ++ post)
      by (rewrite Hpic, <- app_assoc; reflexivity).
    rewrite IH. cbn [map fst snd]. now rewrite <- !app_assoc.
Qed.

Lemma rgb24_split_loop_spec (w h : Z) (N : nat) :
  w * h = Z.of_nat N ->
  forall frames rest fp pic fp1 fp2 fp3,
    Forall (fun f => length f = N) frames ->
    f_rest fp = concat (map interleave frames) ++ rest ->
    length pic = (3 * N)%nat ->
    rgb24_split_loop (length frames) w h fp pic fp1 fp2 fp3
    = Done (fp1 ++ concat (map (map (fun p => fst (fst p))) frames),
            fp2 ++ concat (map (map (fun p => snd (fst p))) frames),
            fp3 ++ concat (map (map (fun p => snd p)) frames)).
Proof.
  intros HN.
  induction frames as [|f frames IH];
    intros rest fp pic fp1 fp2 fp3 Hall Hrest Hpic.
  - cbn [length rgb24_split_loop map concat]. now rewrite !app_nil_r.
  - inversion Hall as [|? ? Hf Hall']; subst.
    cbn [map concat] in Hrest. rewrite <- app_assoc in Hrest.
    cbn [length rgb24_split_loop].
    replace (Z.to_nat (w * h * 3)) with (3 * length f)%nat by lia.
    replace (Z.to_nat ((w * h * 3 + 2) / 3)) with (length f)
      by (rewrite HN; symmetry;
          apply Nat2Z.inj; rewrite Z2Nat.id;
          Z.div_mod_to_equations; lia).
    rewrite (fread_exact fp (interleave f) _ (3 * length f) Hrest)
      by apply length_interleave.
    rewrite (memcpy_at_whole pic (interleave f))
      by (rewrite length_interleave; lia).
    pose proof (rgb24_split_pixels_spec f [] [] fp1 fp2 fp3) as Hp.
    cbn [app length Z.of_nat] in Hp. rewrite app_nil_r in Hp.
    rewrite Hp. cbn [bind].
    rewrite (IH rest _ (interleave f) _ _ _ Hall').
    + cbn [map concat]. now rewrite <- !app_assoc.
    + exact (f_rest_exact fp (interleave f) _ _ _ Hrest
               (length_interleave f)).
    + rewrite length_interleave. reflexivity.
Qed.

(** X29.  [simplest_rgb24_split] on pictures that the file holds whole:
    the three files get the first, the second and the third byte of
    every pixel, in the order of the pixels. *)
Theorem rgb24_split_outputs (w h : Z) (N : nat)
    (frames : list (list (Z * Z * Z))) (rest pic : list Z) :
  w * h = Z.of_nat N ->
  Forall (fun f => length f = N) frames ->
  length pic = (3 * N)%nat ->
  simplest_rgb24_split (concat (map interleave frames) ++ rest) w h
    (Z.of_nat (length frames)) pic
  = Done (concat (map (map (fun p => fst (fst p))) frames),
          concat (map (map (fun p => snd (fst p))) frames),
          concat (map (map (fun p => snd p)) frames)).
Proof.
  intros HN Hall Hpic. unfold simplest_rgb24_split. rewrite Nat2Z.id.
  exact (rgb24_split_loop_spec w h N HN frames rest
           (fopen (concat (map interleave frames) ++ rest)) pic [] [] []
           Hall eq_refl Hpic).
Qed.

Lemma rgb24_split_outputs_witness :
  Forall (fun f => length f = 2%nat) [[(1, 2, 3); (4, 5, 6)]] /\
  simplest_rgb24_split [1; 2; 3; 4; 5; 6; 7] 2 1 1 (repeat 0 6)
  = Done ([1; 4], [2; 5], [3; 6]).
Proof.
  assert (H : Forall (fun f => length f = 2%nat) [[(1, 2, 3); (4, 5, 6)]])
    by (repeat constructor).
  split; [exact H|].
  exact (rgb24_split_outputs 2 1 2 [[(1, 2, 3); (4, 5, 6)]] [7] (repeat 0 6)
           eq_refl H eq_refl).
Defined.

End RgbFacts.
